(** * Download task orchestrator: progress model, task registry, process runner

    A shallow embedding of the download manager
    ([src/components/structured-data.tsx], second document: the
    "Download Manager Service"), of the POST handler of
    [src/app/api/download/route.ts] and of the yt-dlp endpoint
    ([src/unnamed/part_003]).

    Modelling conventions.
    - A JavaScript [number] is an exact rational ([Q]): the finite values,
      without rounding error.  [NaN], the infinities and the signed zero
      are outside this model.  Equality of computed numbers is [Qeq] ([==]).
    - [Math.random()], [Date.now()], [generateTaskId()] and [randomUUID()]
      are inputs of the operations that call them.
    - A thrown [Error] is the [Throw] of a result, carrying the message; a
      manager function returns its result together with the state it
      leaves, also when it throws.
    - The module-level tables [activeDownloads] and [downloadIntervals]
      are fields of an explicit state, next to the timers of the runtime.
      A task object is shared between the table and the caller, and every
      mutation of it goes through the table: the table entry is the object.
    - An interval is a handle and the closure of its callback; one firing
      of it is one call of [interval_callback].  Firings, and the calls of
      the exported functions, interleave in any order ([Op], [reachable]).
    - The scratch directory of the endpoint is the list of its files; the
      external tool and the file operations that can fail are parameters
      of the endpoint. *)

From Stdlib Require Import QArith Qround Qminmax Lqa ZArith Lia List.
From stdpp Require Import gmap strings.

Local Open Scope Q_scope.

(** * Part I: the embedding *)

(** ** Numbers *)

Module Number.

(** [Math.round]: the nearest integer, ties towards plus infinity. *)
Definition Math_round (x : Q) : Q := inject_Z (Qfloor (x + (1 # 2))).

(** [Math.ceil]. *)
Definition Math_ceil (x : Q) : Q := inject_Z (Qceiling x).

Definition Math_min (x y : Q) : Q := Qmin x y.
Definition Math_max (x y : Q) : Q := Qmax x y.

(** [x <= y] and [x < y] as the test of an [if]; [truthy x] is the
    coercion of a number to a boolean ([0] is falsy). *)
Definition leb (x y : Q) : bool := Qle_bool x y.
Definition ltb (x y : Q) : bool := negb (Qle_bool y x).
Definition truthy (x : Q) : bool := negb (Qeq_bool x 0).

End Number.

Import Number.

(** ** Progress model *)

(** [calculatePercentage(downloadedBytes, totalBytes)]. *)
Definition calculatePercentage (downloadedBytes totalBytes : Q) : Q :=
  if leb totalBytes 0 then 0
  else
    let percentage := (downloadedBytes / totalBytes) * 100 in
    Math_min 100 (Math_max 0 (Math_round (percentage * 100) / 100)).

(** [calculateETA(remainingBytes, speed)]. *)
Definition calculateETA (remainingBytes speed : Q) : Q :=
  if leb speed 0 || leb remainingBytes 0 then 0
  else Math_ceil (remainingBytes / speed).

(** The percentage as the specification words it: the quotient times 100,
    rounded to two decimal places (ties away from zero, the usual
    convention), clamped to [0, 100]. *)
Module ProgressSpec.

Definition clamp (x lo hi : Q) : Q :=
  if Qlt_le_dec x lo then lo
  else if Qlt_le_dec hi x then hi
  else x.

Definition round_half_away (x : Q) : Z :=
  if Qlt_le_dec x 0 then (- Qfloor (- x + (1 # 2)))%Z
  else Qfloor (x + (1 # 2)).

Definition round_to (x : Q) (decimals : nat) : Q :=
  let scale := inject_Z (10 ^ Z.of_nat decimals) in
  inject_Z (round_half_away (x * scale)) / scale.

Definition percentage (downloaded total : Q) : Q :=
  clamp (round_to (downloaded / total * 100) 2) 0 100.

End ProgressSpec.

(** ** Data model ([video-extractor.ts], download manager) *)

Inductive VideoQuality := q360p | q480p | q720p | q1080p | q4k.
Inductive VideoFormat := mp4 | mp3.
Inductive Platform := youtube | tiktok.

Module QualityOption.
Record t := mk {
  quality : VideoQuality;
  format : VideoFormat;
  fileSize : Q;            (* in bytes *)
  bitrate : option Q;      (* in kbps; [None] is an absent field *)
  available : bool;
  recommended : bool
}.
End QualityOption.

Module VideoInfo.
Record t := mk {
  id : string;
  title : string;
  description : string;
  thumbnail : string;
  duration : Q;            (* in seconds *)
  platform : Platform;
  qualities : list QualityOption.t
}.
End VideoInfo.

Inductive DownloadStatus := pending | downloading | paused | completed | failed.

(** The status as the string a template literal prints. *)
Definition status_string (s : DownloadStatus) : string :=
  match s with
  | pending => "pending"
  | downloading => "downloading"
  | paused => "paused"
  | completed => "completed"
  | failed => "failed"
  end.

Definition status_eqb (a b : DownloadStatus) : bool :=
  match a, b with
  | pending, pending | downloading, downloading | paused, paused
  | completed, completed | failed, failed => true
  | _, _ => false
  end.

Module DownloadProgress.
Record t := mk {
  percentage : Q;
  downloadedBytes : Q;
  totalBytes : Q;
  speed : Q;                    (* bytes per second *)
  estimatedTimeRemaining : Q    (* in seconds *)
}.
Definition set_percentage (v : Q) (p : t) : t :=
  mk v (downloadedBytes p) (totalBytes p) (speed p) (estimatedTimeRemaining p).
Definition set_downloadedBytes (v : Q) (p : t) : t :=
  mk (percentage p) v (totalBytes p) (speed p) (estimatedTimeRemaining p).
Definition set_speed (v : Q) (p : t) : t :=
  mk (percentage p) (downloadedBytes p) (totalBytes p) v (estimatedTimeRemaining p).
Definition set_estimatedTimeRemaining (v : Q) (p : t) : t :=
  mk (percentage p) (downloadedBytes p) (totalBytes p) (speed p) v.
End DownloadProgress.

(** [Partial<AudioMetadata>]: every field may be absent. *)
Module AudioMetadata.
Record partial := mk_partial {
  p_title : option string;
  p_artist : option string;
  p_album : option string;
  p_year : option string;
  p_genre : option string
}.
Record t := mk {
  title : string;
  artist : option string;
  album : option string;
  year : option string;
  genre : option string
}.
End AudioMetadata.

Module DownloadTask.
Record t := mk {
  id : string;
  videoInfo : VideoInfo.t;
  quality : QualityOption.t;
  status : DownloadStatus;
  progress : DownloadProgress.t;
  startedAt : Z;
  pausedAt : option Z;
  completedAt : option Z;
  error : option string;
  (* the extra property [startMP3Download] stores on the task object *)
  audioMetadata : option AudioMetadata.partial
}.
Definition set_status (v : DownloadStatus) (k : t) : t :=
  mk (id k) (videoInfo k) (quality k) v (progress k) (startedAt k)
     (pausedAt k) (completedAt k) (error k) (audioMetadata k).
Definition set_progress (v : DownloadProgress.t) (k : t) : t :=
  mk (id k) (videoInfo k) (quality k) (status k) v (startedAt k)
     (pausedAt k) (completedAt k) (error k) (audioMetadata k).
Definition set_pausedAt (v : option Z) (k : t) : t :=
  mk (id k) (videoInfo k) (quality k) (status k) (progress k) (startedAt k)
     v (completedAt k) (error k) (audioMetadata k).
Definition set_completedAt (v : option Z) (k : t) : t :=
  mk (id k) (videoInfo k) (quality k) (status k) (progress k) (startedAt k)
     (pausedAt k) v (error k) (audioMetadata k).
Definition set_audioMetadata (v : option AudioMetadata.partial) (k : t) : t :=
  mk (id k) (videoInfo k) (quality k) (status k) (progress k) (startedAt k)
     (pausedAt k) (completedAt k) (error k) v.
End DownloadTask.

Module AudioExtractionResult.
Record t := mk {
  success : bool;
  filePath : option string;
  bitrate : Q;
  duration : Q;
  metadata : option AudioMetadata.t;
  error : option string
}.
End AudioExtractionResult.

(** Minimum audio bitrate for MP3 extraction, in kbps. *)
Definition MIN_AUDIO_BITRATE : Q := 128.

(** ** State: the two module-level tables and the timers of the runtime *)

(** What the callback given to [setInterval] closes over. *)
Record IntervalClosure := {
  closure_taskId : string;
  closure_baseSpeed : Q
}.

Record State := mkState {
  (* [activeDownloads: Map<string, DownloadTask>] *)
  activeDownloads : gmap string DownloadTask.t;
  (* [downloadIntervals: Map<string, NodeJS.Timeout>], a handle per task id *)
  downloadIntervals : gmap string nat;
  (* the intervals the runtime still fires, by handle *)
  timers : gmap nat IntervalClosure;
  (* the next handle [setInterval] returns *)
  next_handle : nat
}.

Definition initial_state : State := mkState ∅ ∅ ∅ 0.

Definition set_activeDownloads (f : gmap string DownloadTask.t -> gmap string DownloadTask.t)
    (st : State) : State :=
  mkState (f (activeDownloads st)) (downloadIntervals st) (timers st) (next_handle st).
Definition set_downloadIntervals (f : gmap string nat -> gmap string nat)
    (st : State) : State :=
  mkState (activeDownloads st) (f (downloadIntervals st)) (timers st) (next_handle st).

(** [setInterval(callback, 100)] and [clearInterval(handle)]. *)
Definition setInterval (c : IntervalClosure) (st : State) : nat * State :=
  (next_handle st,
   mkState (activeDownloads st) (downloadIntervals st)
           (<[next_handle st := c]> (timers st)) (S (next_handle st))).
Definition clearInterval (h : nat) (st : State) : State :=
  mkState (activeDownloads st) (downloadIntervals st)
          (delete h (timers st)) (next_handle st).

(** ** Exceptions and the state monad of the manager *)

(** [new Error(message)]. *)
Inductive Error := mkError (message : string).

Definition message_of (e : Error) : string := let 'mkError m := e in m.

(** The errors of the manager, by the message they carry. *)
Definition QualityNotAvailable : Error :=
  mkError "Selected quality is not available for this video".
Definition NotFound (taskId : string) : Error :=
  mkError ("Download task not found: " +:+ taskId).
Definition CannotPause (status : DownloadStatus) : Error :=
  mkError ("Cannot pause download with status: " +:+ status_string status).
Definition CannotResume (status : DownloadStatus) : Error :=
  mkError ("Cannot resume download with status: " +:+ status_string status).
Definition MP3NotAvailable : Error :=
  mkError "MP3 format is not available for this video".
Definition BitrateTooLow : Error :=
  mkError "Audio bitrate must be at least 128kbps".

Inductive result (A : Type) :=
| Ok (a : A)
| Throw (e : Error).
Arguments Ok {A} a.
Arguments Throw {A} e.

Definition M (A : Type) : Type := State -> result A * State.

Definition ret {A} (a : A) : M A := fun st => (Ok a, st).
Definition throw {A} (e : Error) : M A := fun st => (Throw e, st).
Definition bind {A B} (c : M A) (k : A -> M B) : M B :=
  fun st =>
    match c st with
    | (Ok a, st') => k a st'
    | (Throw e, st') => (Throw e, st')
    end.
Definition get_state : M State := fun st => (Ok st, st).
Definition modify (f : State -> State) : M unit := fun st => (Ok tt, f st).

Declare Scope dl_scope.
Delimit Scope dl_scope with dl.
Notation "'let*' x ':=' c 'in' k" := (bind c (fun x => k))
  (at level 10, x pattern, c at level 100, k at level 200) : dl_scope.
Notation "c ';;' k" := (bind c (fun _ => k))
  (at level 100, k at level 200, right associativity) : dl_scope.

Local Open Scope dl_scope.

(** ** Download manager *)

(** [createInitialProgress(totalBytes)]. *)
Definition createInitialProgress (totalBytes : Q) : DownloadProgress.t :=
  DownloadProgress.mk 0 0 totalBytes 0 0.

(** [updateProgress(task, downloadedBytes, speed)]. *)
Definition updateProgress (task : DownloadTask.t) (downloadedBytes speed : Q)
    : DownloadProgress.t :=
  let totalBytes := DownloadProgress.totalBytes (DownloadTask.progress task) in
  let remainingBytes := totalBytes - downloadedBytes in
  DownloadProgress.mk
    (calculatePercentage downloadedBytes totalBytes)
    downloadedBytes
    totalBytes
    speed
    (calculateETA remainingBytes speed).

(** [clearInterval(interval); downloadIntervals.delete(taskId)]. *)
Definition stop_timer (interval : nat) (taskId : string) (st : State) : State :=
  set_downloadIntervals (delete taskId) (clearInterval interval st).

(** [simulateDownloadProgress(taskId)]; [rnd] is the value of
    [Math.random()] that picks the base speed.  The interval is only
    registered here; its callback is [interval_callback] below. *)
Definition simulateDownloadProgress (taskId : string) (rnd : Q) : M unit :=
  let* st := get_state in
  match activeDownloads st !! taskId with
  | None => ret tt
  | Some _ =>
      let baseSpeed := 500000 + rnd * 1500000 in
      fun st =>
        let '(interval, st') := setInterval (Build_IntervalClosure taskId baseSpeed) st in
        (Ok tt, set_downloadIntervals (insert taskId interval) st')
  end.

(** One firing of the callback of interval [interval]: [rnd] is its
    [Math.random()], [now] its [Date.now()].  A handle that was cleared
    does not fire. *)
Definition interval_callback (interval : nat) (rnd : Q) (now : Z) (st : State) : State :=
  match timers st !! interval with
  | None => st
  | Some c =>
      let taskId := closure_taskId c in
      let stop := stop_timer interval taskId in
      match activeDownloads st !! taskId with
      | None => stop st
      | Some currentTask =>
          if negb (status_eqb (DownloadTask.status currentTask) downloading) then stop st
          else
            let speed := closure_baseSpeed c * ((8 # 10) + rnd * (4 # 10)) in
            let bytesPerInterval := speed * (1 # 10) in
            let p := DownloadTask.progress currentTask in
            let newDownloadedBytes :=
              Math_min (DownloadProgress.downloadedBytes p + bytesPerInterval)
                       (DownloadProgress.totalBytes p) in
            let progress' := updateProgress currentTask newDownloadedBytes speed in
            let task1 := DownloadTask.set_progress progress' currentTask in
            if leb 100 (DownloadProgress.percentage progress') then
              let progress'' :=
                DownloadProgress.set_estimatedTimeRemaining 0
                  (DownloadProgress.set_downloadedBytes (DownloadProgress.totalBytes progress')
                     (DownloadProgress.set_percentage 100 progress')) in
              let task2 :=
                DownloadTask.set_progress progress''
                  (DownloadTask.set_completedAt (Some now)
                     (DownloadTask.set_status completed task1)) in
              stop (set_activeDownloads (insert taskId task2) st)
            else
              set_activeDownloads (insert taskId task1) st
      end
  end.

(** What one firing makes of a task that is [downloading]: the progress
    [updateProgress] returns, and the task the callback leaves. *)
Definition tick_progress (c : IntervalClosure) (rnd : Q) (currentTask : DownloadTask.t)
    : DownloadProgress.t :=
  let speed := closure_baseSpeed c * ((8 # 10) + rnd * (4 # 10)) in
  let bytesPerInterval := speed * (1 # 10) in
  let p := DownloadTask.progress currentTask in
  updateProgress currentTask
    (Math_min (DownloadProgress.downloadedBytes p + bytesPerInterval)
              (DownloadProgress.totalBytes p))
    speed.

Definition tick_task (c : IntervalClosure) (rnd : Q) (now : Z) (currentTask : DownloadTask.t)
    : DownloadTask.t :=
  let progress' := tick_progress c rnd currentTask in
  let task1 := DownloadTask.set_progress progress' currentTask in
  if leb 100 (DownloadProgress.percentage progress') then
    DownloadTask.set_progress
      (DownloadProgress.set_estimatedTimeRemaining 0
         (DownloadProgress.set_downloadedBytes (DownloadProgress.totalBytes progress')
            (DownloadProgress.set_percentage 100 progress')))
      (DownloadTask.set_completedAt (Some now) (DownloadTask.set_status completed task1))
  else task1.

(** [startDownload(videoInfo, quality)]; [taskId] is what
    [generateTaskId()] returns, [now] is [Date.now()]. *)
Definition startDownload (taskId : string) (now : Z) (rnd : Q)
    (videoInfo : VideoInfo.t) (quality : QualityOption.t) : M DownloadTask.t :=
  if negb (QualityOption.available quality) then
    throw QualityNotAvailable
  else
    let totalBytes := QualityOption.fileSize quality in
    let task :=
      DownloadTask.mk taskId videoInfo quality downloading
        (createInitialProgress totalBytes) now None None None None in
    modify (set_activeDownloads (insert taskId task));;
    simulateDownloadProgress taskId rnd;;
    ret task.

(** The part [pauseDownload] and [cancelDownload] share: stop the
    simulation interval of the task, if the table holds one. *)
Definition stop_interval (taskId : string) : M unit :=
  let* st := get_state in
  match downloadIntervals st !! taskId with
  | Some interval =>
      modify (stop_timer interval taskId)
  | None => ret tt
  end.

(** The task object after the three assignments of [pauseDownload], and
    after the two of [resumeDownload]. *)
Definition paused_task (now : Z) (task : DownloadTask.t) : DownloadTask.t :=
  DownloadTask.set_progress
    (DownloadProgress.set_speed 0 (DownloadTask.progress task))
    (DownloadTask.set_pausedAt (Some now) (DownloadTask.set_status paused task)).

Definition resumed_task (task : DownloadTask.t) : DownloadTask.t :=
  DownloadTask.set_pausedAt None (DownloadTask.set_status downloading task).

(** [pauseDownload(taskId)]. *)
Definition pauseDownload (taskId : string) (now : Z) : M unit :=
  let* st := get_state in
  match activeDownloads st !! taskId with
  | None => throw (NotFound taskId)
  | Some task =>
      if negb (status_eqb (DownloadTask.status task) downloading) then
        throw (CannotPause (DownloadTask.status task))
      else
        stop_interval taskId;;
        modify (set_activeDownloads (insert taskId (paused_task now task)))
  end.

(** [resumeDownload(taskId)]. *)
Definition resumeDownload (taskId : string) (rnd : Q) : M unit :=
  let* st := get_state in
  match activeDownloads st !! taskId with
  | None => throw (NotFound taskId)
  | Some task =>
      if negb (status_eqb (DownloadTask.status task) paused) then
        throw (CannotResume (DownloadTask.status task))
      else
        modify (set_activeDownloads (insert taskId (resumed_task task)));;
        simulateDownloadProgress taskId rnd
  end.

(** [cancelDownload(taskId)]. *)
Definition cancelDownload (taskId : string) : M unit :=
  let* st := get_state in
  match activeDownloads st !! taskId with
  | None => throw (NotFound taskId)
  | Some _ =>
      stop_interval taskId;;
      modify (set_activeDownloads (delete taskId))
  end.

(** [getProgress(taskId)] and [getDownloadTask(taskId)]: copies. *)
Definition getProgress (taskId : string) : M DownloadProgress.t :=
  let* st := get_state in
  match activeDownloads st !! taskId with
  | None => throw (NotFound taskId)
  | Some task => ret (DownloadTask.progress task)
  end.

Definition getDownloadTask (taskId : string) (st : State) : option DownloadTask.t :=
  activeDownloads st !! taskId.

(** [clearCompletedDownloads()]. *)
Definition clearCompletedDownloads : M unit :=
  modify (set_activeDownloads
            (filter (fun kv => negb (status_eqb (DownloadTask.status (snd kv)) completed
                                     || status_eqb (DownloadTask.status (snd kv)) failed)
                               = true))).

(** [validateAudioBitrate(bitrate)]. *)
Definition validateAudioBitrate (bitrate : Q) : bool := leb MIN_AUDIO_BITRATE bitrate.

(** The test [q => q.format === 'mp3']. *)
Definition is_mp3 (q : QualityOption.t) : bool :=
  match QualityOption.format q with mp3 => true | mp4 => false end.

(** [extractAudio(videoInfo, targetBitrate = MIN_AUDIO_BITRATE, metadata)]:
    a pure function of its arguments; [targetBitrate = None] is an omitted
    argument.  A [VideoInfo] value is never [null], so the first half of
    [!videoInfo || !videoInfo.id] is the test of an empty id. *)
Definition extractAudio (videoInfo : VideoInfo.t) (targetBitrate : option Q)
    (metadata : option AudioMetadata.partial) : AudioExtractionResult.t :=
  let actualBitrate := Math_max (default MIN_AUDIO_BITRATE targetBitrate) MIN_AUDIO_BITRATE in
  if String.eqb (VideoInfo.id videoInfo) "" then
    AudioExtractionResult.mk false None 0 0 None
      (Some "Invalid video information provided")
  else
    let mp3Quality := List.find is_mp3 (VideoInfo.qualities videoInfo) in
    match mp3Quality with
    | Some q =>
        if QualityOption.available q then
          let audioMetadata :=
            AudioMetadata.mk
              (match metadata ≫= AudioMetadata.p_title with
               | Some t => if String.eqb t "" then VideoInfo.title videoInfo else t
               | None => VideoInfo.title videoInfo
               end)
              (metadata ≫= AudioMetadata.p_artist)
              (metadata ≫= AudioMetadata.p_album)
              (metadata ≫= AudioMetadata.p_year)
              (metadata ≫= AudioMetadata.p_genre) in
          let filePath := "downloads/" +:+ VideoInfo.id videoInfo +:+ ".mp3" in
          AudioExtractionResult.mk true (Some filePath) actualBitrate
            (VideoInfo.duration videoInfo) (Some audioMetadata) None
        else
          AudioExtractionResult.mk false None 0 0 None
            (Some "MP3 format is not available for this video")
    | None =>
        AudioExtractionResult.mk false None 0 0 None
          (Some "MP3 format is not available for this video")
    end.

(** [startMP3Download(videoInfo, metadata)].  The metadata is stored on the
    task object itself, which is the object the table holds. *)
Definition startMP3Download (taskId : string) (now : Z) (rnd : Q)
    (videoInfo : VideoInfo.t) (metadata : option AudioMetadata.partial)
    : M DownloadTask.t :=
  let mp3Quality := List.find is_mp3 (VideoInfo.qualities videoInfo) in
  match mp3Quality with
  | None => throw MP3NotAvailable
  | Some q =>
      if negb (QualityOption.available q) then
        throw MP3NotAvailable
      else if match QualityOption.bitrate q with
              | Some b => truthy b && ltb b MIN_AUDIO_BITRATE
              | None => false
              end then
        throw BitrateTooLow
      else
        let* task := startDownload taskId now rnd videoInfo q in
        match metadata with
        | Some m =>
            let task' := DownloadTask.set_audioMetadata (Some m) task in
            modify (set_activeDownloads (insert (DownloadTask.id task) task'));;
            ret task'
        | None => ret task
        end
  end.

(** ** The POST handler of [/api/download] *)

Module DownloadRoute.

Inductive ErrorCode :=
  INVALID_REQUEST | QUALITY_UNAVAILABLE | DOWNLOAD_FAILED | MISSING_VIDEO_INFO.

(** The JSON body: a missing property is [None]. *)
Record DownloadRequest := {
  videoInfo : option VideoInfo.t;
  quality : option QualityOption.t;
  audioMetadata : option AudioMetadata.partial
}.

Inductive Response :=
| DownloadResponse (taskId : string) (status : DownloadStatus) (message : string)
                   (http_status : nat)
| DownloadErrorResponse (error : string) (code : ErrorCode) (http_status : nat).

(** [POST(request)], given the parsed body.  [startDownload] and
    [startMP3Download] run inside the [try]; what they throw is answered
    with [DOWNLOAD_FAILED]. *)
Definition POST (taskId : string) (now : Z) (rnd : Q) (body : DownloadRequest)
    (st : State) : Response * State :=
  match videoInfo body with
  | None => (DownloadErrorResponse "ข้อมูลวิดีโอไม่ถูกต้อง" MISSING_VIDEO_INFO 400, st)
  | Some vi =>
      if String.eqb (VideoInfo.id vi) "" then
        (DownloadErrorResponse "ข้อมูลวิดีโอไม่ถูกต้อง" MISSING_VIDEO_INFO 400, st)
      else
        match quality body with
        | None => (DownloadErrorResponse "กรุณาเลือกคุณภาพวิดีโอ" INVALID_REQUEST 400, st)
        | Some q =>
            if negb (QualityOption.available q) then
              (DownloadErrorResponse "คุณภาพที่เลือกไม่พร้อมใช้งานสำหรับวิดีโอนี้"
                 QUALITY_UNAVAILABLE 400, st)
            else
              let started :=
                match QualityOption.format q with
                | mp3 => startMP3Download taskId now rnd vi (audioMetadata body) st
                | mp4 => startDownload taskId now rnd vi q st
                end in
              match started with
              | (Ok task, st') =>
                  (DownloadResponse (DownloadTask.id task) (DownloadTask.status task)
                     "เริ่มดาวน์โหลดแล้ว" 200, st')
              | (Throw e, st') =>
                  (DownloadErrorResponse (message_of e) DOWNLOAD_FAILED 500, st')
              end
        end
  end.

End DownloadRoute.

(** ** The yt-dlp endpoint ([src/unnamed/part_003]) *)

Module YtDlpRoute.

(** The scratch directory [TEMP_DIR]: its files, name and content, in the
    order [readdir] lists them. *)
Definition Dir := list (string * string).

(** A path below [TEMP_DIR]: [path.join(TEMP_DIR, name)].  [randomUUID()]
    holds no separator, so [path.basename] gives the name back. *)
Record Path := path_join { dirname : string; basename : string }.

(** What running the command gave: [execAsync] resolves ([exec_ok]) or
    rejects with [exec_message] (non-zero exit, timeout after 300000 ms,
    more than 50 MB of output); either way the tool may have written
    [exec_files] into [TEMP_DIR]. *)
Record ExecOutcome := {
  exec_ok : bool;
  exec_stdout : string;
  exec_stderr : string;
  exec_message : string;
  exec_files : Dir
}.

Record Request := {
  param_url : option string;
  param_format : option string;
  param_quality : option string
}.

Inductive Response :=
| JsonError (error : string) (http_status : nat)
| FileResponse (body : string) (contentType : string) (filename : string)
               (http_status : nat).

(** [searchParams.get(k) || fallback]: [null] and the empty string are falsy. *)
Definition or_default (v : option string) (fallback : string) : string :=
  match v with
  | Some s => if String.eqb s "" then fallback else s
  | None => fallback
  end.

Definition qualityMap (quality : string) : option string :=
  if String.eqb quality "360p" then
    Some "bestvideo[height<=360][ext=mp4]+bestaudio[ext=m4a]/best[height<=360][ext=mp4]/best[height<=360]"
  else if String.eqb quality "480p" then
    Some "bestvideo[height<=480][ext=mp4]+bestaudio[ext=m4a]/best[height<=480][ext=mp4]/best[height<=480]"
  else if String.eqb quality "720p" then
    Some "bestvideo[height<=720][ext=mp4]+bestaudio[ext=m4a]/best[height<=720][ext=mp4]/best[height<=720]"
  else if String.eqb quality "1080p" then
    Some "bestvideo[height<=1080][ext=mp4]+bestaudio[ext=m4a]/best[height<=1080][ext=mp4]/best[height<=1080]"
  else None.

Definition quote : string := String (Ascii.ascii_of_nat 34) EmptyString.

Section Endpoint.

(** The environment of one request. *)
Variable TEMP_DIR : string.
(** The URL with its [list], [start_radio] and [index] parameters deleted. *)
Variable clean_url : string -> string.
(** The outcome of the command line given to [execAsync]. *)
Variable yt_dlp : string -> ExecOutcome.
(** The first group of the [Destination] pattern matched against stdout. *)
Variable match_title : string -> option string.
(** [path.extname(name).slice(1)] and [encodeURIComponent]. *)
Variable extname_tail : string -> string.
Variable encodeURIComponent : string -> string.
(** File operations that throw: the [readdir] of [GET] and the one of
    [cleanupTempFiles], and [readFile] and [unlink] of a file of [TEMP_DIR];
    [readFile_message] is the message of the error [readFile] throws. *)
Variable readdir_fails : bool.
Variable cleanup_readdir_fails : bool.
Variable readFile_fails : string -> bool.
Variable readFile_message : string.
Variable unlink_fails : string -> bool.

Definition startsWith (s p : string) : bool := String.prefix p s.

(** [cleanupTempFiles(prefix)]: every error is ignored. *)
Definition cleanupTempFiles (prefix : Path) (dir : Dir) : Dir :=
  if cleanup_readdir_fails then dir
  else
    let baseName := basename prefix in
    List.filter (fun file => negb (startsWith (fst file) baseName)
                              || unlink_fails (fst file)) dir.

Definition existsSync (name : string) (dir : Dir) : bool :=
  existsb (fun file => String.eqb (fst file) name) dir.

Definition readFile (name : string) (dir : Dir) : option string :=
  if readFile_fails name then None
  else snd <$> List.find (fun file => String.eqb (fst file) name) dir.

Definition contentType_of (format : string) : string :=
  if String.eqb format "mp3" then "audio/mpeg" else "video/mp4".

(** [GET(request)]; [fileId] is what [randomUUID()] returns.  The result is
    the response and the scratch directory the invocation leaves. *)
Definition GET (fileId : string) (request : Request) (dir : Dir) : Response * Dir :=
  let format := or_default (param_format request) "mp4" in
  let quality := or_default (param_quality request) "1080p" in
  match param_url request with
  | None => (JsonError "กรุณาระบุ URL" 400, dir)
  | Some url0 =>
      if String.eqb url0 "" then (JsonError "กรุณาระบุ URL" 400, dir)
      else
        let url := clean_url url0 in
        let outputTemplate := path_join TEMP_DIR fileId in
        let '(cmd, ext) :=
          if String.eqb format "mp3" then
            ("yt-dlp -x --audio-format mp3 --audio-quality 0 --postprocessor-args "
               +:+ quote +:+ "-b:a 320k" +:+ quote +:+ " -P " +:+ quote +:+ TEMP_DIR
               +:+ quote +:+ " -o " +:+ quote +:+ fileId +:+ ".%(ext)s" +:+ quote
               +:+ " " +:+ quote +:+ url +:+ quote, "mp3")
          else
            let formatSelector :=
              match qualityMap quality with
              | Some s => s
              | None => default "" (qualityMap "1080p")
              end in
            ("yt-dlp -f " +:+ quote +:+ formatSelector +:+ quote
               +:+ " --merge-output-format mp4 -P " +:+ quote +:+ TEMP_DIR +:+ quote
               +:+ " -o " +:+ quote +:+ fileId +:+ ".%(ext)s" +:+ quote
               +:+ " " +:+ quote +:+ url +:+ quote, "mp4") in
        let out := yt_dlp cmd in
        let dir1 := dir ++ exec_files out in
        if negb (exec_ok out) then
          (* [execAsync] rejects: the outer [catch] answers *)
          (JsonError (exec_message out) 500, dir1)
        else
          let stdout := exec_stdout out in
          let outputFile := fileId +:+ "." +:+ ext in
          if negb (existsSync outputFile dir1) then
            if readdir_fails then (JsonError "ไฟล์ไม่ถูกสร้าง" 500, dir1)
            else
              match List.find (fun f => startsWith f fileId) (fst <$> dir1) with
              | Some matchingFile =>
                  match readFile matchingFile dir1 with
                  | None => (JsonError "ไฟล์ไม่ถูกสร้าง" 500, dir1)
                  | Some fileBuffer =>
                      let title := default "download" (match_title stdout) in
                      let actualExt :=
                        let e := extname_tail matchingFile in
                        if String.eqb e "" then ext else e in
                      let filename := title +:+ "." +:+ actualExt in
                      let dir2 := cleanupTempFiles outputTemplate dir1 in
                      (FileResponse fileBuffer (contentType_of format)
                         (encodeURIComponent filename) 200, dir2)
                  end
              | None => (JsonError "ไฟล์ไม่ถูกสร้าง" 500, dir1)
              end
          else
            match readFile outputFile dir1 with
            | None => (JsonError readFile_message 500, dir1)
            | Some fileBuffer =>
                let title := default "download" (match_title stdout) in
                let filename := title +:+ "." +:+ ext in
                let dir2 := cleanupTempFiles outputTemplate dir1 in
                (FileResponse fileBuffer (contentType_of format)
                   (encodeURIComponent filename) 200, dir2)
            end
  end.

(** Some file of the directory has a name that begins with the work token. *)
Definition token_file_remains (fileId : string) (dir : Dir) : bool :=
  existsb (fun file => startsWith (fst file) fileId) dir.

End Endpoint.

(** The endpoint when neither [readdir] nor [unlink] fails. *)
Definition GET_sound_fs (TEMP_DIR : string) (clean_url : string -> string)
    (yt_dlp : string -> ExecOutcome) (match_title : string -> option string)
    (extname_tail encodeURIComponent : string -> string)
    (readFile_fails : string -> bool) (readFile_message : string)
    : string -> Request -> Dir -> Response * Dir :=
  GET TEMP_DIR clean_url yt_dlp match_title extname_tail encodeURIComponent
      false false readFile_fails readFile_message (fun _ => false).

End YtDlpRoute.

(** ** Runs of the manager *)

(** The calls a client and the event loop make. *)
Inductive Op :=
| Start (taskId : string) (now : Z) (rnd : Q)
        (videoInfo : VideoInfo.t) (quality : QualityOption.t)
| StartMP3 (taskId : string) (now : Z) (rnd : Q)
           (videoInfo : VideoInfo.t) (metadata : option AudioMetadata.partial)
| Tick (interval : nat) (rnd : Q) (now : Z)
| Pause (taskId : string) (now : Z)
| Resume (taskId : string) (rnd : Q)
| Cancel (taskId : string)
| ClearCompleted.

(** [Math.random()] returns a number of [0, 1). *)
Definition random_ok (rnd : Q) : Prop := 0 <= rnd /\ rnd < 1.

Definition op_random_ok (o : Op) : Prop :=
  match o with
  | Start _ _ rnd _ _ | StartMP3 _ _ rnd _ _ | Tick _ rnd _ | Resume _ rnd => random_ok rnd
  | Pause _ _ | Cancel _ | ClearCompleted => True
  end.

(** The state after a call, whether it returned or threw. *)
Definition run_op (o : Op) (st : State) : State :=
  match o with
  | Start taskId now rnd videoInfo quality =>
      snd (startDownload taskId now rnd videoInfo quality st)
  | StartMP3 taskId now rnd videoInfo metadata =>
      snd (startMP3Download taskId now rnd videoInfo metadata st)
  | Tick interval rnd now => interval_callback interval rnd now st
  | Pause taskId now => snd (pauseDownload taskId now st)
  | Resume taskId rnd => snd (resumeDownload taskId rnd st)
  | Cancel taskId => snd (cancelDownload taskId st)
  | ClearCompleted => snd (clearCompletedDownloads st)
  end.

Definition run_ops (ops : list Op) (st : State) : State :=
  fold_left (fun st o => run_op o st) ops st.

(** Firings only: the handle, the random number and the clock of each. *)
Definition tick_ops (ticks : list (nat * Q * Z)) : list Op :=
  map (fun t => Tick (fst (fst t)) (snd (fst t)) (snd t)) ticks.

Inductive reachable : State -> Prop :=
| reachable_initial : reachable initial_state
| reachable_step st o :
    reachable st -> op_random_ok o -> reachable (run_op o st).

(** ** Invariants of the registry *)

(** The percentage lies in [0, 100], and the bytes downloaded do not exceed
    a positive total. *)
Definition progress_in_bounds (p : DownloadProgress.t) : Prop :=
  0 <= DownloadProgress.percentage p /\
  DownloadProgress.percentage p <= 100 /\
  (0 < DownloadProgress.totalBytes p ->
   DownloadProgress.downloadedBytes p <= DownloadProgress.totalBytes p).

(** A task that is still to finish has not reached a positive total. *)
Definition unfinished (task : DownloadTask.t) : Prop :=
  DownloadTask.status task = downloading \/ DownloadTask.status task = paused.

Definition task_inv (task : DownloadTask.t) : Prop :=
  progress_in_bounds (DownloadTask.progress task) /\
  (unfinished task ->
   0 < DownloadProgress.totalBytes (DownloadTask.progress task) ->
   DownloadProgress.downloadedBytes (DownloadTask.progress task)
   < DownloadProgress.totalBytes (DownloadTask.progress task)).

(** The base speed of an interval is at least 500 KB/s. *)
Definition timer_inv (c : IntervalClosure) : Prop := 500000 <= closure_baseSpeed c.

Definition state_inv (st : State) : Prop :=
  map_Forall (fun _ task => task_inv task) (activeDownloads st) /\
  map_Forall (fun _ c => timer_inv c) (timers st).

(** The task [taskId] is [downloading] with no positive total and a
    percentage of 0, and its interval [h] is registered and still fires. *)
Definition stuck_at_zero (taskId : string) (h : nat) (st : State) : Prop :=
  (exists task,
     activeDownloads st !! taskId = Some task /\
     DownloadTask.status task = downloading /\
     DownloadProgress.totalBytes (DownloadTask.progress task) <= 0 /\
     DownloadProgress.percentage (DownloadTask.progress task) == 0) /\
  downloadIntervals st !! taskId = Some h /\
  (exists c, timers st !! h = Some c /\ closure_taskId c = taskId).

(** ** Sample data for the examples *)

Module Sample.

Definition quality720 : QualityOption.t :=
  QualityOption.mk q720p mp4 1000 (Some 5000) true true.

(** An offered quality of an estimated size of 0 bytes (a duration of 0). *)
Definition qualityEmpty : QualityOption.t :=
  QualityOption.mk q360p mp4 0 (Some 1000) true false.

Definition quality4k : QualityOption.t :=
  QualityOption.mk q4k mp4 0 (Some 20000) false false.

Definition qualityMp3 : QualityOption.t :=
  QualityOption.mk q720p mp3 960000 (Some 128) true false.

Definition qualityMp3Low : QualityOption.t :=
  QualityOption.mk q720p mp3 720000 (Some 96) true false.

Definition video : VideoInfo.t :=
  VideoInfo.mk "abc123" "Sample" "" "" 60 youtube
    [quality720; qualityEmpty; quality4k; qualityMp3].

Definition videoLow : VideoInfo.t :=
  VideoInfo.mk "abc123" "Sample" "" "" 60 youtube [quality720; qualityMp3Low].

(** A task of 1000 bytes, started and completed by its first tick. *)
Definition st_completed : State :=
  run_ops [Start "dl_1" 0 0 video quality720; Tick 0%nat 0 100] initial_state.

(** A task of 3000000 bytes after one tick, and after a pause. *)
Definition quality1080 : QualityOption.t :=
  QualityOption.mk q1080p mp4 3000000 (Some 8000) true false.

Definition st_running : State :=
  run_ops [Start "dl_2" 0 0 video quality1080; Tick 0%nat 0 100] initial_state.

Definition st_paused : State := run_op (Pause "dl_2" 200) st_running.

(** A task of 0 bytes, started. *)
Definition st_empty : State :=
  run_op (Start "dl_3" 0 0 video qualityEmpty) initial_state.


(** The yt-dlp endpoint with no file operation failing, a tool that times
    out after it has written a partial file, and one that succeeds. *)
Definition fileId : string := "7c9e6679-7425-40de-944b-e07fc1f90ae7".

Definition timed_out : YtDlpRoute.ExecOutcome :=
  YtDlpRoute.Build_ExecOutcome false "" "" "Command failed: yt-dlp (timed out)"
    [(fileId +:+ ".f137.mp4.part", "partial video")].

Definition produced : YtDlpRoute.ExecOutcome :=
  YtDlpRoute.Build_ExecOutcome true "" "" ""
    [(fileId +:+ ".f140.m4a", "audio"); (fileId +:+ ".mp4", "video")].

Definition GET_with (out : YtDlpRoute.ExecOutcome) (dir : YtDlpRoute.Dir)
    : YtDlpRoute.Response * YtDlpRoute.Dir :=
  YtDlpRoute.GET "/app/tmp" (fun url => url) (fun _ => out) (fun _ => None)
    (fun _ => "") (fun name => name) false false (fun _ => false) "" (fun _ => false)
    fileId
    (YtDlpRoute.Build_Request (Some "https://www.youtube.com/watch?v=abc123") None None)
    dir.

End Sample.

(** * Part I, continued: the rest of the manager and the code around it

    The remaining exports of the download manager and the GET handler of
    [src/app/api/download/route.ts]; the URL parser
    ([src/lib/url-parser.ts]) with the regular expressions it matches; the
    video extractor ([src/lib/video-extractor.ts]); the download history
    ([src/lib/history-manager.ts]); and the parts of the components that
    call them: the URL form, the progress view and the quality selector.

    Further conventions.
    - The characters of a string are its code units, and an address is a
      string of code units below 256.
    - A regular expression is the syntax tree of its pattern, and matching
      is the backtracking matcher of the language definition, for the
      fragment the patterns use.
    - A promise is what it resolves to, or the error it rejects with.
    - An item of [localStorage] is kept as the JSON value its text denotes;
      the test of a date string, which rests on the dates of the runtime,
      is a parameter of the history functions. *)


(** ** The remaining exports of the download manager *)

(** [_clearAllDownloads()]: every interval the table knows is cleared,
    then both tables are emptied. *)
Definition _clearAllDownloads : M unit :=
  modify (fun st =>
    mkState ∅ ∅
      (map_fold (fun _ interval tm => delete interval tm) (timers st)
                (downloadIntervals st))
      (next_handle st)).

(** The test of [clearCompletedDownloads]: the task is [completed] or
    [failed]. *)
Definition finished (task : DownloadTask.t) : bool :=
  status_eqb (DownloadTask.status task) completed
  || status_eqb (DownloadTask.status task) failed.

(** The task [startDownload] builds, with the extra property
    [startMP3Download] may add. *)
Definition started_task (taskId : string) (now : Z) (videoInfo : VideoInfo.t)
    (quality : QualityOption.t) (metadata : option AudioMetadata.partial)
    : DownloadTask.t :=
  DownloadTask.mk taskId videoInfo quality downloading
    (createInitialProgress (QualityOption.fileSize quality)) now None None None metadata.

(** ** The GET handler of [/api/download] *)

Module DownloadStatusRoute.

Inductive Response :=
| TaskResponse (task : DownloadTask.t) (http_status : nat)
| ErrorResponse (error : string) (code : DownloadRoute.ErrorCode) (http_status : nat).

(** [GET(request)], given the [taskId] search parameter ([None] when the
    URL has none; the empty string is falsy too). *)
Definition GET (taskId : option string) (st : State) : Response :=
  match taskId with
  | None => ErrorResponse "กรุณาระบุ taskId" DownloadRoute.INVALID_REQUEST 400
  | Some taskId =>
      if String.eqb taskId "" then
        ErrorResponse "กรุณาระบุ taskId" DownloadRoute.INVALID_REQUEST 400
      else
        match getDownloadTask taskId st with
        | None => ErrorResponse "ไม่พบงานดาวน์โหลด" DownloadRoute.INVALID_REQUEST 404
        | Some task => TaskResponse task 200
        end
  end.

End DownloadStatusRoute.

(** ** How one call changes one task *)

(** The task under [key] after a call, in terms of the state before it:
    the same task; a task just started; or the task that was there after
    one firing, one pause or one resume. *)
Inductive task_change (st : State) (key : string) : DownloadTask.t -> Prop :=
| change_none task :
    activeDownloads st !! key = Some task -> task_change st key task
| change_started now videoInfo quality metadata :
    QualityOption.available quality = true ->
    task_change st key (started_task key now videoInfo quality metadata)
| change_tick interval c rnd now task :
    timers st !! interval = Some c ->
    closure_taskId c = key ->
    random_ok rnd ->
    activeDownloads st !! key = Some task ->
    DownloadTask.status task = downloading ->
    task_change st key (tick_task c rnd now task)
| change_paused now task :
    activeDownloads st !! key = Some task ->
    DownloadTask.status task = downloading ->
    task_change st key (paused_task now task)
| change_resumed task :
    activeDownloads st !! key = Some task ->
    DownloadTask.status task = paused ->
    task_change st key (resumed_task task).

(** ** Life cycle and progress of a stored task *)

(** The task is stored under its own id, is of an available quality,
    carries no error, and its time stamps and percentage agree with its
    status; [pending] and [failed] do not occur. *)
Definition lifecycle_ok (key : string) (task : DownloadTask.t) : Prop :=
  DownloadTask.id task = key /\
  QualityOption.available (DownloadTask.quality task) = true /\
  DownloadTask.error task = None /\
  match DownloadTask.status task with
  | downloading =>
      DownloadTask.pausedAt task = None /\ DownloadTask.completedAt task = None /\
      DownloadProgress.percentage (DownloadTask.progress task) < 100
  | paused =>
      is_Some (DownloadTask.pausedAt task) /\ DownloadTask.completedAt task = None /\
      DownloadProgress.percentage (DownloadTask.progress task) < 100 /\
      DownloadProgress.speed (DownloadTask.progress task) = 0
  | completed =>
      DownloadTask.pausedAt task = None /\ is_Some (DownloadTask.completedAt task) /\
      DownloadProgress.percentage (DownloadTask.progress task) = 100 /\
      DownloadProgress.downloadedBytes (DownloadTask.progress task)
      = DownloadProgress.totalBytes (DownloadTask.progress task) /\
      DownloadProgress.estimatedTimeRemaining (DownloadTask.progress task) = 0
  | pending | failed => False
  end.

(** The percentage is the one [calculatePercentage] derives from the two
    byte counts, the total is the file size of the quality option, and
    speed and remaining time are not negative. *)
Definition progress_consistent (task : DownloadTask.t) : Prop :=
  let p := DownloadTask.progress task in
  DownloadProgress.percentage p
  == calculatePercentage (DownloadProgress.downloadedBytes p)
                         (DownloadProgress.totalBytes p) /\
  DownloadProgress.totalBytes p = QualityOption.fileSize (DownloadTask.quality task) /\
  0 <= DownloadProgress.speed p /\
  0 <= DownloadProgress.estimatedTimeRemaining p.

(** ** Intervals and the tasks they drive *)

(** Every live interval is the one registered for its task, which is in
    the registry and [downloading]; every registered handle is a live
    interval of that task; every [downloading] task has one registered;
    and the handles in use are below the next one. *)
Definition drivers_ok (st : State) : Prop :=
  (forall h c, timers st !! h = Some c ->
     downloadIntervals st !! closure_taskId c = Some h /\
     exists task, activeDownloads st !! closure_taskId c = Some task /\
                  DownloadTask.status task = downloading) /\
  (forall taskId h, downloadIntervals st !! taskId = Some h ->
     exists c, timers st !! h = Some c /\ closure_taskId c = taskId) /\
  (forall taskId task, activeDownloads st !! taskId = Some task ->
     DownloadTask.status task = downloading ->
     exists h, downloadIntervals st !! taskId = Some h) /\
  (forall h c, timers st !! h = Some c -> (h < next_handle st)%nat).

(** [generateTaskId()] returned an id the registry does not hold. *)
Definition op_fresh (st : State) (o : Op) : Prop :=
  match o with
  | Start taskId _ _ _ _ | StartMP3 taskId _ _ _ _ => activeDownloads st !! taskId = None
  | Tick _ _ _ | Pause _ _ | Resume _ _ | Cancel _ | ClearCompleted => True
  end.

Inductive reachable_fresh : State -> Prop :=
| reachable_fresh_initial : reachable_fresh initial_state
| reachable_fresh_step st o :
    reachable_fresh st -> op_random_ok o -> op_fresh st o ->
    reachable_fresh (run_op o st).

(** The call neither removes the task [taskId] nor starts a task under
    its id. *)
Definition keeps_task (taskId : string) (o : Op) : Prop :=
  match o with
  | Start taskId' _ _ _ _ | StartMP3 taskId' _ _ _ _ | Cancel taskId' => taskId' <> taskId
  | ClearCompleted => False
  | Tick _ _ _ | Pause _ _ | Resume _ _ => True
  end.

(** Firings of one interval: the random number and the clock of each. *)
Definition ticks_of (interval : nat) (ticks : list (Q * Z)) : list Op :=
  map (fun t => Tick interval (fst t) (snd t)) ticks.

(** ** Regular expressions ([RegExp] of the runtime)

    The fragment of the pattern language the URL parser uses, and the
    backtracking matcher of the language definition: a matcher takes the
    rest of the input, the captures so far and a continuation, and
    alternatives are tried in the order of priority (a greedy quantifier
    takes as much as it can first and gives back one character at a
    time).  In the patterns of the parser no optional part matches the
    empty word and the capturing group is under no quantifier, so the
    matcher needs neither the test for an empty iteration nor the reset of
    captures.  The characters of a string are its code units, and a URL is
    a string of code units below 256. *)

Module RegExp.

Inductive t :=
| Lit (s : string)                          (* a run of literal characters *)
| Seq (r1 r2 : t)
| Opt (r : t)                               (* [(?:r)?] *)
| Star (class : Ascii.ascii -> bool)              (* [c*], for a class or [.] *)
| Plus (class : Ascii.ascii -> bool)              (* [c+] *)
| Repeat (n : nat) (class : Ascii.ascii -> bool)  (* [c{n}] *)
| Group (r : t).                            (* [(r)], the capturing group 1 *)

(** The elements of a pattern, in sequence. *)
Definition seq (rs : list t) : t := fold_right Seq (Lit "") rs.

(** Group 1 of a match: [None] is [undefined]. *)
Definition Captures := option (list Ascii.ascii).
Definition Continuation := list Ascii.ascii -> Captures -> option Captures.

Fixpoint lit (l s : list Ascii.ascii) : option (list Ascii.ascii) :=
  match l, s with
  | [], _ => Some s
  | a :: l', c :: s' => if Ascii.eqb a c then lit l' s' else None
  | _ :: _, [] => None
  end.

Fixpoint star (class : Ascii.ascii -> bool) (s : list Ascii.ascii)
    (k : list Ascii.ascii -> option Captures) : option Captures :=
  match s with
  | c :: s' =>
      if class c then
        match star class s' k with
        | Some m => Some m
        | None => k s
        end
      else k s
  | [] => k s
  end.

Fixpoint repeat_class (n : nat) (class : Ascii.ascii -> bool) (s : list Ascii.ascii)
    (k : list Ascii.ascii -> option Captures) : option Captures :=
  match n with
  | O => k s
  | S n' =>
      match s with
      | c :: s' => if class c then repeat_class n' class s' k else None
      | [] => None
      end
  end.

(** What a matcher consumed, from the input before and after it. *)
Definition consumed (s s' : list Ascii.ascii) : list Ascii.ascii :=
  firstn (length s - length s') s.

Fixpoint run (r : t) (s : list Ascii.ascii) (cap : Captures) (k : Continuation)
    : option Captures :=
  match r with
  | Lit l =>
      match lit (String.list_ascii_of_string l) s with
      | Some s' => k s' cap
      | None => None
      end
  | Seq r1 r2 => run r1 s cap (fun s' cap' => run r2 s' cap' k)
  | Opt r' =>
      match run r' s cap k with
      | Some m => Some m
      | None => k s cap
      end
  | Star class => star class s (fun s' => k s' cap)
  | Plus class =>
      match s with
      | c :: s' => if class c then star class s' (fun s'' => k s'' cap) else None
      | [] => None
      end
  | Repeat n class => repeat_class n class s (fun s' => k s' cap)
  | Group r' => run r' s cap (fun s' _ => k s' (Some (consumed s s')))
  end.

(** [string.match(/^r$/)]: the pattern is anchored at both ends and has
    no flag.  [None] is [null]; [Some cap] is a match whose group 1 is
    [cap]. *)
Definition exec (r : t) (s : string) : option Captures :=
  run r (String.list_ascii_of_string s) None
      (fun s' cap => match s' with [] => Some cap | _ :: _ => None end).

(** [/^r$/.test(string)]. *)
Definition test (r : t) (s : string) : bool :=
  match exec r s with Some _ => true | None => false end.

(** The words a pattern matches, with the captures before and after: the
    meaning of a pattern, apart from the order in which the matcher tries
    the alternatives. *)
Fixpoint denotes (r : t) (w : list Ascii.ascii) (cap cap' : Captures) : Prop :=
  match r with
  | Lit l => w = String.list_ascii_of_string l /\ cap' = cap
  | Seq r1 r2 =>
      exists w1 w2 cap1,
        w = w1 ++ w2 /\ denotes r1 w1 cap cap1 /\ denotes r2 w2 cap1 cap'
  | Opt r' => (w = [] /\ cap' = cap) \/ denotes r' w cap cap'
  | Star class => forallb class w = true /\ cap' = cap
  | Plus class => w <> [] /\ forallb class w = true /\ cap' = cap
  | Repeat n class => length w = n /\ forallb class w = true /\ cap' = cap
  | Group r' => (exists cap1, denotes r' w cap cap1) /\ cap' = Some w
  end.

End RegExp.

(** ** The URL parser ([src/lib/url-parser.ts]) *)

Module UrlParser.

Import Stdlib.Strings.Ascii RegExp.

Record ParsedURL := {
  platform : Platform;
  videoId : string;
  originalUrl : string
}.

(** Character classes: [a-z] and the like, [\d], [a-zA-Z0-9], [\w],
    [a-zA-Z0-9_-], [\w.-], and [.] (any character but a line
    terminator). *)
Definition in_range (lo hi c : Ascii.ascii) : bool :=
  (Ascii.nat_of_ascii lo <=? Ascii.nat_of_ascii c)%nat
  && (Ascii.nat_of_ascii c <=? Ascii.nat_of_ascii hi)%nat.

Definition digit (c : Ascii.ascii) : bool := in_range "0"%char "9"%char c.

Definition alnum (c : Ascii.ascii) : bool :=
  in_range "a"%char "z"%char c || in_range "A"%char "Z"%char c || in_range "0"%char "9"%char c.

Definition word (c : Ascii.ascii) : bool := alnum c || Ascii.eqb c "_"%char.

Definition idchar (c : Ascii.ascii) : bool :=
  alnum c || Ascii.eqb c "_"%char || Ascii.eqb c "-"%char.

Definition userchar (c : Ascii.ascii) : bool :=
  word c || Ascii.eqb c "."%char || Ascii.eqb c "-"%char.

Definition dot (c : Ascii.ascii) : bool :=
  negb (Ascii.eqb c "010"%char) && negb (Ascii.eqb c "013"%char).

(** The parts the patterns share: the optional scheme [https?://], the
    optional [www.], and the optional query, a [?] and any characters. *)
Definition scheme : t := Opt (seq [Lit "http"; Opt (Lit "s"); Lit "://"]).
Definition www : t := Opt (Lit "www.").
Definition query : t := Opt (seq [Lit "?"; Star dot]).

Definition YOUTUBE_PATTERNS : list t :=
  [ seq [scheme; www; Lit "youtube.com/watch?"; Opt (seq [Star dot; Lit "&"]);
         Lit "v="; Group (Repeat 11 idchar); Opt (seq [Lit "&"; Star dot])];
    seq [scheme; www; Lit "youtu.be/"; Group (Repeat 11 idchar); query];
    seq [scheme; www; Lit "youtube.com/embed/"; Group (Repeat 11 idchar); query];
    seq [scheme; www; Lit "youtube.com/shorts/"; Group (Repeat 11 idchar); query] ].

Definition TIKTOK_PATTERNS : list t :=
  [ seq [scheme; www; Lit "tiktok.com/@"; Plus userchar; Lit "/video/";
         Group (Plus digit); query];
    seq [scheme; Opt (Lit "vm."); Lit "tiktok.com/"; Group (Plus alnum);
         Opt (Lit "/"); query];
    seq [scheme; Lit "m.tiktok.com/v/"; Group (Plus digit); query] ].

(** [String.prototype.trim]: white space and line terminators, among the
    code units below 256. *)
Definition whitespace (c : Ascii.ascii) : bool :=
  match Ascii.nat_of_ascii c with
  | 9 | 10 | 11 | 12 | 13 | 32 | 160 => true
  | _ => false
  end%nat.

Fixpoint trimStart (s : list Ascii.ascii) : list Ascii.ascii :=
  match s with
  | c :: s' => if whitespace c then trimStart s' else s
  | [] => []
  end.

Definition trim (s : string) : string :=
  String.string_of_list_ascii
    (rev (trimStart (rev (trimStart (String.list_ascii_of_string s))))).

(** [!url]: the empty string is falsy. *)
Definition falsy (s : string) : bool := String.eqb s "".

(** [validateYouTubeURL(url)] and [validateTikTokURL(url)]. *)
Definition validateYouTubeURL (url : string) : bool :=
  if falsy url then false
  else
    let trimmedUrl := trim url in
    existsb (fun pattern => test pattern trimmedUrl) YOUTUBE_PATTERNS.

Definition validateTikTokURL (url : string) : bool :=
  if falsy url then false
  else
    let trimmedUrl := trim url in
    existsb (fun pattern => test pattern trimmedUrl) TIKTOK_PATTERNS.

(** One of the two loops of [extractVideoId]: the group 1 of the first
    pattern that matches with a group 1 that is not empty. *)
Fixpoint first_capture (patterns : list t) (trimmedUrl : string) : option string :=
  match patterns with
  | [] => None
  | pattern :: rest =>
      match exec pattern trimmedUrl with
      | Some (Some (c :: id)) => Some (String.string_of_list_ascii (c :: id))
      | _ => first_capture rest trimmedUrl
      end
  end.

(** [extractVideoId(url)]; [None] is [null]. *)
Definition extractVideoId (url : string) : option string :=
  if falsy url then None
  else
    let trimmedUrl := trim url in
    match first_capture YOUTUBE_PATTERNS trimmedUrl with
    | Some id => Some id
    | None => first_capture TIKTOK_PATTERNS trimmedUrl
    end.

(** The test [if (videoId)] of a [string | null]. *)
Definition truthy_id (videoId : option string) : option string :=
  match videoId with
  | Some id => if falsy id then None else Some id
  | None => None
  end.

(** [parseURL(url)]; [None] is [null]. *)
Definition parseURL (url : string) : option ParsedURL :=
  if falsy url then None
  else
    let trimmedUrl := trim url in
    let tiktok_branch :=
      if validateTikTokURL trimmedUrl then
        match truthy_id (extractVideoId trimmedUrl) with
        | Some videoId => Some (Build_ParsedURL tiktok videoId trimmedUrl)
        | None => None
        end
      else None in
    if validateYouTubeURL trimmedUrl then
      match truthy_id (extractVideoId trimmedUrl) with
      | Some videoId => Some (Build_ParsedURL youtube videoId trimmedUrl)
      | None => tiktok_branch
      end
    else tiktok_branch.

(** A string all of whose characters are of a class. *)
Definition all_of (class : Ascii.ascii -> bool) (s : string) : bool :=
  forallb class (String.list_ascii_of_string s).

End UrlParser.

(** The address [url] parses to the video [id] of [platform]: what
    [parseURL] and [extractVideoId] return for it and what the two
    validators say. *)
Definition parses_to (platform : Platform) (url id : string) : Prop :=
  UrlParser.parseURL url = Some (UrlParser.Build_ParsedURL platform id url) /\
  UrlParser.extractVideoId url = Some id /\
  UrlParser.validateYouTubeURL url
  = match platform with youtube => true | tiktok => false end /\
  UrlParser.validateTikTokURL url
  = match platform with youtube => false | tiktok => true end.

(** ** The video extractor ([src/lib/video-extractor.ts]) *)

Module VideoExtractor.

(** Bitrate of each quality, in kbps, and the audio bitrate of MP3. *)
Definition VIDEO_BITRATES (quality : VideoQuality) : Q :=
  match quality with
  | q360p => 1000
  | q480p => 2500
  | q720p => 5000
  | q1080p => 8000
  | q4k => 20000
  end.

Definition AUDIO_BITRATE : Q := 128.

(** [estimateFileSize(bitrate, duration)]. *)
Definition estimateFileSize (bitrate duration : Q) : Q :=
  Math_round (bitrate * duration * 125).

Definition quality_eqb (a b : VideoQuality) : bool :=
  match a, b with
  | q360p, q360p | q480p, q480p | q720p, q720p | q1080p, q1080p | q4k, q4k => true
  | _, _ => false
  end.

(** [availableQualities.includes(quality)]. *)
Definition includes (availableQualities : list VideoQuality) (quality : VideoQuality)
    : bool :=
  existsb (quality_eqb quality) availableQualities.

(** [getRecommendedQuality(availableQualities, originalQuality)];
    [originalQuality = None] is an omitted argument. *)
Definition getRecommendedQuality (availableQualities : list VideoQuality)
    (originalQuality : option VideoQuality) : VideoQuality :=
  let qualityOrder := [q4k; q1080p; q720p; q480p; q360p] in
  let highest :=
    match List.find (includes availableQualities) qualityOrder with
    | Some quality => quality
    | None => q720p
    end in
  match originalQuality with
  | Some original => if includes availableQualities original then original else highest
  | None => highest
  end.

(** [getAvailableQualities(duration, availableQualities, originalQuality)]. *)
Definition getAvailableQualities (duration : Q) (availableQualities : list VideoQuality)
    (originalQuality : option VideoQuality) : list QualityOption.t :=
  let allQualities := [q360p; q480p; q720p; q1080p; q4k] in
  let recommendedQuality := getRecommendedQuality availableQualities originalQuality in
  let options :=
    map (fun quality =>
           let isAvailable := includes availableQualities quality in
           let bitrate := VIDEO_BITRATES quality in
           QualityOption.mk quality mp4
             (if isAvailable then estimateFileSize bitrate duration else 0)
             (Some bitrate) isAvailable
             (isAvailable && quality_eqb quality recommendedQuality))
        allQualities in
  if (0 <? length availableQualities)%nat then
    options ++ [QualityOption.mk q360p mp3 (estimateFileSize AUDIO_BITRATE duration)
                  (Some AUDIO_BITRATE) true false]
  else options.

Record VideoMetadata := {
  title : string;
  description : string;
  thumbnail : string;
  duration : Z;
  availableQualities : list VideoQuality;
  originalQuality : option VideoQuality;   (* [undefined] for an empty list *)
  author : option string                    (* TikTok only *)
}.

(** [videoId.split('').reduce((acc, char) => acc + char.charCodeAt(0), 0)],
    for an id of one-byte characters (the ids the URL patterns admit). *)
Definition char_code_sum (videoId : string) : Z :=
  fold_left (fun acc char => (acc + Z.of_nat (Ascii.nat_of_ascii char))%Z)
            (String.list_ascii_of_string videoId) 0%Z.

(** A non-negative integer in a template literal: its decimal digits. *)
Fixpoint decimal_digits (fuel : nat) (n : Z) (acc : string) : string :=
  match fuel with
  | O => acc
  | S fuel' =>
      let acc' := String (Ascii.ascii_of_nat (48 + Z.to_nat (n mod 10))) acc in
      if (n / 10 =? 0)%Z then acc' else decimal_digits fuel' (n / 10) acc'
  end.

Definition number_to_string (n : Z) : string :=
  decimal_digits (S (Z.to_nat (Z.log2 n))) n "".

Definition ensure_360p (qualities : list VideoQuality) : list VideoQuality :=
  if includes qualities q360p then qualities else q360p :: qualities.

(** [simulateYouTubeMetadata(videoId)]. *)
Definition simulateYouTubeMetadata (videoId : string) : VideoMetadata :=
  let hash := char_code_sum videoId in
  let allQualities := [q360p; q480p; q720p; q1080p; q4k] in
  let qualityIndex := (hash mod 5)%Z in
  let availableQualities :=
    ensure_360p (firstn (Z.to_nat (qualityIndex + 1)) allQualities) in
  let duration := (60 + hash mod 540)%Z in
  {| title := "YouTube Video " +:+ videoId;
     description := "Description for video " +:+ videoId
                    +:+ ". This is a simulated video description.";
     thumbnail := "https://img.youtube.com/vi/" +:+ videoId +:+ "/maxresdefault.jpg";
     duration := duration;
     availableQualities := availableQualities;
     originalQuality := last availableQualities;
     author := None |}.

(** [simulateTikTokMetadata(videoId)]. *)
Definition simulateTikTokMetadata (videoId : string) : VideoMetadata :=
  let hash := char_code_sum videoId in
  let tiktokQualities := [q360p; q480p; q720p; q1080p] in
  let qualityIndex := Z.min (hash mod 4) 3 in
  let availableQualities :=
    ensure_360p (firstn (Z.to_nat (qualityIndex + 1)) tiktokQualities) in
  let duration := (15 + hash mod 45)%Z in
  {| title := "TikTok Video " +:+ String.substring 0 8 videoId +:+ "...";
     description := "TikTok video description. #trending #viral";
     thumbnail := "https://p16-sign.tiktokcdn.com/obj/" +:+ videoId;
     duration := duration;
     availableQualities := availableQualities;
     originalQuality := last availableQualities;
     author := Some ("@user_" +:+ number_to_string (hash mod 10000)) |}.

Definition video_info_of (parsedUrl : UrlParser.ParsedURL) (metadata : VideoMetadata)
    (p : Platform) : VideoInfo.t :=
  VideoInfo.mk (UrlParser.videoId parsedUrl) (title metadata) (description metadata)
    (thumbnail metadata) (inject_Z (duration metadata)) p
    (getAvailableQualities (inject_Z (duration metadata)) (availableQualities metadata)
       (originalQuality metadata)).

(** [extractYouTubeVideoInfo(parsedUrl)] and [extractTikTokVideoInfo(parsedUrl)]:
    what the promise resolves to, or the error it rejects with. *)
Definition extractYouTubeVideoInfo (parsedUrl : UrlParser.ParsedURL) : result VideoInfo.t :=
  match UrlParser.platform parsedUrl with
  | youtube =>
      Ok (video_info_of parsedUrl (simulateYouTubeMetadata (UrlParser.videoId parsedUrl)) youtube)
  | tiktok => Throw (mkError "Invalid platform: expected YouTube URL")
  end.

Definition extractTikTokVideoInfo (parsedUrl : UrlParser.ParsedURL) : result VideoInfo.t :=
  match UrlParser.platform parsedUrl with
  | tiktok =>
      Ok (video_info_of parsedUrl (simulateTikTokMetadata (UrlParser.videoId parsedUrl)) tiktok)
  | youtube => Throw (mkError "Invalid platform: expected TikTok URL")
  end.

(** [extractVideoInfo(parsedUrl)]; a [Platform] has no third value, so the
    [default] branch of the [switch] is not reached. *)
Definition extractVideoInfo (parsedUrl : UrlParser.ParsedURL) : result VideoInfo.t :=
  match UrlParser.platform parsedUrl with
  | youtube => extractYouTubeVideoInfo parsedUrl
  | tiktok => extractTikTokVideoInfo parsedUrl
  end.

(** The rank of a quality in the order 360p < 480p < 720p < 1080p < 4k. *)
Definition rank (quality : VideoQuality) : nat :=
  match quality with
  | q360p => 0
  | q480p => 1
  | q720p => 2
  | q1080p => 3
  | q4k => 4
  end.

End VideoExtractor.

(** ** The URL form ([src/components/url-input.tsx]) *)

Module URLInput.

(** What a submission of the form ends in: [validateURL] refused the
    input and set the validation error; or [onVideoInfoLoaded] was called
    with the video; or the [catch] block set the error message and called
    [onError] with it. *)
Inductive Outcome :=
| Refused (validationError : string)
| Loaded (videoInfo : VideoInfo.t)
| Failed (errorMessage : string).

(** [validateURL(inputUrl)]: the validation error it sets, [None] when it
    returns [true]. *)
Definition validateURL (platform : Platform) (inputUrl : string) : option string :=
  if UrlParser.falsy (UrlParser.trim inputUrl) then Some "กรุณาใส่ URL"
  else
    match platform with
    | youtube =>
        if negb (UrlParser.validateYouTubeURL inputUrl)
        then Some "กรุณาใส่ URL YouTube ที่ถูกต้อง"
        else None
    | tiktok =>
        if negb (UrlParser.validateTikTokURL inputUrl)
        then Some "กรุณาใส่ URL TikTok ที่ถูกต้อง"
        else None
    end.

(** [handleSubmit], for the [platform] of the form and the [url] typed. *)
Definition handleSubmit (platform : Platform) (url : string) : Outcome :=
  match validateURL platform url with
  | Some validationError => Refused validationError
  | None =>
      match UrlParser.parseURL url with
      | None => Failed "ไม่สามารถแยกวิเคราะห์ URL ได้"
      | Some parsedUrl =>
          match VideoExtractor.extractVideoInfo parsedUrl with
          | Ok videoInfo => Loaded videoInfo
          | Throw err => Failed (message_of err)
          end
      end
  end.

End URLInput.

(** The two kinds of option [getAvailableQualities] builds. *)
Definition mp4_option (duration : Q) (availableQualities : list VideoQuality)
    (recommendedQuality quality : VideoQuality) : QualityOption.t :=
  let isAvailable := VideoExtractor.includes availableQualities quality in
  QualityOption.mk quality mp4
    (if isAvailable
     then VideoExtractor.estimateFileSize (VideoExtractor.VIDEO_BITRATES quality) duration
     else 0)
    (Some (VideoExtractor.VIDEO_BITRATES quality)) isAvailable
    (isAvailable && VideoExtractor.quality_eqb quality recommendedQuality).

Definition mp3_option (duration : Q) : QualityOption.t :=
  QualityOption.mk q360p mp3
    (VideoExtractor.estimateFileSize VideoExtractor.AUDIO_BITRATE duration)
    (Some VideoExtractor.AUDIO_BITRATE) true false.

(** ** The download history ([src/lib/history-manager.ts]) *)

(** The strings the values of the enumerations are. *)
Definition quality_string (quality : VideoQuality) : string :=
  match quality with
  | q360p => "360p"
  | q480p => "480p"
  | q720p => "720p"
  | q1080p => "1080p"
  | q4k => "4k"
  end.

Definition format_string (format : VideoFormat) : string :=
  match format with mp4 => "mp4" | mp3 => "mp3" end.

Definition platform_string (platform : Platform) : string :=
  match platform with youtube => "youtube" | tiktok => "tiktok" end.

Module HistoryManager.

(** A value as [JSON.parse] returns it.  An object is the list of its
    properties; a key occurs once, and the lookup takes its first
    occurrence. *)
#[warnings="-register-all"]
Inductive JSON :=
| JNull
| JBool (b : bool)
| JNumber (n : Q)
| JString (s : string)
| JArray (items : list JSON)
| JObject (properties : list (string * JSON)).

(** [r[key]]; [None] is [undefined]. *)
Definition property (key : string) (properties : list (string * JSON)) : option JSON :=
  match List.find (fun kv => String.eqb (fst kv) key) properties with
  | Some kv => Some (snd kv)
  | None => None
  end.

(** [Omit<DownloadRecord, 'id' | 'downloadedAt'>]. *)
Record PartialRecord := {
  title : string;
  url : string;
  platform : Platform;
  format : VideoFormat;
  quality : string;
  fileSize : Q
}.

(** An item of [localStorage]: the text of a JSON value, kept as the value
    it denotes ([JSON.parse] of [JSON.stringify] of a value is the value),
    or a text [JSON.parse] rejects (the empty string is one). *)
Inductive Item :=
| Text (value : JSON)
| NotJSON.

(** [window.localStorage]: whether it is there and can be written, and its
    items. *)
Record Storage := mkStorage {
  available : bool;
  items : gmap string Item
}.

Definition set_items (f : gmap string Item -> gmap string Item) (st : Storage) : Storage :=
  mkStorage (available st) (f (items st)).

Definition HISTORY_STORAGE_KEY : string := "media_downloader_history".

(** [generateRecordId()]: [now] is [Date.now()], [salt] the characters
    drawn from [Math.random()]. *)
Definition generateRecordId (now : Z) (salt : string) : string :=
  "rec_" +:+ VideoExtractor.number_to_string now +:+ "_" +:+ salt.

Definition isValidPlatform (value : option JSON) : bool :=
  match value with
  | Some (JString s) => String.eqb s "youtube" || String.eqb s "tiktok"
  | _ => false
  end.

Definition isValidFormat (value : option JSON) : bool :=
  match value with
  | Some (JString s) => String.eqb s "mp4" || String.eqb s "mp3"
  | _ => false
  end.

(** [typeof v === 'string' && v.length !== 0]. *)
Definition nonempty_string (value : option JSON) : bool :=
  match value with
  | Some (JString s) => negb (String.eqb s "")
  | _ => false
  end.

(** [serializeHistory(records)]. *)
Definition serializeHistory (records : list JSON) : Item := Text (JArray records).

(** [isLocalStorageAvailable()]: the probe writes and removes the item
    [__storage_test__]. *)
Definition isLocalStorageAvailable (st : Storage) : bool * Storage :=
  if available st then (true, set_items (delete "__storage_test__") st)
  else (false, st).

(** [clearHistory()]. *)
Definition clearHistory (st : Storage) : Storage :=
  let (ok, st1) := isLocalStorageAvailable st in
  if negb ok then st1 else set_items (delete HISTORY_STORAGE_KEY) st1.

(** [createRecordFromDownload(videoInfo, quality, originalUrl)]. *)
Definition createRecordFromDownload (videoInfo : VideoInfo.t)
    (quality : QualityOption.t) (originalUrl : string) : PartialRecord :=
  {| title := VideoInfo.title videoInfo;
     url := originalUrl;
     platform := VideoInfo.platform videoInfo;
     format := QualityOption.format quality;
     quality := quality_string (QualityOption.quality quality);
     fileSize := QualityOption.fileSize quality |}.

(** The record [saveDownload] builds: the properties of the argument, then
    [id] and [downloadedAt]. *)
Definition new_record (record : PartialRecord) (id downloadedAt : string) : JSON :=
  JObject [("title", JString (title record));
           ("url", JString (url record));
           ("platform", JString (platform_string (platform record)));
           ("format", JString (format_string (format record)));
           ("quality", JString (quality record));
           ("fileSize", JNumber (fileSize record));
           ("id", JString id);
           ("downloadedAt", JString downloadedAt)].

(** [record.id === id], for a record of the history. *)
Definition has_id (id : string) (record : JSON) : bool :=
  match record with
  | JObject r =>
      match property "id" r with
      | Some (JString s) => String.eqb s id
      | _ => false
      end
  | _ => false
  end.

Section Runtime.

(** [isValidISODate(dateString)], for a string: whether [new Date] reads it
    as a date whose [toISOString()] is the string itself.  The dates of
    the runtime are a parameter. *)
Variable isValidISODate : string -> bool.

(** [validateDownloadRecord(record)].  A number of the model is finite. *)
Definition validateDownloadRecord (record : JSON) : bool :=
  match record with
  | JObject r =>
      nonempty_string (property "id" r)
      && nonempty_string (property "title" r)
      && nonempty_string (property "url" r)
      && nonempty_string (property "quality" r)
      && match property "downloadedAt" r with
         | Some (JString s) => isValidISODate s
         | _ => false
         end
      && isValidPlatform (property "platform" r)
      && isValidFormat (property "format" r)
      && match property "fileSize" r with
         | Some (JNumber n) => negb (ltb n 0)
         | _ => false
         end
  | JArray _ => false      (* an object without the properties *)
  | JNull | JBool _ | JNumber _ | JString _ => false
  end.

(** [parseHistory(jsonString)]. *)
Definition parseHistory (jsonString : Item) : list JSON :=
  match jsonString with
  | Text (JArray parsed) => List.filter validateDownloadRecord parsed
  | Text _ => []
  | NotJSON => []
  end.

(** [getHistory()]. *)
Definition getHistory (st : Storage) : list JSON * Storage :=
  let (ok, st1) := isLocalStorageAvailable st in
  if negb ok then ([], st1)
  else
    match items st1 !! HISTORY_STORAGE_KEY with
    | None => ([], st1)
    | Some stored => (parseHistory stored, st1)
    end.

(** [saveDownload(record)]: [now] and [salt] make the id, [downloadedAt]
    is [new Date().toISOString()]. *)
Definition saveDownload (record : PartialRecord) (now : Z) (salt downloadedAt : string)
    (st : Storage) : JSON * Storage :=
  let newRecord := new_record record (generateRecordId now salt) downloadedAt in
  let (ok, st1) := isLocalStorageAvailable st in
  if negb ok then (newRecord, st1)
  else
    let (history, st2) := getHistory st1 in
    (newRecord,
     set_items (insert HISTORY_STORAGE_KEY (serializeHistory (newRecord :: history))) st2).

(** [deleteRecord(id)]. *)
Definition deleteRecord (id : string) (st : Storage) : bool * Storage :=
  let (ok, st1) := isLocalStorageAvailable st in
  if negb ok then (false, st1)
  else
    let (history, st2) := getHistory st1 in
    let initialLength := length history in
    let filteredHistory := List.filter (fun record => negb (has_id id record)) history in
    if (length filteredHistory =? initialLength)%nat then (false, st2)
    else
      (true, set_items (insert HISTORY_STORAGE_KEY (serializeHistory filteredHistory)) st2).

(** [getRecordById(id)]; [None] is [undefined]. *)
Definition getRecordById (id : string) (st : Storage) : option JSON * Storage :=
  let (history, st1) := getHistory st in
  (List.find (has_id id) history, st1).

End Runtime.

End HistoryManager.

(** ** The progress view ([src/components/download-progress.tsx]) *)

Module DownloadProgressView.

(** One firing of the polling interval of the view of the task [taskId].
    [hasSavedToHistory] is the flag of the view; the result is the flag
    and the storage afterwards.  The task the view holds in its state is
    the object of the registry itself, which the manager changes in place,
    so the update of that state, which keeps the object it has or takes the
    one of the registry, leaves it the same object either way. *)
Definition poll (isValidISODate : string -> bool) (taskId : string) (now : Z)
    (salt downloadedAt : string) (hasSavedToHistory : bool) (st : State)
    (storage : HistoryManager.Storage) : bool * HistoryManager.Storage :=
  match getDownloadTask taskId st with
  | Some updatedTask =>
      if status_eqb (DownloadTask.status updatedTask) completed
         && negb hasSavedToHistory
      then
        let record :=
          HistoryManager.createRecordFromDownload (DownloadTask.videoInfo updatedTask)
            (DownloadTask.quality updatedTask)
            (VideoInfo.id (DownloadTask.videoInfo updatedTask)) in
        (true,
         snd (HistoryManager.saveDownload isValidISODate record now salt downloadedAt
                storage))
      else (hasSavedToHistory, storage)
  | None => (hasSavedToHistory, storage)
  end.

End DownloadProgressView.

(** ** The quality selector ([src/components/quality-selector.tsx]) *)

Module QualitySelector.

Import Stdlib.Strings.Ascii.

(** [value.split("-")]. *)
Fixpoint split_dash (value : string) : list string :=
  match value with
  | EmptyString => [EmptyString]
  | String c rest =>
      if Ascii.eqb c "-"%char then EmptyString :: split_dash rest
      else
        match split_dash rest with
        | part :: parts => String c part :: parts
        | [] => [String c EmptyString]
        end
  end.

(** The items of the select: the value of each and whether it is
    disabled; the MP4 options in their order, then the first MP3 option. *)
Definition select_items (qualities : list QualityOption.t) : list (string * bool) :=
  map (fun option =>
         ("mp4-" +:+ quality_string (QualityOption.quality option),
          negb (QualityOption.available option)))
      (List.filter (fun q => negb (is_mp3 q)) qualities)
  ++ match List.find is_mp3 qualities with
     | Some mp3Option =>
         [("mp3-" +:+ quality_string (QualityOption.quality mp3Option),
           negb (QualityOption.available mp3Option))]
     | None => []
     end.

(** [handleQualityChange(value)]: the option handed to [onQualitySelect],
    [None] when it is not called. *)
Definition handleQualityChange (qualities : list QualityOption.t) (value : string)
    : option QualityOption.t :=
  let parts := split_dash value in
  let format := nth_error parts 0 in
  let quality := nth_error parts 1 in
  List.find
    (fun q =>
       match format, quality with
       | Some format, Some quality =>
           String.eqb (format_string (QualityOption.format q)) format
           && String.eqb (quality_string (QualityOption.quality q)) quality
       | _, _ => false
       end)
    qualities.

(** [handleDownload()], for the selected quality: the task handed to
    [onDownloadStart], [None] when it is not called (nothing is selected,
    or [startDownload] threw and the error was logged). *)
Definition handleDownload (taskId : string) (now : Z) (rnd : Q)
    (videoInfo : VideoInfo.t) (selectedQuality : option QualityOption.t) (st : State)
    : option DownloadTask.t * State :=
  match selectedQuality with
  | None => (None, st)
  | Some quality =>
      match startDownload taskId now rnd videoInfo quality st with
      | (Ok task, st') => (Some task, st')
      | (Throw _, st') => (None, st')
      end
  end.

End QualitySelector.

(** * Part II: properties *)

(** ** Numbers *)

Lemma leb_true x y : leb x y = true <-> x <= y.
Proof. apply Qle_bool_iff. Qed.

Lemma leb_false x y : leb x y = false <-> y < x.
Proof.
  unfold leb. split; intros H.
  - apply Qnot_le_lt. intros Hle. apply Qle_bool_iff in Hle. congruence.
  - destruct (Qle_bool x y) eqn:E; [|reflexivity].
    apply Qle_bool_iff in E. lra.
Qed.

Lemma ltb_true x y : ltb x y = true <-> x < y.
Proof. unfold ltb. rewrite Bool.negb_true_iff. apply (leb_false y x). Qed.

Lemma Math_round_mono x y : x <= y -> Math_round x <= Math_round y.
Proof.
  intros H. unfold Math_round. rewrite <- Zle_Qle.
  apply Qfloor_resp_le. lra.
Qed.

(** Case analysis of a [Math_min] or [Math_max], in the form [lra] uses. *)
Lemma Math_min_cases x y :
  (x <= y /\ Math_min x y == x) \/ (y <= x /\ Math_min x y == y).
Proof.
  unfold Math_min. destruct (Q.min_spec x y) as [[H E]|[H E]]; [left|right]; split;
    auto; lra.
Qed.

Lemma Math_max_cases x y :
  (x <= y /\ Math_max x y == y) \/ (y <= x /\ Math_max x y == x).
Proof.
  unfold Math_max. destruct (Q.max_spec x y) as [[H E]|[H E]]; [left|right]; split;
    auto; lra.
Qed.

Ltac minmax_at a b cases f :=
  let H := fresh in
  let m := fresh "m" in
  pose proof (cases a b) as H; set (m := f a b) in *; clearbody m;
  destruct H as [[? ?]|[? ?]].

Ltac minmax :=
  repeat match goal with
  | |- context [Math_min ?a ?b] => minmax_at a b Math_min_cases Math_min
  | |- context [Math_max ?a ?b] => minmax_at a b Math_max_cases Math_max
  | _ : context [Math_min ?a ?b] |- _ => minmax_at a b Math_min_cases Math_min
  | _ : context [Math_max ?a ?b] |- _ => minmax_at a b Math_max_cases Math_max
  end.





(** ** Progress model *)

Lemma calculatePercentage_no_total d t : t <= 0 -> calculatePercentage d t = 0.
Proof.
  intros H. unfold calculatePercentage.
  destruct (leb t 0) eqn:E; [reflexivity|].
  apply leb_false in E. lra.
Qed.

Lemma calculatePercentage_total d t :
  0 < t ->
  calculatePercentage d t
  = Math_min 100 (Math_max 0 (Math_round (d / t * 100 * 100) / 100)).
Proof.
  intros H. unfold calculatePercentage.
  destruct (leb t 0) eqn:E; [|reflexivity].
  apply leb_true in E. lra.
Qed.

Lemma calculatePercentage_range d t :
  0 <= calculatePercentage d t /\ calculatePercentage d t <= 100.
Proof.
  unfold calculatePercentage. destruct (leb t 0); [lra|].
  cbv zeta. minmax; lra.
Qed.

Lemma Qdiv_le_compat_r a b t : 0 < t -> a <= b -> a / t <= b / t.
Proof.
  intros Ht Hab. unfold Qdiv. apply Qmult_le_compat_r; [exact Hab|].
  apply Qlt_le_weak, Qinv_lt_0_compat, Ht.
Qed.






(** One third of the way is 33.33 percent; a tie rounds up (0.005 percent
    is shown as 0.01); the result is clamped at both ends. *)
Example calculatePercentage_third : calculatePercentage 1 3 == 3333 # 100.
Proof. reflexivity. Qed.

Example calculatePercentage_tie : calculatePercentage 1 20000 == 1 # 100.
Proof. reflexivity. Qed.

Example calculatePercentage_over : calculatePercentage 7 3 == 100.
Proof. reflexivity. Qed.

Example calculatePercentage_negative : calculatePercentage (-7) 3 == 0.
Proof. reflexivity. Qed.




Lemma calculateETA_nonneg r s : 0 <= calculateETA r s.
Proof.
  unfold calculateETA.
  destruct (leb s 0) eqn:Es; [simpl; lra|].
  destruct (leb r 0) eqn:Er; [simpl; lra|]. simpl.
  apply leb_false in Es, Er. unfold Math_ceil.
  apply Qle_trans with (r / s); [|apply Qle_ceiling].
  apply Qlt_le_weak, Qlt_shift_div_l; lra.
Qed.



Example calculateETA_rounds_up : calculateETA 10 4 == 3.
Proof. reflexivity. Qed.

(** ** Task registry: failures *)

Lemma status_eqb_eq a b : status_eqb a b = true <-> a = b.
Proof. destruct a, b; simpl; split; (reflexivity || discriminate). Qed.

Lemma status_eqb_neq a b : status_eqb a b = false <-> a <> b.
Proof. destruct a, b; simpl; split; (reflexivity || discriminate || congruence). Qed.

Ltac unfold_M := unfold bind, ret, throw, get_state, modify in *.

Lemma pauseDownload_not_found st taskId now :
  activeDownloads st !! taskId = None ->
  pauseDownload taskId now st = (Throw (NotFound taskId), st).
Proof. intros H. unfold pauseDownload. unfold_M. now rewrite H. Qed.

Lemma pauseDownload_invalid st taskId now task :
  activeDownloads st !! taskId = Some task ->
  DownloadTask.status task <> downloading ->
  pauseDownload taskId now st = (Throw (CannotPause (DownloadTask.status task)), st).
Proof.
  intros H Hs. unfold pauseDownload. unfold_M. rewrite H.
  apply status_eqb_neq in Hs. now rewrite Hs.
Qed.

Lemma resumeDownload_not_found st taskId rnd :
  activeDownloads st !! taskId = None ->
  resumeDownload taskId rnd st = (Throw (NotFound taskId), st).
Proof. intros H. unfold resumeDownload. unfold_M. now rewrite H. Qed.

Lemma resumeDownload_invalid st taskId rnd task :
  activeDownloads st !! taskId = Some task ->
  DownloadTask.status task <> paused ->
  resumeDownload taskId rnd st = (Throw (CannotResume (DownloadTask.status task)), st).
Proof.
  intros H Hs. unfold resumeDownload. unfold_M. rewrite H.
  apply status_eqb_neq in Hs. now rewrite Hs.
Qed.

(** C2.  [pauseDownload] throws the not-found error for an unknown id and
    the cannot-pause error whenever the status is not [downloading] (so for
    every completed task); [resumeDownload] throws whenever the status is
    not [paused] (and for an unknown id); each time the state, and with it
    the stored task, is what it was. *)
Theorem pause_resume_failures (st : State) (taskId : string) (now : Z) (rnd : Q) :
  (activeDownloads st !! taskId = None ->
     pauseDownload taskId now st = (Throw (NotFound taskId), st) /\
     resumeDownload taskId rnd st = (Throw (NotFound taskId), st)) /\
  (forall task, activeDownloads st !! taskId = Some task ->
     (DownloadTask.status task <> downloading ->
        pauseDownload taskId now st
        = (Throw (CannotPause (DownloadTask.status task)), st)) /\
     (DownloadTask.status task = completed ->
        pauseDownload taskId now st = (Throw (CannotPause completed), st)) /\
     (DownloadTask.status task <> paused ->
        resumeDownload taskId rnd st
        = (Throw (CannotResume (DownloadTask.status task)), st))).
Proof.
  split.
  - intros H. split.
    + now apply pauseDownload_not_found.
    + now apply resumeDownload_not_found.
  - intros task H. split; [|split].
    + now apply pauseDownload_invalid.
    + intros Hc. rewrite <- Hc. apply pauseDownload_invalid; [exact H|].
      rewrite Hc. discriminate.
    + now apply resumeDownload_invalid.
Qed.

Lemma pause_resume_failures_witness :
  pauseDownload "dl_9" 5 Sample.st_completed = (Throw (NotFound "dl_9"), Sample.st_completed) /\
  pauseDownload "dl_1" 5 Sample.st_completed
  = (Throw (CannotPause completed), Sample.st_completed) /\
  resumeDownload "dl_1" 0 Sample.st_completed
  = (Throw (CannotResume completed), Sample.st_completed).
Proof.
  destruct (pause_resume_failures Sample.st_completed "dl_9" 5 0) as [Hnone _].
  destruct (pause_resume_failures Sample.st_completed "dl_1" 5 0) as [_ Hsome].
  split; [apply Hnone; vm_compute; reflexivity|].
  assert (exists task, activeDownloads Sample.st_completed !! "dl_1" = Some task
                       /\ DownloadTask.status task = completed) as (task & Hl & Hs)
    by (eexists; split; vm_compute; reflexivity).
  destruct (Hsome task Hl) as (_ & Hp & Hr). split.
  - apply Hp, Hs.
  - rewrite <- Hs. apply Hr. rewrite Hs. discriminate.
Defined.

(** ** Cancel *)

Lemma cancelDownload_not_found st taskId :
  activeDownloads st !! taskId = None ->
  cancelDownload taskId st = (Throw (NotFound taskId), st).
Proof. intros H. unfold cancelDownload. unfold_M. now rewrite H. Qed.

Lemma stop_interval_activeDownloads taskId st :
  exists st', stop_interval taskId st = (Ok tt, st')
              /\ activeDownloads st' = activeDownloads st.
Proof.
  unfold stop_interval. unfold_M.
  destruct (downloadIntervals st !! taskId); eexists; split; reflexivity.
Qed.

Lemma cancelDownload_found st taskId task :
  activeDownloads st !! taskId = Some task ->
  exists st', cancelDownload taskId st = (Ok tt, st')
              /\ activeDownloads st' = delete taskId (activeDownloads st).
Proof.
  intros H. unfold cancelDownload. unfold_M. rewrite H.
  destruct (stop_interval_activeDownloads taskId st) as (st1 & -> & Ha).
  eexists. split; [reflexivity|]. simpl. now rewrite Ha.
Qed.

(** C4, as the code has it.  [cancelDownload] of an id that the registry
    does not hold throws the not-found error and changes nothing; so after
    a cancel that succeeded the id is gone, and a second cancel of it
    throws. *)
Theorem cancelDownload_absent_throws (st : State) (taskId : string) :
  (activeDownloads st !! taskId = None ->
     cancelDownload taskId st = (Throw (NotFound taskId), st)) /\
  (forall task, activeDownloads st !! taskId = Some task ->
     exists st', cancelDownload taskId st = (Ok tt, st') /\
                 activeDownloads st' !! taskId = None /\
                 cancelDownload taskId st' = (Throw (NotFound taskId), st')).
Proof.
  split.
  - apply cancelDownload_not_found.
  - intros task H.
    destruct (cancelDownload_found st taskId task H) as (st' & Hc & Ha).
    assert (Hgone : activeDownloads st' !! taskId = None)
      by (rewrite Ha; apply lookup_delete_eq).
    exists st'. split; [exact Hc|]. split; [exact Hgone|].
    now apply cancelDownload_not_found.
Qed.

Lemma cancelDownload_absent_throws_witness :
  cancelDownload "dl_9" Sample.st_completed
  = (Throw (NotFound "dl_9"), Sample.st_completed) /\
  exists st', cancelDownload "dl_1" Sample.st_completed = (Ok tt, st') /\
              activeDownloads st' !! "dl_1" = None /\
              cancelDownload "dl_1" st' = (Throw (NotFound "dl_1"), st').
Proof.
  split.
  - apply (proj1 (cancelDownload_absent_throws Sample.st_completed "dl_9")).
    vm_compute; reflexivity.
  - assert (exists task, activeDownloads Sample.st_completed !! "dl_1" = Some task)
      as (task & Hl) by (eexists; vm_compute; reflexivity).
    exact (proj2 (cancelDownload_absent_throws Sample.st_completed "dl_1") task Hl).
Defined.

(** C4, as specified, fails: cancelling an id the empty registry
    does not hold is not a silent no-op, it throws. *)
Lemma cancelDownload_absent_is_an_error :
  activeDownloads initial_state !! "dl_1" = None /\
  cancelDownload "dl_1" initial_state
  = (Throw (mkError "Download task not found: dl_1"), initial_state).
Proof. split; reflexivity. Qed.

(** ** Start *)

Lemma simulateDownloadProgress_activeDownloads taskId rnd st :
  exists st', simulateDownloadProgress taskId rnd st = (Ok tt, st')
              /\ activeDownloads st' = activeDownloads st.
Proof.
  unfold simulateDownloadProgress. unfold_M.
  destruct (activeDownloads st !! taskId); eexists; split; reflexivity.
Qed.

Lemma startDownload_unavailable taskId now rnd videoInfo quality st :
  QualityOption.available quality = false ->
  startDownload taskId now rnd videoInfo quality st = (Throw QualityNotAvailable, st).
Proof. intros H. unfold startDownload. rewrite H. reflexivity. Qed.

Lemma startDownload_available taskId now rnd videoInfo quality st :
  QualityOption.available quality = true ->
  let task :=
    DownloadTask.mk taskId videoInfo quality downloading
      (DownloadProgress.mk 0 0 (QualityOption.fileSize quality) 0 0)
      now None None None None in
  exists st',
    startDownload taskId now rnd videoInfo quality st = (Ok task, st') /\
    activeDownloads st' = <[taskId := task]> (activeDownloads st).
Proof.
  intros H task. unfold startDownload. rewrite H. simpl. unfold_M.
  match goal with
  | |- context [simulateDownloadProgress taskId rnd ?s] =>
      destruct (simulateDownloadProgress_activeDownloads taskId rnd s) as (st' & -> & Ha)
  end.
  exists st'. split; [reflexivity|]. rewrite Ha. reflexivity.
Qed.

(** C7.  With [available = true], [startDownload] returns a task that is
    [downloading], with every progress field 0 but [totalBytes], which is
    the file size of the quality option, and the registry holds it under
    its id.  With [available = false], [startDownload] throws before it
    stores anything, and the POST handler, for a body that names a video,
    answers 400 [QUALITY_UNAVAILABLE] without calling it. *)
Theorem startDownload_spec (taskId : string) (now : Z) (rnd : Q)
    (videoInfo : VideoInfo.t) (quality : QualityOption.t) (st : State) :
  (QualityOption.available quality = true ->
     exists task st',
       startDownload taskId now rnd videoInfo quality st = (Ok task, st') /\
       DownloadTask.status task = downloading /\
       DownloadTask.progress task
       = DownloadProgress.mk 0 0 (QualityOption.fileSize quality) 0 0 /\
       activeDownloads st' !! taskId = Some task) /\
  (QualityOption.available quality = false ->
     startDownload taskId now rnd videoInfo quality st = (Throw QualityNotAvailable, st) /\
     (VideoInfo.id videoInfo <> "" ->
      forall audioMetadata,
        exists message,
          DownloadRoute.POST taskId now rnd
            (DownloadRoute.Build_DownloadRequest (Some videoInfo) (Some quality) audioMetadata)
            st
          = (DownloadRoute.DownloadErrorResponse message DownloadRoute.QUALITY_UNAVAILABLE 400,
             st))).
Proof.
  split.
  - intros H.
    destruct (startDownload_available taskId now rnd videoInfo quality st H)
      as (st' & Hs & Ha).
    eexists. exists st'. split; [exact Hs|]. split; [reflexivity|].
    split; [reflexivity|]. rewrite Ha. apply lookup_insert_eq.
  - intros H. split; [now apply startDownload_unavailable|].
    intros Hid audioMetadata. unfold DownloadRoute.POST. simpl.
    destruct (String.eqb (VideoInfo.id videoInfo) "") eqn:E.
    + apply String.eqb_eq in E. contradiction.
    + rewrite H. simpl. eexists. reflexivity.
Qed.

Lemma startDownload_spec_witness :
  (exists task st',
     startDownload "dl_1" 0 0 Sample.video Sample.quality720 initial_state = (Ok task, st') /\
     DownloadTask.status task = downloading /\
     DownloadTask.progress task = DownloadProgress.mk 0 0 1000 0 0 /\
     activeDownloads st' !! "dl_1" = Some task) /\
  startDownload "dl_1" 0 0 Sample.video Sample.quality4k initial_state
  = (Throw QualityNotAvailable, initial_state) /\
  exists message,
    DownloadRoute.POST "dl_1" 0 0
      (DownloadRoute.Build_DownloadRequest (Some Sample.video) (Some Sample.quality4k) None)
      initial_state
    = (DownloadRoute.DownloadErrorResponse message DownloadRoute.QUALITY_UNAVAILABLE 400,
       initial_state).
Proof.
  split.
  - exact (proj1 (startDownload_spec "dl_1" 0 0 Sample.video Sample.quality720 initial_state)
             eq_refl).
  - destruct (proj2 (startDownload_spec "dl_1" 0 0 Sample.video Sample.quality4k initial_state)
                eq_refl) as [Ht Hp].
    split; [exact Ht|]. apply Hp. discriminate.
Defined.

(** ** The audio bitrate floor *)

Lemma truthy_true b : truthy b = true <-> ~ b == 0.
Proof.
  unfold truthy. rewrite Bool.negb_true_iff. split.
  - intros H E. apply Qeq_bool_iff in E. congruence.
  - intros H. destruct (Qeq_bool b 0) eqn:E; [|reflexivity].
    apply Qeq_bool_iff in E. contradiction.
Qed.

Lemma startMP3Download_low_bitrate taskId now rnd videoInfo metadata st q b :
  List.find is_mp3 (VideoInfo.qualities videoInfo) = Some q ->
  QualityOption.available q = true ->
  QualityOption.bitrate q = Some b ->
  ~ b == 0 -> b < MIN_AUDIO_BITRATE ->
  startMP3Download taskId now rnd videoInfo metadata st = (Throw BitrateTooLow, st).
Proof.
  intros Hf Ha Hb Hnz Hlow. unfold startMP3Download.
  rewrite Hf, Ha, Hb. simpl.
  apply truthy_true in Hnz. apply ltb_true in Hlow. rewrite Hnz, Hlow. reflexivity.
Qed.

Lemma extractAudio_bitrate videoInfo target metadata :
  AudioExtractionResult.success (extractAudio videoInfo target metadata) = true ->
  AudioExtractionResult.bitrate (extractAudio videoInfo target metadata)
  = Math_max (default MIN_AUDIO_BITRATE target) MIN_AUDIO_BITRATE.
Proof.
  unfold extractAudio.
  destruct (String.eqb (VideoInfo.id videoInfo) ""); [discriminate|].
  destruct (find _ _) as [q|]; [|discriminate].
  destruct (QualityOption.available q); [reflexivity|discriminate].
Qed.

Lemma extractAudio_succeeds videoInfo target metadata q :
  VideoInfo.id videoInfo <> "" ->
  List.find is_mp3 (VideoInfo.qualities videoInfo) = Some q ->
  QualityOption.available q = true ->
  AudioExtractionResult.success (extractAudio videoInfo target metadata) = true.
Proof.
  intros Hid Hf Ha. unfold extractAudio.
  destruct (String.eqb (VideoInfo.id videoInfo) "") eqn:E;
    [apply String.eqb_eq in E; contradiction|].
  rewrite Hf, Ha. reflexivity.
Qed.

(** C5, as the code has it.  [startMP3Download] throws the bitrate error,
    with the state untouched, when the mp3 option of the video is available
    and carries a bitrate that is not 0 and is below 128; the POST handler
    answers that error as [DOWNLOAD_FAILED] with status 500.  [extractAudio]
    rejects no target bitrate: whenever the video has an id and an
    available mp3 option it succeeds, and the bitrate it reports is the
    larger of the target and 128. *)
Theorem audio_bitrate_floor (taskId : string) (now : Z) (rnd : Q)
    (videoInfo : VideoInfo.t) (metadata : option AudioMetadata.partial) (st : State)
    (q : QualityOption.t) (target : Q) :
  VideoInfo.id videoInfo <> "" ->
  List.find is_mp3 (VideoInfo.qualities videoInfo) = Some q ->
  QualityOption.available q = true ->
  (forall b, QualityOption.bitrate q = Some b -> ~ b == 0 -> b < MIN_AUDIO_BITRATE ->
     startMP3Download taskId now rnd videoInfo metadata st = (Throw BitrateTooLow, st) /\
     forall requested,
       QualityOption.format requested = mp3 ->
       QualityOption.available requested = true ->
       DownloadRoute.POST taskId now rnd
         (DownloadRoute.Build_DownloadRequest (Some videoInfo) (Some requested) metadata) st
       = (DownloadRoute.DownloadErrorResponse "Audio bitrate must be at least 128kbps"
            DownloadRoute.DOWNLOAD_FAILED 500, st)) /\
  (AudioExtractionResult.success (extractAudio videoInfo (Some target) metadata) = true /\
   AudioExtractionResult.bitrate (extractAudio videoInfo (Some target) metadata)
   = Math_max target MIN_AUDIO_BITRATE /\
   MIN_AUDIO_BITRATE
   <= AudioExtractionResult.bitrate (extractAudio videoInfo (Some target) metadata)).
Proof.
  intros Hid Hf Ha. split.
  - intros b Hb Hnz Hlow.
    pose proof (startMP3Download_low_bitrate taskId now rnd videoInfo metadata st q b
                  Hf Ha Hb Hnz Hlow) as Hthrow.
    split; [exact Hthrow|].
    intros requested Hfmt Havail. unfold DownloadRoute.POST. simpl.
    destruct (String.eqb (VideoInfo.id videoInfo) "") eqn:E;
      [apply String.eqb_eq in E; contradiction|].
    rewrite Havail, Hfmt. simpl. rewrite Hthrow. reflexivity.
  - pose proof (extractAudio_succeeds videoInfo (Some target) metadata q Hid Hf Ha) as Hs.
    split; [exact Hs|].
    rewrite (extractAudio_bitrate _ _ _ Hs). simpl. split; [reflexivity|].
    minmax; lra.
Qed.

Lemma audio_bitrate_floor_witness :
  (startMP3Download "dl_1" 0 0 Sample.videoLow None initial_state
   = (Throw BitrateTooLow, initial_state) /\
   DownloadRoute.POST "dl_1" 0 0
     (DownloadRoute.Build_DownloadRequest (Some Sample.videoLow) (Some Sample.qualityMp3Low)
        None) initial_state
   = (DownloadRoute.DownloadErrorResponse "Audio bitrate must be at least 128kbps"
        DownloadRoute.DOWNLOAD_FAILED 500, initial_state)) /\
  AudioExtractionResult.success (extractAudio Sample.videoLow (Some 96) None) = true /\
  AudioExtractionResult.bitrate (extractAudio Sample.videoLow (Some 96) None)
  = Math_max 96 MIN_AUDIO_BITRATE.
Proof.
  assert (Hid : VideoInfo.id Sample.videoLow <> "") by discriminate.
  destruct (audio_bitrate_floor "dl_1" 0 0 Sample.videoLow None initial_state
              Sample.qualityMp3Low 96 Hid eq_refl eq_refl) as [Hstart (Hs & Hb & _)].
  split; [|split; [exact Hs | exact Hb]].
  destruct (Hstart 96 eq_refl) as [Ht Hp].
  - intros E. discriminate E.
  - reflexivity.
  - split; [exact Ht|]. apply Hp; reflexivity.
Defined.

(** C5, as specified, fails for [extractAudio]: a target of 96 kbps
    is not rejected, the extraction succeeds at 128 kbps. *)
Lemma extractAudio_low_target_is_accepted :
  AudioExtractionResult.success (extractAudio Sample.video (Some 96) None) = true /\
  AudioExtractionResult.error (extractAudio Sample.video (Some 96) None) = None /\
  AudioExtractionResult.bitrate (extractAudio Sample.video (Some 96) None) = 128.
Proof. repeat split. Qed.

(** ** One firing of an interval *)

Lemma interval_callback_idle h rnd now st :
  timers st !! h = None -> interval_callback h rnd now st = st.
Proof. intros H. unfold interval_callback. now rewrite H. Qed.

Lemma interval_callback_gone h rnd now st c :
  timers st !! h = Some c ->
  activeDownloads st !! closure_taskId c = None ->
  interval_callback h rnd now st = stop_timer h (closure_taskId c) st.
Proof. intros H Hl. unfold interval_callback. now rewrite H, Hl. Qed.

Lemma interval_callback_inactive h rnd now st c task :
  timers st !! h = Some c ->
  activeDownloads st !! closure_taskId c = Some task ->
  DownloadTask.status task <> downloading ->
  interval_callback h rnd now st = stop_timer h (closure_taskId c) st.
Proof.
  intros H Hl Hs. unfold interval_callback. rewrite H, Hl.
  apply status_eqb_neq in Hs. now rewrite Hs.
Qed.

Lemma interval_callback_active h rnd now st c task :
  timers st !! h = Some c ->
  activeDownloads st !! closure_taskId c = Some task ->
  DownloadTask.status task = downloading ->
  interval_callback h rnd now st
  = let st' :=
      set_activeDownloads (insert (closure_taskId c) (tick_task c rnd now task)) st in
    if leb 100 (DownloadProgress.percentage (tick_progress c rnd task))
    then stop_timer h (closure_taskId c) st'
    else st'.
Proof.
  intros H Hl Hs. unfold interval_callback. rewrite H, Hl, Hs. simpl.
  unfold tick_task. fold (tick_progress c rnd task).
  destruct (leb 100 _); reflexivity.
Qed.

(** The registry after a firing: untouched, or the task of the interval,
    which was [downloading], replaced by [tick_task]. *)
Lemma interval_callback_registry h rnd now st :
  activeDownloads (interval_callback h rnd now st) = activeDownloads st \/
  exists c task,
    timers st !! h = Some c /\
    activeDownloads st !! closure_taskId c = Some task /\
    DownloadTask.status task = downloading /\
    activeDownloads (interval_callback h rnd now st)
    = <[closure_taskId c := tick_task c rnd now task]> (activeDownloads st).
Proof.
  destruct (timers st !! h) as [c|] eqn:H;
    [|left; now rewrite interval_callback_idle].
  destruct (activeDownloads st !! closure_taskId c) as [task|] eqn:Hl;
    [|left; now rewrite (interval_callback_gone _ _ _ _ c)].
  destruct (status_eqb (DownloadTask.status task) downloading) eqn:Hs.
  - apply status_eqb_eq in Hs. right. exists c, task. repeat split; auto.
    rewrite (interval_callback_active _ _ _ _ c task H Hl Hs). cbv zeta.
    destruct (leb 100 _); reflexivity.
  - apply status_eqb_neq in Hs. left.
    now rewrite (interval_callback_inactive _ _ _ _ c task).
Qed.

(** The speed of a firing and the bytes it adds are positive. *)
Lemma tick_speed_positive base rnd :
  500000 <= base -> 0 <= rnd -> 400000 <= base * ((8 # 10) + rnd * (4 # 10)).
Proof.
  intros Hb Hr.
  assert (0 <= base * rnd) by (apply Qmult_le_0_compat; lra).
  assert (E : base * ((8 # 10) + rnd * (4 # 10))
              == base * (8 # 10) + (base * rnd) * (4 # 10)) by ring.
  rewrite E. set (x := base * rnd) in *. clearbody x. lra.
Qed.

Lemma calculatePercentage_complete d t :
  0 < t -> t <= d -> 100 <= calculatePercentage d t.
Proof.
  intros Ht Hd. rewrite (calculatePercentage_total d t Ht).
  assert (Hq : 1 <= d / t) by (apply Qle_shift_div_l; lra).
  assert (Hr : Math_round 10000 <= Math_round (d / t * 100 * 100))
    by (apply Math_round_mono; lra).
  apply (Qdiv_le_compat_r _ _ 100) in Hr; [|lra].
  assert (Hc : 100 <= Math_round 10000 / 100) by (compute; discriminate).
  set (r := Math_round (d / t * 100 * 100) / 100) in *.
  set (r0 := Math_round 10000 / 100) in *.
  clearbody r r0. clear Hq. minmax; lra.
Qed.

(** ** The invariants hold in every reachable state *)

Lemma tick_progress_fields c rnd task :
  let p := DownloadTask.progress task in
  let speed := closure_baseSpeed c * ((8 # 10) + rnd * (4 # 10)) in
  let d' := Math_min (DownloadProgress.downloadedBytes p + speed * (1 # 10))
                     (DownloadProgress.totalBytes p) in
  tick_progress c rnd task
  = DownloadProgress.mk (calculatePercentage d' (DownloadProgress.totalBytes p)) d'
      (DownloadProgress.totalBytes p) speed
      (calculateETA (DownloadProgress.totalBytes p - d') speed).
Proof. reflexivity. Qed.

Lemma tick_progress_in_bounds c rnd task :
  progress_in_bounds (tick_progress c rnd task).
Proof.
  rewrite tick_progress_fields. cbv zeta. unfold progress_in_bounds. simpl.
  pose proof (calculatePercentage_range
    (Math_min (DownloadProgress.downloadedBytes (DownloadTask.progress task)
               + closure_baseSpeed c * ((8 # 10) + rnd * (4 # 10)) * (1 # 10))
       (DownloadProgress.totalBytes (DownloadTask.progress task)))
    (DownloadProgress.totalBytes (DownloadTask.progress task))) as [H0 H1].
  split; [exact H0|]. split; [exact H1|].
  intros _. unfold Math_min. apply Q.le_min_r.
Qed.

Lemma tick_task_inv c rnd now task :
  task_inv task -> task_inv (tick_task c rnd now task).
Proof.
  intros [Hb Hu]. unfold tick_task. cbv zeta.
  pose proof (tick_progress_in_bounds c rnd task) as (H0 & H1 & H2).
  pose proof (tick_progress_fields c rnd task) as Ep. cbv zeta in Ep.
  set (p' := tick_progress c rnd task) in *. clearbody p'.
  destruct (leb 100 (DownloadProgress.percentage p')) eqn:E.
  - split.
    + unfold progress_in_bounds. simpl. repeat split; lra.
    + intros [Hs|Hs]; discriminate Hs.
  - apply leb_false in E. split.
    + unfold progress_in_bounds. simpl. auto.
    + intros _. simpl. intros Ht.
      apply Qnot_le_lt. intros Hle.
      rewrite Ep in E, Hle, Ht. simpl in E, Hle, Ht.
      pose proof (calculatePercentage_complete _ _ Ht Hle) as Hc. lra.
Qed.

Lemma state_inv_initial : state_inv initial_state.
Proof. split; apply map_Forall_empty. Qed.

Lemma state_inv_stop_timer h taskId st : state_inv st -> state_inv (stop_timer h taskId st).
Proof. intros [Ha Ht]. split; simpl; [exact Ha | now apply map_Forall_delete]. Qed.

Lemma state_inv_insert taskId task st :
  state_inv st -> task_inv task -> state_inv (set_activeDownloads (insert taskId task) st).
Proof. intros [Ha Ht] Hk. split; simpl; [now apply map_Forall_insert_2 | exact Ht]. Qed.

Lemma state_inv_lookup st taskId task :
  state_inv st -> activeDownloads st !! taskId = Some task -> task_inv task.
Proof. intros [Ha _] H. exact (map_Forall_lookup_1 _ _ _ _ Ha H). Qed.

Lemma simulateDownloadProgress_eq taskId rnd st :
  simulateDownloadProgress taskId rnd st
  = (Ok tt,
     match activeDownloads st !! taskId with
     | None => st
     | Some _ =>
         mkState (activeDownloads st)
                 (<[taskId := next_handle st]> (downloadIntervals st))
                 (<[next_handle st := Build_IntervalClosure taskId (500000 + rnd * 1500000)]>
                    (timers st))
                 (S (next_handle st))
     end).
Proof.
  unfold simulateDownloadProgress. unfold_M.
  destruct (activeDownloads st !! taskId); reflexivity.
Qed.

Lemma state_inv_simulate taskId rnd st :
  0 <= rnd -> state_inv st -> state_inv (snd (simulateDownloadProgress taskId rnd st)).
Proof.
  intros Hr [Ha Ht]. rewrite simulateDownloadProgress_eq. simpl.
  destruct (activeDownloads st !! taskId); [|now split].
  split; simpl; [exact Ha|].
  apply map_Forall_insert_2; [|exact Ht]. unfold timer_inv. simpl. lra.
Qed.

Lemma stop_interval_eq taskId st :
  stop_interval taskId st
  = (Ok tt,
     match downloadIntervals st !! taskId with
     | Some interval => stop_timer interval taskId st
     | None => st
     end).
Proof.
  unfold stop_interval. unfold_M.
  destruct (downloadIntervals st !! taskId); reflexivity.
Qed.

Lemma state_inv_stop_interval taskId st :
  state_inv st -> state_inv (snd (stop_interval taskId st)).
Proof.
  intros H. rewrite stop_interval_eq. simpl.
  destruct (downloadIntervals st !! taskId); [now apply state_inv_stop_timer | exact H].
Qed.

Lemma initial_task_inv taskId videoInfo quality now metadata :
  task_inv (DownloadTask.mk taskId videoInfo quality downloading
              (createInitialProgress (QualityOption.fileSize quality))
              now None None None metadata).
Proof.
  split.
  - unfold progress_in_bounds. simpl. repeat split; lra.
  - simpl. auto.
Qed.

Lemma startDownload_eq taskId now rnd videoInfo quality st :
  startDownload taskId now rnd videoInfo quality st
  = if QualityOption.available quality then
      let task :=
        DownloadTask.mk taskId videoInfo quality downloading
          (createInitialProgress (QualityOption.fileSize quality)) now None None None None in
      (Ok task,
       snd (simulateDownloadProgress taskId rnd
              (set_activeDownloads (insert taskId task) st)))
    else (Throw QualityNotAvailable, st).
Proof.
  unfold startDownload. destruct (QualityOption.available quality); [|reflexivity].
  simpl. unfold_M. rewrite simulateDownloadProgress_eq. reflexivity.
Qed.

Lemma state_inv_startDownload taskId now rnd videoInfo quality st :
  0 <= rnd -> state_inv st ->
  state_inv (snd (startDownload taskId now rnd videoInfo quality st)).
Proof.
  intros Hr H. rewrite startDownload_eq.
  destruct (QualityOption.available quality); [|exact H]. cbv zeta.
  cbn [snd]. apply state_inv_simulate; [exact Hr|].
  apply state_inv_insert; [exact H | apply initial_task_inv].
Qed.

Lemma state_inv_startMP3Download taskId now rnd videoInfo metadata st :
  0 <= rnd -> state_inv st ->
  state_inv (snd (startMP3Download taskId now rnd videoInfo metadata st)).
Proof.
  intros Hr H. unfold startMP3Download.
  destruct (find is_mp3 (VideoInfo.qualities videoInfo)) as [q|]; [|exact H].
  destruct (negb (QualityOption.available q)) eqn:Ea; [exact H|].
  destruct (match QualityOption.bitrate q with
            | Some b => truthy b && ltb b MIN_AUDIO_BITRATE
            | None => false
            end); [exact H|].
  pose proof (state_inv_startDownload taskId now rnd videoInfo q st Hr H) as Hs.
  unfold bind. rewrite startDownload_eq in *.
  apply Bool.negb_false_iff in Ea. rewrite Ea in *. cbv zeta in *. cbn [snd] in Hs.
  destruct metadata as [m|]; unfold_M; simpl; [|exact Hs].
  apply state_inv_insert; [exact Hs|]. apply initial_task_inv.
Qed.

Lemma state_inv_interval_callback h rnd now st :
  state_inv st -> state_inv (interval_callback h rnd now st).
Proof.
  intros H.
  destruct (timers st !! h) as [c|] eqn:Hh;
    [|now rewrite interval_callback_idle].
  destruct (activeDownloads st !! closure_taskId c) as [task|] eqn:Hl;
    [|rewrite (interval_callback_gone _ _ _ _ c); auto using state_inv_stop_timer].
  destruct (status_eqb (DownloadTask.status task) downloading) eqn:Hs.
  - apply status_eqb_eq in Hs.
    rewrite (interval_callback_active _ _ _ _ c task Hh Hl Hs). cbv zeta.
    assert (state_inv (set_activeDownloads
                         (insert (closure_taskId c) (tick_task c rnd now task)) st))
      by (apply state_inv_insert; [exact H|];
          apply tick_task_inv; now apply (state_inv_lookup st (closure_taskId c))).
    destruct (leb 100 _); auto using state_inv_stop_timer.
  - apply status_eqb_neq in Hs.
    rewrite (interval_callback_inactive _ _ _ _ c task); auto using state_inv_stop_timer.
Qed.

Lemma pauseDownload_ok st taskId now task :
  activeDownloads st !! taskId = Some task ->
  DownloadTask.status task = downloading ->
  pauseDownload taskId now st
  = (Ok tt,
     set_activeDownloads (insert taskId (paused_task now task))
       (snd (stop_interval taskId st))).
Proof.
  intros H Hs. unfold pauseDownload. unfold_M. rewrite H, Hs. simpl.
  rewrite stop_interval_eq. reflexivity.
Qed.

Lemma resumeDownload_ok st taskId rnd task :
  activeDownloads st !! taskId = Some task ->
  DownloadTask.status task = paused ->
  resumeDownload taskId rnd st
  = (Ok tt,
     snd (simulateDownloadProgress taskId rnd
            (set_activeDownloads (insert taskId (resumed_task task)) st))).
Proof.
  intros H Hs. unfold resumeDownload. unfold_M. rewrite H, Hs. simpl.
  now rewrite !simulateDownloadProgress_eq.
Qed.

Lemma cancelDownload_ok st taskId task :
  activeDownloads st !! taskId = Some task ->
  cancelDownload taskId st
  = (Ok tt, set_activeDownloads (delete taskId) (snd (stop_interval taskId st))).
Proof.
  intros H. unfold cancelDownload. unfold_M. rewrite H.
  rewrite stop_interval_eq. reflexivity.
Qed.

Lemma state_inv_pauseDownload taskId now st :
  state_inv st -> state_inv (snd (pauseDownload taskId now st)).
Proof.
  intros H.
  destruct (activeDownloads st !! taskId) as [task|] eqn:Hl;
    [|now rewrite pauseDownload_not_found].
  destruct (status_eqb (DownloadTask.status task) downloading) eqn:Hs.
  - apply status_eqb_eq in Hs. rewrite (pauseDownload_ok st taskId now task Hl Hs).
    cbn [snd]. apply state_inv_insert; [now apply state_inv_stop_interval|].
    destruct (state_inv_lookup st taskId task H Hl) as [Hb Hu].
    split; [exact Hb|]. intros _. apply Hu. now left.
  - apply status_eqb_neq in Hs. now rewrite (pauseDownload_invalid st taskId now task).
Qed.

Lemma state_inv_resumeDownload taskId rnd st :
  0 <= rnd -> state_inv st -> state_inv (snd (resumeDownload taskId rnd st)).
Proof.
  intros Hr H.
  destruct (activeDownloads st !! taskId) as [task|] eqn:Hl;
    [|now rewrite resumeDownload_not_found].
  destruct (status_eqb (DownloadTask.status task) paused) eqn:Hs.
  - apply status_eqb_eq in Hs. rewrite (resumeDownload_ok st taskId rnd task Hl Hs).
    cbn [snd]. apply state_inv_simulate; [exact Hr|].
    apply state_inv_insert; [exact H|].
    destruct (state_inv_lookup st taskId task H Hl) as [Hb Hu].
    split; [exact Hb|]. intros _. apply Hu. now right.
  - apply status_eqb_neq in Hs. now rewrite (resumeDownload_invalid st taskId rnd task).
Qed.

Lemma state_inv_cancelDownload taskId st :
  state_inv st -> state_inv (snd (cancelDownload taskId st)).
Proof.
  intros H.
  destruct (activeDownloads st !! taskId) as [task|] eqn:Hl;
    [|now rewrite cancelDownload_not_found].
  rewrite (cancelDownload_ok st taskId task Hl). cbn [snd].
  destruct (state_inv_stop_interval taskId st H) as [Ha Ht].
  split; simpl; [now apply map_Forall_delete | exact Ht].
Qed.

Lemma state_inv_clearCompletedDownloads st :
  state_inv st -> state_inv (snd (clearCompletedDownloads st)).
Proof.
  intros [Ha Ht]. unfold clearCompletedDownloads. unfold_M. split; simpl; [|exact Ht].
  intros taskId task Hf. apply map_lookup_filter_Some_1_1 in Hf.
  exact (map_Forall_lookup_1 _ _ _ _ Ha Hf).
Qed.

Lemma state_inv_run_op o st :
  op_random_ok o -> state_inv st -> state_inv (run_op o st).
Proof.
  destruct o; simpl; intros Hr H.
  - apply state_inv_startDownload; [apply Hr | exact H].
  - apply state_inv_startMP3Download; [apply Hr | exact H].
  - now apply state_inv_interval_callback.
  - now apply state_inv_pauseDownload.
  - apply state_inv_resumeDownload; [apply Hr | exact H].
  - now apply state_inv_cancelDownload.
  - now apply state_inv_clearCompletedDownloads.
Qed.

Lemma reachable_state_inv st : reachable st -> state_inv st.
Proof.
  induction 1 as [|st o _ IH Hr].
  - apply state_inv_initial.
  - now apply state_inv_run_op.
Qed.

Lemma reachable_run_ops ops st :
  reachable st -> Forall op_random_ok ops -> reachable (run_ops ops st).
Proof.
  revert st. induction ops as [|o ops IH]; intros st H Hf; [exact H|].
  inversion Hf; subst. simpl. apply IH; [|assumption].
  now apply reachable_step.
Qed.



(** ** Ticks, pauses and the bytes downloaded *)

Lemma tick_task_advances c rnd now task :
  timer_inv c -> 0 <= rnd -> task_inv task ->
  DownloadTask.status task = downloading ->
  0 < DownloadProgress.totalBytes (DownloadTask.progress task) ->
  DownloadProgress.downloadedBytes (DownloadTask.progress task)
  < DownloadProgress.downloadedBytes (DownloadTask.progress (tick_task c rnd now task)) /\
  DownloadProgress.downloadedBytes (DownloadTask.progress (tick_task c rnd now task))
  <= DownloadProgress.totalBytes (DownloadTask.progress task) /\
  DownloadProgress.totalBytes (DownloadTask.progress (tick_task c rnd now task))
  = DownloadProgress.totalBytes (DownloadTask.progress task).
Proof.
  intros Hc Hr [_ Hu] Hs Ht.
  assert (Hd := Hu (or_introl Hs) Ht).
  pose proof (tick_speed_positive _ _ Hc Hr) as Hsp.
  unfold tick_task. cbv zeta.
  pose proof (tick_progress_fields c rnd task) as Ep. cbv zeta in Ep.
  set (p' := tick_progress c rnd task) in *. clearbody p'.
  set (speed := closure_baseSpeed c * ((8 # 10) + rnd * (4 # 10))) in *. clearbody speed.
  destruct (leb 100 (DownloadProgress.percentage p')); rewrite Ep; simpl.
  - repeat split; lra.
  - split; [|split; [|reflexivity]]; minmax; lra.
Qed.

Lemma interval_callback_paused h rnd now st taskId task :
  activeDownloads st !! taskId = Some task ->
  DownloadTask.status task <> downloading ->
  activeDownloads (interval_callback h rnd now st) !! taskId = Some task.
Proof.
  intros Hl Hs.
  destruct (interval_callback_registry h rnd now st) as [E|(c & t & _ & Hc & Ht & E)];
    rewrite E; [exact Hl|].
  destruct (decide (closure_taskId c = taskId)) as [<-|Hne].
  - congruence.
  - now rewrite lookup_insert_ne.
Qed.

Lemma pauseDownload_effect st taskId now task :
  activeDownloads st !! taskId = Some task ->
  DownloadTask.status task = downloading ->
  exists st',
    pauseDownload taskId now st = (Ok tt, st') /\
    activeDownloads st' !! taskId = Some (paused_task now task) /\
    downloadIntervals st' !! taskId = None /\
    (forall interval, downloadIntervals st !! taskId = Some interval ->
                      timers st' !! interval = None).
Proof.
  intros Hl Hs. eexists. split; [exact (pauseDownload_ok st taskId now task Hl Hs)|].
  rewrite stop_interval_eq. cbn [snd].
  destruct (downloadIntervals st !! taskId) as [i|] eqn:Hi; simpl.
  - split; [apply lookup_insert_eq|]. split; [apply lookup_delete_eq|].
    intros ? [= <-]. apply lookup_delete_eq.
  - split; [apply lookup_insert_eq|]. split; [exact Hi|]. discriminate.
Qed.

(** C8, as the code has it.  In a reachable state, a firing of an interval
    of a task that is [downloading] and has a positive total leaves the task
    with strictly more bytes downloaded, and no more than the total.  A
    firing of any interval leaves a paused task as it is.  [pauseDownload] of
    a [downloading] task clears its interval, so that the timer registered
    for the task is gone and the task has no interval any more, and stores
    the task as paused, with speed 0 and the bytes it had. *)
Theorem simulated_progress (st : State) (interval : nat) (rnd : Q) (now : Z)
    (taskId : string) (task : DownloadTask.t) :
  reachable st ->
  activeDownloads st !! taskId = Some task ->
  (DownloadTask.status task = downloading ->
   0 < DownloadProgress.totalBytes (DownloadTask.progress task) ->
   random_ok rnd ->
   forall c, timers st !! interval = Some c -> closure_taskId c = taskId ->
     exists task',
       activeDownloads (interval_callback interval rnd now st) !! taskId = Some task' /\
       DownloadProgress.downloadedBytes (DownloadTask.progress task)
       < DownloadProgress.downloadedBytes (DownloadTask.progress task') /\
       DownloadProgress.downloadedBytes (DownloadTask.progress task')
       <= DownloadProgress.totalBytes (DownloadTask.progress task)) /\
  (DownloadTask.status task = paused ->
   activeDownloads (interval_callback interval rnd now st) !! taskId = Some task) /\
  (DownloadTask.status task = downloading ->
   exists st' task',
     pauseDownload taskId now st = (Ok tt, st') /\
     activeDownloads st' !! taskId = Some task' /\
     downloadIntervals st' !! taskId = None /\
     (forall interval', downloadIntervals st !! taskId = Some interval' ->
                        timers st' !! interval' = None) /\
     DownloadTask.status task' = paused /\
     DownloadProgress.speed (DownloadTask.progress task') = 0 /\
     DownloadProgress.downloadedBytes (DownloadTask.progress task')
     = DownloadProgress.downloadedBytes (DownloadTask.progress task)).
Proof.
  intros Hreach Hl. split; [|split].
  - intros Hs Ht [Hr _] c Hc <-.
    pose proof (reachable_state_inv st Hreach) as Hinv.
    assert (Hti : timer_inv c) by (exact (map_Forall_lookup_1 _ _ _ _ (proj2 Hinv) Hc)).
    pose proof (state_inv_lookup _ _ _ Hinv Hl) as Hk.
    destruct (tick_task_advances c rnd now task Hti Hr Hk Hs Ht) as (Hlt & Hle & _).
    exists (tick_task c rnd now task). split; [|split; assumption].
    rewrite (interval_callback_active _ _ _ _ c task Hc Hl Hs). cbv zeta.
    destruct (leb 100 _); simpl; apply lookup_insert_eq.
  - intros Hs. apply interval_callback_paused; [exact Hl|]. rewrite Hs. discriminate.
  - intros Hs.
    destruct (pauseDownload_effect st taskId now task Hl Hs) as (st' & Hp & Ha & Hi & Ht).
    exists st', (paused_task now task).
    split; [exact Hp|]. split; [exact Ha|]. split; [exact Hi|]. split; [exact Ht|].
    repeat split.
Qed.

Lemma simulated_progress_witness :
  (exists task task',
     activeDownloads Sample.st_running !! "dl_2" = Some task /\
     activeDownloads (interval_callback 0 (1 # 2) 200 Sample.st_running) !! "dl_2"
     = Some task' /\
     DownloadProgress.downloadedBytes (DownloadTask.progress task)
     < DownloadProgress.downloadedBytes (DownloadTask.progress task') /\
     DownloadProgress.downloadedBytes (DownloadTask.progress task')
     <= DownloadProgress.totalBytes (DownloadTask.progress task)) /\
  (exists task,
     activeDownloads Sample.st_paused !! "dl_2" = Some task /\
     activeDownloads (interval_callback 0 (1 # 2) 300 Sample.st_paused) !! "dl_2"
     = Some task) /\
  (exists st',
     timers Sample.st_running !! 0%nat = Some (Build_IntervalClosure "dl_2" 500000) /\
     downloadIntervals Sample.st_running !! "dl_2" = Some 0%nat /\
     pauseDownload "dl_2" 250 Sample.st_running = (Ok tt, st') /\
     timers st' !! 0%nat = None /\
     downloadIntervals st' !! "dl_2" = None).
Proof.
  assert (Hok : Forall op_random_ok
                  [Start "dl_2" 0 0 Sample.video Sample.quality1080; Tick 0%nat 0 100])
    by (repeat constructor; simpl; unfold random_ok; lra).
  assert (Hrun : reachable Sample.st_running)
    by (apply reachable_run_ops; [apply reachable_initial | exact Hok]).
  assert (Hpau : reachable Sample.st_paused)
    by (apply reachable_step; [exact Hrun | exact I]).
  split; [|split].
  - assert (exists task,
              activeDownloads Sample.st_running !! "dl_2" = Some task /\
              DownloadTask.status task = downloading /\
              0 < DownloadProgress.totalBytes (DownloadTask.progress task))
      as (task & Hl & Hs & Ht)
      by (eexists; split; [vm_compute; reflexivity | split; reflexivity]).
    assert (exists c, timers Sample.st_running !! 0%nat = Some c /\
                      closure_taskId c = "dl_2") as (c & Hc & Hid)
      by (eexists; split; [vm_compute; reflexivity | reflexivity]).
    assert (Hrnd : random_ok (1 # 2)) by (unfold random_ok; lra).
    destruct (simulated_progress Sample.st_running 0 (1 # 2) 200 "dl_2" task Hrun Hl)
      as [Hadv _].
    destruct (Hadv Hs Ht Hrnd c Hc Hid) as (task' & Hl' & Hlt & Hle).
    exists task, task'. auto.
  - assert (exists task,
              activeDownloads Sample.st_paused !! "dl_2" = Some task /\
              DownloadTask.status task = paused) as (task & Hl & Hs)
      by (eexists; split; [vm_compute; reflexivity | reflexivity]).
    destruct (simulated_progress Sample.st_paused 0 (1 # 2) 300 "dl_2" task Hpau Hl)
      as (_ & Hkeep & _).
    exists task. split; [exact Hl | exact (Hkeep Hs)].
  - assert (exists task,
              activeDownloads Sample.st_running !! "dl_2" = Some task /\
              DownloadTask.status task = downloading) as (task & Hl & Hs)
      by (eexists; split; [vm_compute; reflexivity | reflexivity]).
    assert (Hi : downloadIntervals Sample.st_running !! "dl_2" = Some 0%nat)
      by (vm_compute; reflexivity).
    destruct (simulated_progress Sample.st_running 0 (1 # 2) 250 "dl_2" task Hrun Hl)
      as (_ & _ & Hpause).
    destruct (Hpause Hs) as (st' & task' & Hp & _ & Hnone & Hclear & _).
    exists st'. split; [vm_compute; reflexivity|]. split; [exact Hi|].
    split; [exact Hp|]. split; [exact (Hclear 0%nat Hi) | exact Hnone].
Defined.

(** C8, as specified, fails for a task of 0 bytes: it is reachable
    and [downloading], its interval fires, and the bytes downloaded stay 0. *)
Lemma tick_of_empty_task_adds_nothing :
  exists task task',
    reachable Sample.st_empty /\
    activeDownloads Sample.st_empty !! "dl_3" = Some task /\
    DownloadTask.status task = downloading /\
    timers Sample.st_empty !! 0%nat = Some (Build_IntervalClosure "dl_3" 500000) /\
    activeDownloads (interval_callback 0 (1 # 2) 100 Sample.st_empty) !! "dl_3"
    = Some task' /\
    DownloadTask.status task' = downloading /\
    DownloadProgress.downloadedBytes (DownloadTask.progress task) == 0 /\
    DownloadProgress.downloadedBytes (DownloadTask.progress task') == 0.
Proof.
  do 2 eexists.
  split; [apply reachable_step; [apply reachable_initial | simpl; unfold random_ok; lra]|].
  split; [vm_compute; reflexivity|].
  split; [reflexivity|].
  split; [vm_compute; reflexivity|].
  split; [vm_compute; reflexivity|].
  split; [reflexivity|].
  split; reflexivity.
Qed.

(** ** A task without a positive total *)

Lemma tick_task_no_total c rnd now task :
  DownloadProgress.totalBytes (DownloadTask.progress task) <= 0 ->
  DownloadTask.status (tick_task c rnd now task) = DownloadTask.status task /\
  DownloadProgress.totalBytes (DownloadTask.progress (tick_task c rnd now task))
  = DownloadProgress.totalBytes (DownloadTask.progress task) /\
  DownloadProgress.percentage (DownloadTask.progress (tick_task c rnd now task)) = 0 /\
  leb 100 (DownloadProgress.percentage (tick_progress c rnd task)) = false.
Proof.
  intros Ht. unfold tick_task. cbv zeta.
  rewrite tick_progress_fields. cbv zeta. simpl.
  rewrite (calculatePercentage_no_total _ _ Ht). simpl. auto.
Qed.

Lemma stuck_at_zero_tick taskId h h' rnd now st :
  stuck_at_zero taskId h st -> stuck_at_zero taskId h (interval_callback h' rnd now st).
Proof.
  intros ((task & Hl & Hs & Ht & Hp) & Hi & (c & Hc & Hid)).
  destruct (timers st !! h') as [c'|] eqn:Hh';
    [|rewrite interval_callback_idle by exact Hh'; unfold stuck_at_zero; eauto 10].
  destruct (decide (closure_taskId c' = taskId)) as [Heq|Hne].
  - (* an interval of this task: the task is downloading, its total is not
       positive, so the percentage stays 0 and nothing is cleared *)
    rewrite <- Heq in Hl.
    rewrite (interval_callback_active _ _ _ _ c' task Hh' Hl Hs). cbv zeta.
    destruct (tick_task_no_total c' rnd now task Ht) as (Hs' & Ht' & Hp' & ->).
    split; [|split]; simpl.
    + exists (tick_task c' rnd now task). rewrite <- Heq.
      split; [apply lookup_insert_eq|]. split; [congruence|].
      split; [now rewrite Ht' | now rewrite Hp'].
    + exact Hi.
    + eauto.
  - (* an interval of another task: whatever it does, it touches neither
       this task nor its interval *)
    assert (Hhh : h' <> h) by (intros ->; congruence).
    assert (Hstop : forall st0,
               stuck_at_zero taskId h st0 ->
               stuck_at_zero taskId h (stop_timer h' (closure_taskId c') st0)).
    { intros st0 (Hk & Hi0 & (c0 & Hc0 & Hid0)). split; [|split]; simpl.
      - exact Hk.
      - now rewrite lookup_delete_ne.
      - exists c0. split; [now rewrite lookup_delete_ne | exact Hid0]. }
    assert (Hput : forall t,
               stuck_at_zero taskId h
                 (set_activeDownloads (insert (closure_taskId c') t) st)).
    { intros t. split; [|split]; simpl.
      - exists task. rewrite lookup_insert_ne by exact Hne. auto.
      - exact Hi.
      - eauto. }
    assert (Hst : stuck_at_zero taskId h st) by (unfold stuck_at_zero; eauto 10).
    destruct (activeDownloads st !! closure_taskId c') as [t|] eqn:Hl';
      [|rewrite (interval_callback_gone _ _ _ _ c') by assumption; now apply Hstop].
    destruct (status_eqb (DownloadTask.status t) downloading) eqn:Hs'.
    + apply status_eqb_eq in Hs'.
      rewrite (interval_callback_active _ _ _ _ c' t Hh' Hl' Hs'). cbv zeta.
      destruct (leb 100 _); [apply Hstop|]; apply Hput.
    + apply status_eqb_neq in Hs'.
      rewrite (interval_callback_inactive _ _ _ _ c' t) by assumption. now apply Hstop.
Qed.

Lemma stuck_at_zero_ticks taskId h ticks st :
  stuck_at_zero taskId h st -> stuck_at_zero taskId h (run_ops (tick_ops ticks) st).
Proof.
  revert st. induction ticks as [|[[h' rnd] now] ticks IH]; intros st H; [exact H|].
  simpl. apply IH. now apply stuck_at_zero_tick.
Qed.

Lemma startDownload_stuck taskId now rnd videoInfo quality st :
  QualityOption.available quality = true ->
  QualityOption.fileSize quality == 0 ->
  stuck_at_zero taskId (next_handle st)
    (snd (startDownload taskId now rnd videoInfo quality st)).
Proof.
  intros Ha Hz. rewrite startDownload_eq, Ha. cbv zeta. cbn [snd].
  rewrite simulateDownloadProgress_eq. cbn [snd]. simpl.
  rewrite lookup_insert_eq. split; [|split]; simpl.
  - eexists. split; [apply lookup_insert_eq|]. simpl.
    split; [reflexivity|]. split; [lra | reflexivity].
  - apply lookup_insert_eq.
  - eexists. split; [apply lookup_insert_eq | reflexivity].
Qed.

(** C10.  For a quality option that is available and has a file size of 0,
    [startDownload] returns a task; after any firings of any intervals,
    with any random numbers, the registry still holds the task as
    [downloading] with a percentage of 0, never [completed], and the
    interval [startDownload] registered for it still fires. *)
Theorem empty_task_never_completes (taskId : string) (now : Z) (rnd : Q)
    (videoInfo : VideoInfo.t) (quality : QualityOption.t) (st : State)
    (ticks : list (nat * Q * Z)) :
  QualityOption.available quality = true ->
  QualityOption.fileSize quality == 0 ->
  exists task st1,
    startDownload taskId now rnd videoInfo quality st = (Ok task, st1) /\
    exists task2 c,
      activeDownloads (run_ops (tick_ops ticks) st1) !! taskId = Some task2 /\
      DownloadTask.status task2 = downloading /\
      DownloadTask.status task2 <> completed /\
      DownloadProgress.percentage (DownloadTask.progress task2) == 0 /\
      downloadIntervals (run_ops (tick_ops ticks) st1) !! taskId = Some (next_handle st) /\
      timers (run_ops (tick_ops ticks) st1) !! next_handle st = Some c /\
      closure_taskId c = taskId.
Proof.
  intros Ha Hz.
  pose proof (startDownload_stuck taskId now rnd videoInfo quality st Ha Hz) as Hstuck.
  destruct (startDownload_available taskId now rnd videoInfo quality st Ha)
    as (st1 & Hstart & _).
  rewrite Hstart in Hstuck. cbn [snd] in Hstuck.
  destruct (stuck_at_zero_ticks taskId (next_handle st) ticks st1 Hstuck)
    as ((task2 & Hl & Hs & _ & Hp) & Hi & (c & Hc & Hid)).
  eexists. exists st1. split; [exact Hstart|].
  exists task2, c. repeat split; try assumption. rewrite Hs. discriminate.
Qed.

Lemma empty_task_never_completes_witness :
  exists task st1,
    startDownload "dl_3" 0 0 Sample.video Sample.qualityEmpty initial_state
    = (Ok task, st1) /\
    exists task2 c,
      activeDownloads (run_ops (tick_ops [(0%nat, 0, 100%Z); (0%nat, 1 # 2, 200%Z)]) st1)
        !! "dl_3" = Some task2 /\
      DownloadTask.status task2 = downloading /\
      DownloadTask.status task2 <> completed /\
      DownloadProgress.percentage (DownloadTask.progress task2) == 0 /\
      downloadIntervals
        (run_ops (tick_ops [(0%nat, 0, 100%Z); (0%nat, 1 # 2, 200%Z)]) st1) !! "dl_3"
      = Some 0%nat /\
      timers (run_ops (tick_ops [(0%nat, 0, 100%Z); (0%nat, 1 # 2, 200%Z)]) st1) !! 0%nat
      = Some c /\
      closure_taskId c = "dl_3".
Proof.
  apply (empty_task_never_completes "dl_3" 0 0 Sample.video Sample.qualityEmpty
           initial_state [(0%nat, 0, 100%Z); (0%nat, 1 # 2, 200%Z)]); reflexivity.
Defined.

(** ** The yt-dlp endpoint and its scratch files *)

Section EndpointFacts.

Variable TEMP_DIR : string.
Variable clean_url : string -> string.
Variable yt_dlp : string -> YtDlpRoute.ExecOutcome.
Variable match_title : string -> option string.
Variable extname_tail : string -> string.
Variable encodeURIComponent : string -> string.
Variable readFile_fails : string -> bool.
Variable readFile_message : string.

Local Abbreviation GET_sound_fs :=
  (YtDlpRoute.GET_sound_fs TEMP_DIR clean_url yt_dlp match_title extname_tail
     encodeURIComponent readFile_fails readFile_message).

Lemma cleanupTempFiles_removes_all fileId dir :
  YtDlpRoute.token_file_remains fileId
    (YtDlpRoute.cleanupTempFiles false (fun _ => false)
       (YtDlpRoute.path_join TEMP_DIR fileId) dir) = false.
Proof.
  unfold YtDlpRoute.token_file_remains, YtDlpRoute.cleanupTempFiles. simpl.
  induction dir as [|file dir IH]; [reflexivity|]. simpl.
  destruct (YtDlpRoute.startsWith file.1 fileId) eqn:E; simpl; [exact IH|].
  now rewrite E.
Qed.

Lemma find_startsWith_none fileId (dir : YtDlpRoute.Dir) :
  List.find (fun f => YtDlpRoute.startsWith f fileId) (fst <$> dir) = None ->
  YtDlpRoute.token_file_remains fileId dir = false.
Proof.
  unfold YtDlpRoute.token_file_remains.
  induction dir as [|file dir IH]; [reflexivity|]. simpl.
  destruct (YtDlpRoute.startsWith file.1 fileId); [discriminate|]. exact IH.
Qed.

Lemma readFile_of_existing name (dir : YtDlpRoute.Dir) :
  readFile_fails name = false ->
  YtDlpRoute.existsSync name dir = true ->
  exists content, YtDlpRoute.readFile readFile_fails name dir = Some content.
Proof.
  intros Hf. unfold YtDlpRoute.existsSync, YtDlpRoute.readFile. rewrite Hf.
  induction dir as [|file dir IH]; [discriminate|]. simpl.
  destruct (String.eqb file.1 name); simpl; eauto.
Qed.

Lemma readFile_of_listed name fileId (dir : YtDlpRoute.Dir) :
  readFile_fails name = false ->
  List.find (fun f => YtDlpRoute.startsWith f fileId) (fst <$> dir) = Some name ->
  exists content, YtDlpRoute.readFile readFile_fails name dir = Some content.
Proof.
  intros Hf Hfind. apply readFile_of_existing; [exact Hf|].
  unfold YtDlpRoute.existsSync.
  induction dir as [|file dir IH]; [discriminate|]. simpl in *.
  destruct (YtDlpRoute.startsWith file.1 fileId).
  - injection Hfind as ->. now rewrite String.eqb_refl.
  - rewrite (IH Hfind). apply Bool.orb_true_r.
Qed.

(** X1.  When the tool succeeded and no file operation failed, no file of
    the work token is left, whether the expected file or another file of
    the token was sent, or none was found. *)
Lemma GET_cleans_after_success fileId request url dir :
  (forall name, readFile_fails name = false) ->
  (forall cmd, YtDlpRoute.exec_ok (yt_dlp cmd) = true) ->
  YtDlpRoute.param_url request = Some url -> url <> "" ->
  YtDlpRoute.token_file_remains fileId (snd (GET_sound_fs fileId request dir)) = false.
Proof.
  intros Hread Hok Hurl Hne. unfold YtDlpRoute.GET_sound_fs, YtDlpRoute.GET. rewrite Hurl.
  destruct (String.eqb url "") eqn:E; [apply String.eqb_eq in E; contradiction|].
  destruct (String.eqb (YtDlpRoute.or_default (YtDlpRoute.param_format request) "mp4") "mp3");
    rewrite Hok; cbn [negb];
    match goal with
    | |- context [YtDlpRoute.existsSync ?name ?d] =>
        destruct (YtDlpRoute.existsSync name d) eqn:Hex; cbn [negb];
        [ destruct (readFile_of_existing name d (Hread name) Hex) as (content & ->);
          apply cleanupTempFiles_removes_all
        | destruct (find _ (fst <$> d)) as [m|] eqn:Hfind;
          [ destruct (readFile_of_listed m fileId d (Hread m) Hfind) as (content & ->);
            apply cleanupTempFiles_removes_all
          | now apply find_startsWith_none ] ]
    end.
Qed.

(** X2.  When the tool failed, the endpoint answers 500 with the message
    of the failure and leaves the scratch directory as the tool left it:
    nothing is cleaned up. *)
Lemma GET_after_tool_failure fileId request url dir :
  (forall cmd, YtDlpRoute.exec_ok (yt_dlp cmd) = false) ->
  YtDlpRoute.param_url request = Some url -> url <> "" ->
  exists cmd,
    GET_sound_fs fileId request dir
    = (YtDlpRoute.JsonError (YtDlpRoute.exec_message (yt_dlp cmd)) 500,
       dir ++ YtDlpRoute.exec_files (yt_dlp cmd)).
Proof.
  intros Hfail Hurl Hne. unfold YtDlpRoute.GET_sound_fs, YtDlpRoute.GET. rewrite Hurl.
  destruct (String.eqb url "") eqn:E; [apply String.eqb_eq in E; contradiction|].
  destruct (String.eqb (YtDlpRoute.or_default (YtDlpRoute.param_format request) "mp4") "mp3");
    rewrite Hfail; cbn [negb]; eexists; reflexivity.
Qed.

End EndpointFacts.

(** C1 fails on the failure path.  The tool times out after it has written
    a partial file under the work token into an empty scratch directory:
    the endpoint answers 500 and the file is still there.  On the success
    path of the same request both files of the token are removed. *)
Theorem GET_leaves_scratch_file_on_failure :
  Sample.GET_with Sample.timed_out []
  = (YtDlpRoute.JsonError "Command failed: yt-dlp (timed out)" 500,
     [(Sample.fileId +:+ ".f137.mp4.part", "partial video")]) /\
  YtDlpRoute.token_file_remains Sample.fileId (snd (Sample.GET_with Sample.timed_out []))
  = true /\
  Sample.GET_with Sample.produced []
  = (YtDlpRoute.FileResponse "video" "video/mp4" "download.mp4" 200, []).
Proof. repeat split; vm_compute; reflexivity. Qed.

(** The success path, on the sample request: nothing of the token is left. *)
Lemma GET_cleans_after_success_witness :
  YtDlpRoute.token_file_remains Sample.fileId
    (snd (Sample.GET_with Sample.produced [("other.mp4", "kept")])) = false.
Proof.
  apply (GET_cleans_after_success "/app/tmp" (fun url => url) (fun _ => Sample.produced)
           (fun _ => None) (fun _ => "") (fun name => name) (fun _ => false) ""
           Sample.fileId
           (YtDlpRoute.Build_Request (Some "https://www.youtube.com/watch?v=abc123") None None)
           "https://www.youtube.com/watch?v=abc123" [("other.mp4", "kept")]);
    [reflexivity | reflexivity | reflexivity | discriminate].
Defined.

(** The failure path, on the sample request: the directory is as the tool
    left it. *)
Lemma GET_after_tool_failure_witness :
  exists cmd : string,
    Sample.GET_with Sample.timed_out [("other.mp4", "kept")]
    = (YtDlpRoute.JsonError (YtDlpRoute.exec_message Sample.timed_out) 500,
       [("other.mp4", "kept")] ++ YtDlpRoute.exec_files Sample.timed_out).
Proof.
  apply (GET_after_tool_failure "/app/tmp" (fun url => url) (fun _ => Sample.timed_out)
           (fun _ => None) (fun _ => "") (fun name => name) (fun _ => false) ""
           Sample.fileId
           (YtDlpRoute.Build_Request (Some "https://www.youtube.com/watch?v=abc123") None None)
           "https://www.youtube.com/watch?v=abc123" [("other.mp4", "kept")]);
    [reflexivity | reflexivity | discriminate].
Defined.

(** * Part II, continued *)

(** ** How the calls change the registry *)

Lemma startMP3Download_eq taskId now rnd videoInfo metadata st :
  startMP3Download taskId now rnd videoInfo metadata st
  = match List.find is_mp3 (VideoInfo.qualities videoInfo) with
    | None => (Throw MP3NotAvailable, st)
    | Some q =>
        if negb (QualityOption.available q) then (Throw MP3NotAvailable, st)
        else if match QualityOption.bitrate q with
                | Some b => truthy b && ltb b MIN_AUDIO_BITRATE
                | None => false
                end
        then (Throw BitrateTooLow, st)
        else
          let st1 :=
            snd (simulateDownloadProgress taskId rnd
                   (set_activeDownloads
                      (insert taskId (started_task taskId now videoInfo q None)) st)) in
          match metadata with
          | Some m =>
              (Ok (started_task taskId now videoInfo q (Some m)),
               set_activeDownloads
                 (insert taskId (started_task taskId now videoInfo q (Some m))) st1)
          | None => (Ok (started_task taskId now videoInfo q None), st1)
          end
    end.
Proof.
  unfold startMP3Download.
  destruct (find is_mp3 (VideoInfo.qualities videoInfo)) as [q|]; [|reflexivity].
  destruct (negb (QualityOption.available q)) eqn:Ea; [reflexivity|].
  destruct (match QualityOption.bitrate q with
            | Some b => truthy b && ltb b MIN_AUDIO_BITRATE
            | None => false
            end); [reflexivity|].
  unfold bind. rewrite startDownload_eq.
  apply Bool.negb_false_iff in Ea. rewrite Ea. cbv zeta.
  destruct metadata; reflexivity.
Qed.

(** The registry after a call holds, under each key, what [task_change]
    allows. *)
Lemma run_op_task_change o st key task' :
  op_random_ok o ->
  activeDownloads (run_op o st) !! key = Some task' ->
  task_change st key task'.
Proof.
  intros Hr Hl. destruct o as [taskId now rnd vi q|taskId now rnd vi md|h rnd now
                               |taskId now|taskId rnd|taskId|]; simpl in Hl.
  - (* startDownload *)
    rewrite startDownload_eq in Hl.
    destruct (QualityOption.available q) eqn:Ea; [|now apply change_none].
    cbv zeta in Hl. cbn [snd] in Hl.
    destruct (simulateDownloadProgress_activeDownloads taskId rnd
                (set_activeDownloads
                   (insert taskId
                      (DownloadTask.mk taskId vi q downloading
                         (createInitialProgress (QualityOption.fileSize q))
                         now None None None None)) st)) as (st' & Hs & Ha).
    rewrite Hs in Hl. cbn [snd] in Hl. rewrite Ha in Hl. simpl in Hl.
    destruct (decide (taskId = key)) as [->|Hne].
    + rewrite lookup_insert_eq in Hl. injection Hl as <-.
      now apply (change_started st key now vi q None).
    + rewrite lookup_insert_ne in Hl by exact Hne. now apply change_none.
  - (* startMP3Download *)
    rewrite startMP3Download_eq in Hl.
    destruct (find is_mp3 (VideoInfo.qualities vi)) as [q|]; [|now apply change_none].
    destruct (negb (QualityOption.available q)) eqn:Ea; [now apply change_none|].
    apply Bool.negb_false_iff in Ea.
    destruct (match QualityOption.bitrate q with
              | Some b => truthy b && ltb b MIN_AUDIO_BITRATE
              | None => false
              end); [now apply change_none|].
    cbv zeta in Hl.
    destruct (simulateDownloadProgress_activeDownloads taskId rnd
                (set_activeDownloads
                   (insert taskId (started_task taskId now vi q None)) st))
      as (st' & Hs & Ha).
    rewrite Hs in Hl. cbn [snd] in Hl.
    destruct md as [m|]; cbn [snd] in Hl; simpl in Hl; rewrite Ha in Hl; simpl in Hl;
      destruct (decide (taskId = key)) as [->|Hne].
    + rewrite lookup_insert_eq in Hl. injection Hl as <-. now apply change_started.
    + rewrite !lookup_insert_ne in Hl by exact Hne. now apply change_none.
    + rewrite lookup_insert_eq in Hl. injection Hl as <-. now apply change_started.
    + rewrite lookup_insert_ne in Hl by exact Hne. now apply change_none.
  - (* a firing *)
    destruct (interval_callback_registry h rnd now st) as [E|(c & t & Hc & Ht & Hs & E)];
      rewrite E in Hl; [now apply change_none|].
    destruct (decide (closure_taskId c = key)) as [Heq|Hne].
    + rewrite Heq in *. rewrite lookup_insert_eq in Hl. injection Hl as <-.
      now apply (change_tick st key h c rnd now t).
    + rewrite lookup_insert_ne in Hl by exact Hne. now apply change_none.
  - (* pauseDownload *)
    destruct (activeDownloads st !! taskId) as [t|] eqn:Ht;
      [|rewrite pauseDownload_not_found in Hl by exact Ht; now apply change_none].
    destruct (status_eqb (DownloadTask.status t) downloading) eqn:Hs.
    + apply status_eqb_eq in Hs. rewrite (pauseDownload_ok st taskId now t Ht Hs) in Hl.
      cbn [snd] in Hl. rewrite stop_interval_eq in Hl. cbn [snd] in Hl.
      assert (Hl' : <[taskId := paused_task now t]> (activeDownloads st) !! key
                    = Some task')
        by (destruct (downloadIntervals st !! taskId); exact Hl).
      destruct (decide (taskId = key)) as [->|Hne].
      * rewrite lookup_insert_eq in Hl'. injection Hl' as <-. now apply change_paused.
      * rewrite lookup_insert_ne in Hl' by exact Hne. now apply change_none.
    + apply status_eqb_neq in Hs.
      rewrite (pauseDownload_invalid st taskId now t Ht Hs) in Hl. now apply change_none.
  - (* resumeDownload *)
    destruct (activeDownloads st !! taskId) as [t|] eqn:Ht;
      [|rewrite resumeDownload_not_found in Hl by exact Ht; now apply change_none].
    destruct (status_eqb (DownloadTask.status t) paused) eqn:Hs.
    + apply status_eqb_eq in Hs. rewrite (resumeDownload_ok st taskId rnd t Ht Hs) in Hl.
      cbn [snd] in Hl.
      destruct (simulateDownloadProgress_activeDownloads taskId rnd
                  (set_activeDownloads (insert taskId (resumed_task t)) st))
        as (st' & Hsim & Ha).
      rewrite Hsim in Hl. cbn [snd] in Hl. rewrite Ha in Hl. simpl in Hl.
      destruct (decide (taskId = key)) as [->|Hne].
      * rewrite lookup_insert_eq in Hl. injection Hl as <-. now apply change_resumed.
      * rewrite lookup_insert_ne in Hl by exact Hne. now apply change_none.
    + apply status_eqb_neq in Hs.
      rewrite (resumeDownload_invalid st taskId rnd t Ht Hs) in Hl. now apply change_none.
  - (* cancelDownload *)
    destruct (activeDownloads st !! taskId) as [t|] eqn:Ht;
      [|rewrite cancelDownload_not_found in Hl by exact Ht; now apply change_none].
    destruct (cancelDownload_found st taskId t Ht) as (st' & Hc & Ha).
    rewrite Hc in Hl. cbn [snd] in Hl. rewrite Ha in Hl.
    apply lookup_delete_Some in Hl as [_ Hl]. now apply change_none.
  - (* clearCompletedDownloads *)
    unfold clearCompletedDownloads in Hl. unfold_M. simpl in Hl.
    apply map_lookup_filter_Some_1_1 in Hl. now apply change_none.
Qed.

(** A property of the stored tasks that the four changes keep holds in
    every reachable state. *)
Lemma reachable_tasks_ind (P : string -> DownloadTask.t -> Prop) :
  (forall key now videoInfo quality metadata,
     QualityOption.available quality = true ->
     P key (started_task key now videoInfo quality metadata)) ->
  (forall key c rnd now task,
     timer_inv c -> random_ok rnd -> task_inv task -> P key task ->
     DownloadTask.status task = downloading ->
     P key (tick_task c rnd now task)) ->
  (forall key now task,
     P key task -> DownloadTask.status task = downloading ->
     P key (paused_task now task)) ->
  (forall key task,
     P key task -> DownloadTask.status task = paused -> P key (resumed_task task)) ->
  forall st, reachable st ->
  forall key task, activeDownloads st !! key = Some task -> P key task.
Proof.
  intros Hstart Htick Hpause Hresume st Hreach.
  induction Hreach as [|st o Hreach IH Hr]; intros key task Hl.
  - simpl in Hl. now rewrite lookup_empty in Hl.
  - pose proof (reachable_state_inv st Hreach) as Hinv.
    destruct (run_op_task_change o st key task Hr Hl)
      as [t Ht|now vi q md Ha|h c rnd now t Hc Hid Hrnd Ht Hs|now t Ht Hs|t Ht Hs].
    + now apply IH.
    + now apply Hstart.
    + apply Htick; auto.
      * exact (map_Forall_lookup_1 _ _ _ _ (proj2 Hinv) Hc).
      * exact (state_inv_lookup st key t Hinv Ht).
    + apply Hpause; auto.
    + apply Hresume; auto.
Qed.

Lemma lifecycle_ok_tick key c rnd now task :
  lifecycle_ok key task -> DownloadTask.status task = downloading ->
  lifecycle_ok key (tick_task c rnd now task).
Proof.
  intros (Hid & Ha & He & Hst) Hs. rewrite Hs in Hst. destruct Hst as (Hp & Hc & _).
  unfold tick_task. cbv zeta.
  destruct (leb 100 (DownloadProgress.percentage (tick_progress c rnd task))) eqn:E.
  - unfold lifecycle_ok. simpl. repeat split; auto; now eexists.
  - apply leb_false in E. unfold lifecycle_ok. simpl. rewrite Hs. repeat split; auto.
Qed.

Lemma reachable_lifecycle_ok st taskId task :
  reachable st ->
  activeDownloads st !! taskId = Some task ->
  lifecycle_ok taskId task.
Proof.
  intros Hreach. revert taskId task.
  apply (reachable_tasks_ind lifecycle_ok); [| | | |exact Hreach].
  - intros key now vi q md Ha. unfold lifecycle_ok. simpl. repeat split; auto; lra.
  - intros key c rnd now task _ _ _ Hok Hs. now apply lifecycle_ok_tick.
  - intros key now task (Hid & Ha & He & Hst) Hs. rewrite Hs in Hst.
    destruct Hst as (_ & Hc & Hp). unfold lifecycle_ok. simpl.
    repeat split; auto; now eexists.
  - intros key task (Hid & Ha & He & Hst) Hs. rewrite Hs in Hst.
    destruct Hst as (_ & Hc & Hp & _). unfold lifecycle_ok. simpl.
    repeat split; auto.
Qed.


Lemma calculatePercentage_none t : calculatePercentage 0 t == 0.
Proof.
  destruct (Qlt_le_dec 0 t) as [Ht|Ht];
    [|now rewrite calculatePercentage_no_total].
  rewrite (calculatePercentage_total 0 t Ht). unfold Math_round.
  assert (E : 0 / t * 100 * 100 + (1 # 2) == 1 # 2) by (unfold Qdiv; ring).
  rewrite E. change (inject_Z (Qfloor (1 # 2)) / 100) with (0 / 100).
  assert (Hx : 0 / 100 == 0) by reflexivity.
  set (x := 0 / 100) in *. clearbody x. minmax; lra.
Qed.

Lemma calculatePercentage_all t : 0 < t -> calculatePercentage t t == 100.
Proof.
  intros Ht. apply Qle_antisym.
  - apply calculatePercentage_range.
  - apply calculatePercentage_complete; [exact Ht | lra].
Qed.

Lemma progress_consistent_tick c rnd now task :
  timer_inv c -> random_ok rnd ->
  progress_consistent task -> progress_consistent (tick_task c rnd now task).
Proof.
  intros Hc [Hr _] (Hp & Ht & Hs & He).
  pose proof (tick_speed_positive _ _ Hc Hr) as Hsp.
  unfold tick_task. cbv zeta.
  pose proof (tick_progress_fields c rnd task) as Ep. cbv zeta in Ep.
  set (p' := tick_progress c rnd task) in *. clearbody p'.
  set (speed := closure_baseSpeed c * ((8 # 10) + rnd * (4 # 10))) in *.
  destruct (leb 100 (DownloadProgress.percentage p')) eqn:E.
  - apply leb_true in E. rewrite Ep in E. simpl in E.
    assert (Hpos : 0 < DownloadProgress.totalBytes (DownloadTask.progress task)).
    { apply Qnot_le_lt. intros Hle.
      rewrite (calculatePercentage_no_total _ _ Hle) in E. lra. }
    unfold progress_consistent. rewrite Ep. simpl.
    split; [symmetry; now apply calculatePercentage_all|].
    split; [exact Ht|]. split; lra.
  - unfold progress_consistent. rewrite Ep. simpl.
    split; [reflexivity|]. split; [exact Ht|]. split; [lra|].
    apply calculateETA_nonneg.
Qed.

Lemma reachable_progress_consistent st taskId task :
  reachable st ->
  activeDownloads st !! taskId = Some task ->
  progress_consistent task.
Proof.
  intros Hreach. revert taskId task.
  apply (reachable_tasks_ind (fun _ task => progress_consistent task));
    [| | | |exact Hreach].
  - intros key now vi q md _. unfold progress_consistent. simpl.
    split; [symmetry; apply calculatePercentage_none|].
    split; [reflexivity|]. split; lra.
  - intros key c rnd now task Hc Hr _ Hok _. now apply progress_consistent_tick.
  - intros key now task (Hp & Ht & Hs & He) _. unfold progress_consistent. simpl.
    split; [exact Hp|]. split; [exact Ht|]. split; [lra | exact He].
  - intros key task Hok _. exact Hok.
Qed.


Lemma sample_ops_random_ok :
  Forall op_random_ok [Start "dl_1" 0 0 Sample.video Sample.quality720; Tick 0%nat 0 100] /\
  Forall op_random_ok [Start "dl_2" 0 0 Sample.video Sample.quality1080; Tick 0%nat 0 100].
Proof. split; repeat constructor; simpl; unfold random_ok; lra. Qed.

Lemma sample_completed_reachable : reachable Sample.st_completed.
Proof.
  apply reachable_run_ops; [apply reachable_initial | apply sample_ops_random_ok].
Qed.

Lemma sample_running_reachable : reachable Sample.st_running.
Proof.
  apply reachable_run_ops; [apply reachable_initial | apply sample_ops_random_ok].
Qed.




(** ** One interval per downloading task *)

Lemma drivers_ok_initial : drivers_ok initial_state.
Proof.
  unfold drivers_ok, initial_state. simpl.
  repeat split; intros *; rewrite lookup_empty; discriminate.
Qed.

(** The tables of intervals are untouched, and the same keys hold a
    [downloading] task. *)
Lemma drivers_ok_same st st' :
  drivers_ok st ->
  downloadIntervals st' = downloadIntervals st ->
  timers st' = timers st ->
  next_handle st' = next_handle st ->
  (forall k t', activeDownloads st' !! k = Some t' ->
                DownloadTask.status t' = downloading ->
                exists t, activeDownloads st !! k = Some t /\
                          DownloadTask.status t = downloading) ->
  (forall k t, activeDownloads st !! k = Some t ->
               DownloadTask.status t = downloading ->
               exists t', activeDownloads st' !! k = Some t' /\
                          DownloadTask.status t' = downloading) ->
  drivers_ok st'.
Proof.
  intros (D1 & D2 & D3 & D4) Hi Ht Hn Hback Hforth.
  unfold drivers_ok. rewrite Hi, Ht, Hn. repeat split.
  - now apply D1.
  - destruct (D1 h c H) as (_ & t & Hl & Hs). now apply (Hforth _ t).
  - exact D2.
  - intros k t' Hl Hs. destruct (Hback k t' Hl Hs) as (t & Hl0 & Hs0).
    now apply (D3 k t).
  - exact D4.
Qed.

(** The interval of a task is cleared and the task leaves [downloading]
    (or the registry). *)
Lemma drivers_ok_stopped st st' taskId h :
  drivers_ok st ->
  downloadIntervals st !! taskId = Some h ->
  downloadIntervals st' = delete taskId (downloadIntervals st) ->
  timers st' = delete h (timers st) ->
  next_handle st' = next_handle st ->
  (forall k, k <> taskId -> activeDownloads st' !! k = activeDownloads st !! k) ->
  (forall t, activeDownloads st' !! taskId = Some t ->
             DownloadTask.status t <> downloading) ->
  drivers_ok st'.
Proof.
  intros (D1 & D2 & D3 & D4) He Hi Ht Hn Hother Hself.
  destruct (D2 taskId h He) as (c0 & Hc0 & Hid0).
  assert (Hown : forall h' c, timers st !! h' = Some c -> h' <> h ->
                              closure_taskId c <> taskId).
  { intros h' c Hc Hne Heq. destruct (D1 h' c Hc) as (Hreg & _).
    rewrite Heq, He in Hreg. congruence. }
  unfold drivers_ok. rewrite Hi, Ht, Hn. repeat split.
  - apply lookup_delete_Some in H as [Hne Hc].
    rewrite lookup_delete_ne by (apply not_eq_sym; now apply (Hown h0 c)).
    now apply D1.
  - apply lookup_delete_Some in H as [Hne Hc].
    destruct (D1 h0 c Hc) as (_ & t & Hl & Hs). exists t.
    rewrite Hother by (now apply (Hown h0 c)). auto.
  - intros k h' Hk. apply lookup_delete_Some in Hk as [Hne Hk].
    destruct (D2 k h' Hk) as (c & Hc & Hid). exists c. split; [|exact Hid].
    rewrite lookup_delete_ne; [exact Hc|]. intros ->. congruence.
  - intros k t Hl Hs. destruct (decide (k = taskId)) as [->|Hne].
    + exfalso. now apply (Hself t).
    + rewrite Hother in Hl by exact Hne. destruct (D3 k t Hl Hs) as (h' & Hk).
      exists h'. now rewrite lookup_delete_ne by (now apply not_eq_sym).
  - intros h' c Hc. apply lookup_delete_Some in Hc as [_ Hc]. now apply (D4 h' c).
Qed.

(** A task that was not [downloading] (or not there) is stored as
    [downloading] and an interval is registered for it. *)
Lemma drivers_ok_started st taskId rnd task :
  drivers_ok st ->
  (forall t, activeDownloads st !! taskId = Some t ->
             DownloadTask.status t <> downloading) ->
  DownloadTask.status task = downloading ->
  drivers_ok (snd (simulateDownloadProgress taskId rnd
                     (set_activeDownloads (insert taskId task) st))).
Proof.
  intros (D1 & D2 & D3 & D4) Hnot Hs.
  assert (Hnone : forall h c, timers st !! h = Some c -> closure_taskId c <> taskId).
  { intros h c Hc Heq. destruct (D1 h c Hc) as (_ & t & Hl & Hst).
    rewrite Heq in Hl. now apply (Hnot t). }
  assert (Hfree : timers st !! next_handle st = None).
  { destruct (timers st !! next_handle st) as [c|] eqn:E; [|reflexivity].
    apply D4 in E. lia. }
  rewrite simulateDownloadProgress_eq. cbn [snd]. simpl.
  rewrite lookup_insert_eq. unfold drivers_ok. simpl. repeat split.
  - destruct (decide (next_handle st = h)) as [<-|Hne].
    + rewrite lookup_insert_eq in H. injection H as <-. simpl. apply lookup_insert_eq.
    + rewrite lookup_insert_ne in H by exact Hne.
      rewrite lookup_insert_ne by (apply not_eq_sym; now apply (Hnone h c)).
      now apply D1.
  - destruct (decide (next_handle st = h)) as [<-|Hne].
    + rewrite lookup_insert_eq in H. injection H as <-. simpl.
      exists task. split; [apply lookup_insert_eq | exact Hs].
    + rewrite lookup_insert_ne in H by exact Hne.
      destruct (D1 h c H) as (_ & t & Hl & Hst). exists t.
      rewrite lookup_insert_ne by (apply not_eq_sym; now apply (Hnone h c)). auto.
  - intros k h Hk. destruct (decide (taskId = k)) as [<-|Hne].
    + rewrite lookup_insert_eq in Hk. injection Hk as <-.
      eexists. split; [apply lookup_insert_eq | reflexivity].
    + rewrite lookup_insert_ne in Hk by exact Hne.
      destruct (D2 k h Hk) as (c & Hc & Hid). exists c. split; [|exact Hid].
      rewrite lookup_insert_ne; [exact Hc|]. intros <-. congruence.
  - intros k t Hl Hst. destruct (decide (taskId = k)) as [<-|Hne].
    + eexists. apply lookup_insert_eq.
    + rewrite lookup_insert_ne in Hl by exact Hne.
      destruct (D3 k t Hl Hst) as (h & Hk). exists h.
      now rewrite lookup_insert_ne by exact Hne.
  - intros h c Hc. destruct (decide (next_handle st = h)) as [<-|Hne]; [lia|].
    rewrite lookup_insert_ne in Hc by exact Hne. apply D4 in Hc. lia.
Qed.

Lemma drivers_ok_run_op o st :
  drivers_ok st -> op_fresh st o -> drivers_ok (run_op o st).
Proof.
  intros HD Hfresh.
  pose proof HD as (D1 & D2 & D3 & D4).
  destruct o as [taskId now rnd vi q|taskId now rnd vi md|h rnd now
                 |taskId now|taskId rnd|taskId|]; simpl in *.
  - (* startDownload *)
    rewrite startDownload_eq. destruct (QualityOption.available q); [|exact HD].
    cbv zeta. cbn [snd]. apply drivers_ok_started; [exact HD| |reflexivity].
    intros t Ht. congruence.
  - (* startMP3Download *)
    rewrite startMP3Download_eq.
    destruct (find is_mp3 (VideoInfo.qualities vi)) as [q|]; [|exact HD].
    destruct (negb (QualityOption.available q)); [exact HD|].
    destruct (match QualityOption.bitrate q with
              | Some b => truthy b && ltb b MIN_AUDIO_BITRATE
              | None => false
              end); [exact HD|].
    cbv zeta.
    assert (Hst : drivers_ok
                    (snd (simulateDownloadProgress taskId rnd
                            (set_activeDownloads
                               (insert taskId (started_task taskId now vi q None)) st))))
      by (apply drivers_ok_started; [exact HD| |reflexivity]; intros t Ht; congruence).
    destruct md as [m|]; cbn [snd]; [|exact Hst].
    destruct (simulateDownloadProgress_activeDownloads taskId rnd
                (set_activeDownloads
                   (insert taskId (started_task taskId now vi q None)) st))
      as (st' & Hs & Ha).
    rewrite Hs in *. cbn [snd] in *.
    apply (drivers_ok_same st'); try reflexivity; [exact Hst| |]; simpl.
    + intros k t' Hl Hd. destruct (decide (taskId = k)) as [<-|Hne].
      * rewrite Ha. simpl. eexists. split; [apply lookup_insert_eq | reflexivity].
      * rewrite lookup_insert_ne in Hl by exact Hne. eauto.
    + intros k t Hl Hd. destruct (decide (taskId = k)) as [<-|Hne].
      * eexists. split; [apply lookup_insert_eq | reflexivity].
      * rewrite lookup_insert_ne by exact Hne. eauto.
  - (* a firing *)
    destruct (timers st !! h) as [c|] eqn:Hc;
      [|now rewrite interval_callback_idle].
    destruct (D1 h c Hc) as (Hreg & t & Hl & Hs).
    rewrite (interval_callback_active _ _ _ _ c t Hc Hl Hs). cbv zeta.
    destruct (tick_task c rnd now t) as [i v q0 s p sa pa ca e am] eqn:Et.
    destruct (leb 100 _) eqn:E.
    + (* completed: the interval clears itself *)
      apply (drivers_ok_stopped st _ (closure_taskId c) h); try reflexivity;
        [exact HD | exact Hreg | |]; simpl.
      * intros k Hne. now rewrite lookup_insert_ne by (now apply not_eq_sym).
      * intros t'. rewrite lookup_insert_eq. intros [= <-].
        unfold tick_task in Et. cbv zeta in Et. rewrite E in Et.
        injection Et as _ _ _ <- _ _ _ _ _ _. discriminate.
    + assert (Hsame : s = downloading).
      { unfold tick_task in Et. cbv zeta in Et. rewrite E in Et.
        injection Et as _ _ _ <- _ _ _ _ _ _. exact Hs. }
      apply (drivers_ok_same st); try reflexivity; [exact HD| |]; simpl.
      * intros k t' Hl' Hd. destruct (decide (closure_taskId c = k)) as [<-|Hne];
          [eauto|]. rewrite lookup_insert_ne in Hl' by exact Hne. eauto.
      * intros k t0 Hl0 Hd. destruct (decide (closure_taskId c = k)) as [<-|Hne].
        -- eexists. split; [apply lookup_insert_eq | exact Hsame].
        -- rewrite lookup_insert_ne by exact Hne. eauto.
  - (* pauseDownload *)
    destruct (activeDownloads st !! taskId) as [t|] eqn:Ht;
      [|now rewrite pauseDownload_not_found].
    destruct (status_eqb (DownloadTask.status t) downloading) eqn:Hs.
    + apply status_eqb_eq in Hs. rewrite (pauseDownload_ok st taskId now t Ht Hs).
      cbn [snd]. rewrite stop_interval_eq. cbn [snd].
      destruct (D3 taskId t Ht Hs) as (h & Hh). rewrite Hh.
      apply (drivers_ok_stopped st _ taskId h); try reflexivity; [exact HD|exact Hh| |];
        simpl.
      * intros k Hne. now rewrite lookup_insert_ne by (now apply not_eq_sym).
      * intros t'. rewrite lookup_insert_eq. intros [= <-]. discriminate.
    + apply status_eqb_neq in Hs. now rewrite (pauseDownload_invalid st taskId now t).
  - (* resumeDownload *)
    destruct (activeDownloads st !! taskId) as [t|] eqn:Ht;
      [|now rewrite resumeDownload_not_found].
    destruct (status_eqb (DownloadTask.status t) paused) eqn:Hs.
    + apply status_eqb_eq in Hs. rewrite (resumeDownload_ok st taskId rnd t Ht Hs).
      cbn [snd]. apply drivers_ok_started; [exact HD| |reflexivity].
      intros t' Ht'. rewrite Ht in Ht'. injection Ht' as <-. rewrite Hs. discriminate.
    + apply status_eqb_neq in Hs. now rewrite (resumeDownload_invalid st taskId rnd t).
  - (* cancelDownload *)
    destruct (activeDownloads st !! taskId) as [t|] eqn:Ht;
      [|now rewrite cancelDownload_not_found].
    rewrite (cancelDownload_ok st taskId t Ht). cbn [snd].
    rewrite stop_interval_eq. cbn [snd].
    destruct (downloadIntervals st !! taskId) as [h|] eqn:Hh.
    + apply (drivers_ok_stopped st _ taskId h); try reflexivity; [exact HD|exact Hh| |];
        simpl.
      * intros k Hne. now rewrite lookup_delete_ne by (now apply not_eq_sym).
      * intros t'. now rewrite lookup_delete_eq.
    + apply (drivers_ok_same st); try reflexivity; [exact HD| |]; simpl.
      * intros k t' Hl Hd. apply lookup_delete_Some in Hl as [_ Hl]. eauto.
      * intros k t0 Hl0 Hd. destruct (decide (taskId = k)) as [<-|Hne].
        -- destruct (D3 taskId t0 Hl0 Hd) as (h & Hk). congruence.
        -- rewrite lookup_delete_ne by exact Hne. eauto.
  - (* clearCompletedDownloads *)
    unfold clearCompletedDownloads. unfold_M. cbn [snd].
    apply (drivers_ok_same st); try reflexivity; [exact HD| |]; simpl.
    + intros k t' Hl Hd. apply map_lookup_filter_Some_1_1 in Hl. eauto.
    + intros k t Hl Hd. exists t. split; [|exact Hd].
      apply map_lookup_filter_Some_2; [exact Hl|]. simpl. now rewrite Hd.
Qed.

Lemma reachable_fresh_drivers_ok st : reachable_fresh st -> drivers_ok st.
Proof.
  induction 1 as [|st o _ IH _ Hf].
  - apply drivers_ok_initial.
  - now apply drivers_ok_run_op.
Qed.

(** X5.  One interval per downloading task.  In every state reached with task
    ids that were fresh when generated: two live intervals of the same task
    are the same interval; the task of a live interval is in the registry
    and [downloading]; a [downloading] task has a live interval, and it is
    the one the table of intervals registers; a task that is paused or
    completed, and an id that is not in the registry, have none. *)
Theorem one_interval_per_task (st : State) :
  reachable_fresh st ->
  (forall h1 h2 c1 c2,
     timers st !! h1 = Some c1 -> timers st !! h2 = Some c2 ->
     closure_taskId c1 = closure_taskId c2 -> h1 = h2) /\
  (forall h c, timers st !! h = Some c ->
     exists task, activeDownloads st !! closure_taskId c = Some task /\
                  DownloadTask.status task = downloading) /\
  (forall taskId task,
     activeDownloads st !! taskId = Some task ->
     DownloadTask.status task = downloading ->
     exists h c, downloadIntervals st !! taskId = Some h /\
                 timers st !! h = Some c /\ closure_taskId c = taskId).
Proof.
  intros Hreach. destruct (reachable_fresh_drivers_ok st Hreach) as (D1 & D2 & D3 & D4).
  split; [|split].
  - intros h1 h2 c1 c2 H1 H2 Heq.
    destruct (D1 h1 c1 H1) as (R1 & _). destruct (D1 h2 c2 H2) as (R2 & _).
    rewrite Heq in R1. congruence.
  - intros h c Hc. now destruct (D1 h c Hc).
  - intros taskId task Hl Hs. destruct (D3 taskId task Hl Hs) as (h & Hh).
    destruct (D2 taskId h Hh) as (c & Hc & Hid). eauto.
Qed.

Lemma sample_running_reachable_fresh : reachable_fresh Sample.st_running.
Proof.
  change Sample.st_running
    with (run_op (Tick 0%nat 0 100)
            (run_op (Start "dl_2" 0 0 Sample.video Sample.quality1080) initial_state)).
  apply reachable_fresh_step; [|simpl; unfold random_ok; lra|exact I].
  apply reachable_fresh_step;
    [apply reachable_fresh_initial | simpl; unfold random_ok; lra | reflexivity].
Qed.

Lemma one_interval_per_task_witness :
  (forall h1 h2 c1 c2,
     timers Sample.st_running !! h1 = Some c1 -> timers Sample.st_running !! h2 = Some c2 ->
     closure_taskId c1 = closure_taskId c2 -> h1 = h2) /\
  (forall h c, timers Sample.st_running !! h = Some c ->
     exists task, activeDownloads Sample.st_running !! closure_taskId c = Some task /\
                  DownloadTask.status task = downloading) /\
  (forall taskId task,
     activeDownloads Sample.st_running !! taskId = Some task ->
     DownloadTask.status task = downloading ->
     exists h c, downloadIntervals Sample.st_running !! taskId = Some h /\
                 timers Sample.st_running !! h = Some c /\ closure_taskId c = taskId).
Proof. exact (one_interval_per_task Sample.st_running sample_running_reachable_fresh). Defined.

(** ** Firings never add or remove a task *)

Lemma interval_callback_dom h rnd now st :
  dom (activeDownloads (interval_callback h rnd now st)) = dom (activeDownloads st).
Proof.
  destruct (interval_callback_registry h rnd now st) as [E|(c & t & _ & Hl & _ & E)];
    rewrite E; [reflexivity|].
  apply dom_insert_lookup_L. now rewrite Hl.
Qed.

Lemma tick_ops_dom ticks st :
  dom (activeDownloads (run_ops (tick_ops ticks) st)) = dom (activeDownloads st).
Proof.
  revert st. induction ticks as [|[[h rnd] now] ticks IH]; intros st; [reflexivity|].
  simpl. rewrite IH. apply interval_callback_dom.
Qed.

(** X6.  Firings never add or remove a task: whatever intervals fire, with
    whatever random numbers, the registry holds the same set of task ids
    afterwards; so an id that [cancelDownload] removed stays absent, and no
    later firing brings the task back. *)
Theorem firings_keep_task_ids (st : State) (ticks : list (nat * Q * Z)) :
  dom (activeDownloads (run_ops (tick_ops ticks) st)) = dom (activeDownloads st) /\
  (forall taskId st',
     cancelDownload taskId st = (Ok tt, st') ->
     activeDownloads (run_ops (tick_ops ticks) st') !! taskId = None).
Proof.
  split; [apply tick_ops_dom|].
  intros taskId st' Hc.
  destruct (activeDownloads st !! taskId) as [t|] eqn:Ht;
    [|rewrite cancelDownload_not_found in Hc by exact Ht; discriminate].
  destruct (cancelDownload_found st taskId t Ht) as (st1 & Hc1 & Ha).
  rewrite Hc in Hc1. injection Hc1 as <-.
  apply not_elem_of_dom. rewrite tick_ops_dom. apply not_elem_of_dom.
  rewrite Ha. apply lookup_delete_eq.
Qed.

Lemma firings_keep_task_ids_witness :
  dom (activeDownloads (run_ops (tick_ops [(0%nat, 0, 300%Z); (1%nat, 0, 400%Z)])
                          Sample.st_running))
  = dom (activeDownloads Sample.st_running) /\
  exists st',
    cancelDownload "dl_2" Sample.st_running = (Ok tt, st') /\
    activeDownloads (run_ops (tick_ops [(0%nat, 0, 300%Z); (1%nat, 0, 400%Z)]) st')
      !! "dl_2" = None.
Proof.
  assert (exists st', cancelDownload "dl_2" Sample.st_running = (Ok tt, st'))
    as (st' & Hc) by (eexists; vm_compute; reflexivity).
  destruct (firings_keep_task_ids Sample.st_running
              [(0%nat, 0, 300%Z); (1%nat, 0, 400%Z)]) as [Hd Hgone].
  split; [exact Hd|]. exists st'. split; [exact Hc | exact (Hgone "dl_2" st' Hc)].
Defined.

(** ** Completed tasks stay as they are *)

Lemma run_op_keeps_finished o st taskId task :
  activeDownloads st !! taskId = Some task ->
  DownloadTask.status task <> downloading ->
  DownloadTask.status task <> paused ->
  keeps_task taskId o ->
  activeDownloads (run_op o st) !! taskId = Some task.
Proof.
  intros Hl Hnd Hnp Hk.
  destruct o as [k now rnd vi q|k now rnd vi md|h rnd now|k now|k rnd|k|]; simpl in *.
  - rewrite startDownload_eq. destruct (QualityOption.available q); [|exact Hl].
    cbv zeta. cbn [snd]. rewrite simulateDownloadProgress_eq. cbn [snd]. simpl.
    rewrite lookup_insert_eq. simpl. now rewrite lookup_insert_ne.
  - rewrite startMP3Download_eq.
    destruct (find is_mp3 (VideoInfo.qualities vi)) as [q|]; [|exact Hl].
    destruct (negb (QualityOption.available q)); [exact Hl|].
    destruct (match QualityOption.bitrate q with
              | Some b => truthy b && ltb b MIN_AUDIO_BITRATE
              | None => false
              end); [exact Hl|].
    cbv zeta. rewrite simulateDownloadProgress_eq. cbn [snd]. simpl.
    rewrite lookup_insert_eq.
    destruct md; cbn [snd]; simpl; now rewrite !lookup_insert_ne.
  - now apply interval_callback_paused.
  - destruct (decide (k = taskId)) as [->|Hne].
    + now rewrite (pauseDownload_invalid st taskId now task).
    + destruct (activeDownloads st !! k) as [t|] eqn:Ht;
        [|now rewrite pauseDownload_not_found].
      destruct (status_eqb (DownloadTask.status t) downloading) eqn:Hs.
      * apply status_eqb_eq in Hs. rewrite (pauseDownload_ok st k now t Ht Hs).
        cbn [snd]. rewrite stop_interval_eq. cbn [snd].
        destruct (downloadIntervals st !! k); simpl; now rewrite lookup_insert_ne.
      * apply status_eqb_neq in Hs. now rewrite (pauseDownload_invalid st k now t).
  - destruct (decide (k = taskId)) as [->|Hne].
    + now rewrite (resumeDownload_invalid st taskId rnd task).
    + destruct (activeDownloads st !! k) as [t|] eqn:Ht;
        [|now rewrite resumeDownload_not_found].
      destruct (status_eqb (DownloadTask.status t) paused) eqn:Hs.
      * apply status_eqb_eq in Hs. rewrite (resumeDownload_ok st k rnd t Ht Hs).
        cbn [snd]. rewrite simulateDownloadProgress_eq. cbn [snd]. simpl.
        rewrite lookup_insert_eq. simpl. now rewrite lookup_insert_ne.
      * apply status_eqb_neq in Hs. now rewrite (resumeDownload_invalid st k rnd t).
  - destruct (activeDownloads st !! k) as [t|] eqn:Ht;
      [|now rewrite cancelDownload_not_found].
    destruct (cancelDownload_found st k t Ht) as (st' & -> & Ha). cbn [snd].
    rewrite Ha. now rewrite lookup_delete_ne.
  - contradiction.
Qed.

(** X7.  [completed] is terminal.  Once a task is completed, every later call
    that does not remove it (cancel of its id, the sweep of finished tasks)
    or start a task under its id leaves it exactly as it is: firings do not
    touch it, and pausing or resuming it throws. *)
Theorem completed_task_is_final (st : State) (taskId : string) (task : DownloadTask.t)
    (ops : list Op) :
  activeDownloads st !! taskId = Some task ->
  DownloadTask.status task = completed ->
  Forall (keeps_task taskId) ops ->
  activeDownloads (run_ops ops st) !! taskId = Some task /\
  (forall now, exists st',
     pauseDownload taskId now (run_ops ops st) = (Throw (CannotPause completed), st')) /\
  (forall rnd, exists st',
     resumeDownload taskId rnd (run_ops ops st) = (Throw (CannotResume completed), st')).
Proof.
  intros Hl Hs Hk.
  assert (Hfinal : activeDownloads (run_ops ops st) !! taskId = Some task).
  { revert st Hl. induction Hk as [|o ops Ho _ IH]; intros st Hl; [exact Hl|].
    simpl. apply IH. apply run_op_keeps_finished; auto; rewrite Hs; discriminate. }
  split; [exact Hfinal|]. split.
  - intros now. eexists. rewrite <- Hs. apply pauseDownload_invalid; [exact Hfinal|].
    rewrite Hs. discriminate.
  - intros rnd. eexists. rewrite <- Hs. apply resumeDownload_invalid; [exact Hfinal|].
    rewrite Hs. discriminate.
Qed.

Lemma completed_task_is_final_witness :
  exists task,
    activeDownloads Sample.st_completed !! "dl_1" = Some task /\
    activeDownloads
      (run_ops [Tick 0%nat 0 300; Pause "dl_1" 400; Resume "dl_1" 0;
                Start "dl_7" 500 0 Sample.video Sample.quality1080; Cancel "dl_7"]
         Sample.st_completed) !! "dl_1" = Some task.
Proof.
  assert (exists task, activeDownloads Sample.st_completed !! "dl_1" = Some task /\
                       DownloadTask.status task = completed) as (task & Hl & Hs)
    by (eexists; split; [vm_compute; reflexivity | reflexivity]).
  exists task. split; [exact Hl|].
  apply (completed_task_is_final Sample.st_completed "dl_1" task); [exact Hl|exact Hs|].
  repeat constructor; simpl; discriminate.
Defined.

(** ** A download of a positive size completes *)

Lemma ticks_of_dead h ticks st :
  timers st !! h = None -> run_ops (ticks_of h ticks) st = st.
Proof.
  intros Hd. induction ticks as [|[rnd now] ticks IH]; [reflexivity|].
  simpl. now rewrite interval_callback_idle.
Qed.

Lemma ticks_of_random_ok h ticks :
  Forall (fun t => random_ok (fst t)) ticks -> Forall op_random_ok (ticks_of h ticks).
Proof. induction 1; constructor; auto. Qed.

(** A firing that does not complete the task adds at least 40000 bytes. *)
Lemma tick_progress_step c rnd task :
  timer_inv c -> 0 <= rnd ->
  0 < DownloadProgress.totalBytes (DownloadTask.progress task) ->
  leb 100 (DownloadProgress.percentage (tick_progress c rnd task)) = false ->
  DownloadProgress.downloadedBytes (DownloadTask.progress task) + 40000
  <= DownloadProgress.downloadedBytes (tick_progress c rnd task).
Proof.
  intros Hc Hr Ht E. apply leb_false in E.
  pose proof (tick_speed_positive _ _ Hc Hr) as Hsp.
  rewrite tick_progress_fields in *. cbv zeta in *. simpl in *.
  set (speed := closure_baseSpeed c * ((8 # 10) + rnd * (4 # 10))) in *.
  destruct (Math_min_cases
              (DownloadProgress.downloadedBytes (DownloadTask.progress task)
               + speed * (1 # 10))
              (DownloadProgress.totalBytes (DownloadTask.progress task)))
    as [[_ Hm]|[_ Hm]].
  - rewrite Hm. clearbody speed. lra.
  - exfalso.
    assert (Hle : DownloadProgress.totalBytes (DownloadTask.progress task)
                  <= Math_min
                       (DownloadProgress.downloadedBytes (DownloadTask.progress task)
                        + speed * (1 # 10))
                       (DownloadProgress.totalBytes (DownloadTask.progress task)))
      by (rewrite Hm; apply Qle_refl).
    pose proof (calculatePercentage_complete _ _ Ht Hle). lra.
Qed.

Lemma download_completes_aux h c ticks :
  forall st task,
    reachable st ->
    timers st !! h = Some c ->
    activeDownloads st !! closure_taskId c = Some task ->
    DownloadTask.status task = downloading ->
    0 < DownloadProgress.totalBytes (DownloadTask.progress task) ->
    Forall (fun t => random_ok (fst t)) ticks ->
    DownloadProgress.totalBytes (DownloadTask.progress task)
    - DownloadProgress.downloadedBytes (DownloadTask.progress task)
    <= 40000 * inject_Z (Z.of_nat (length ticks)) ->
    exists task',
      activeDownloads (run_ops (ticks_of h ticks) st) !! closure_taskId c = Some task' /\
      DownloadTask.status task' = completed /\
      DownloadProgress.totalBytes (DownloadTask.progress task')
      = DownloadProgress.totalBytes (DownloadTask.progress task) /\
      timers (run_ops (ticks_of h ticks) st) !! h = None /\
      downloadIntervals (run_ops (ticks_of h ticks) st) !! closure_taskId c = None.
Proof.
  induction ticks as [|[rnd now] ticks IH]; intros st task Hreach Hc Hl Hs Ht Hrnd Hlen.
  - (* no firing: the task would already be at its total *)
    exfalso. destruct (state_inv_lookup st _ task (reachable_state_inv st Hreach) Hl)
      as [_ Hu].
    specialize (Hu (or_introl Hs) Ht).
    change (inject_Z (Z.of_nat (length (@nil (Q * Z))))) with 0 in Hlen. lra.
  - inversion Hrnd as [|x l Hr0 Hrest]; subst. simpl in Hr0.
    assert (Hreach1 : reachable (run_op (Tick h rnd now) st))
      by (apply reachable_step; [exact Hreach | exact Hr0]).
    simpl in Hreach1. simpl.
    pose proof (reachable_state_inv st Hreach) as Hinv.
    assert (Hti : timer_inv c) by exact (map_Forall_lookup_1 _ _ _ _ (proj2 Hinv) Hc).
    revert Hreach1. rewrite (interval_callback_active _ _ _ _ c task Hc Hl Hs). cbv zeta.
    destruct (leb 100 (DownloadProgress.percentage (tick_progress c rnd task))) eqn:E;
      intros Hreach1.
    + (* this firing completes the task and clears the interval *)
      rewrite ticks_of_dead by (simpl; apply lookup_delete_eq). simpl.
      exists (tick_task c rnd now task).
      split; [apply lookup_insert_eq|]. split; [|split].
      * unfold tick_task. cbv zeta. now rewrite E.
      * unfold tick_task. cbv zeta. now rewrite E.
      * split; apply lookup_delete_eq.
    + (* the task advances by at least 40000 bytes *)
      pose proof (tick_progress_step c rnd task Hti (proj1 Hr0) Ht E) as Hstep.
      assert (Etask : tick_task c rnd now task
                      = DownloadTask.set_progress (tick_progress c rnd task) task)
        by (unfold tick_task; cbv zeta; now rewrite E).
      rewrite Etask in *.
      apply (IH _ (DownloadTask.set_progress (tick_progress c rnd task) task));
        [exact Hreach1 | exact Hc | apply lookup_insert_eq | exact Hs | exact Ht
        | exact Hrest | ].
      cbn [DownloadTask.progress DownloadTask.set_progress].
      change (DownloadProgress.totalBytes (tick_progress c rnd task))
        with (DownloadProgress.totalBytes (DownloadTask.progress task)).
      cbn [length] in Hlen. rewrite Nat2Z.inj_succ in Hlen.
      unfold Z.succ in Hlen. rewrite inject_Z_plus in Hlen.
      set (n := inject_Z (Z.of_nat (length ticks))) in *. clearbody n.
      set (d1 := DownloadProgress.downloadedBytes (tick_progress c rnd task)) in *.
      clearbody d1. change (inject_Z 1) with 1 in Hlen. lra.
Qed.

(** X8.  A download of a positive size completes.  In a reachable state, let a
    task with a positive total be [downloading], driven by a live interval.
    After enough firings of that interval (one for every 40000 bytes still
    to download), whatever the random numbers, the task is [completed], at
    100 percent, with all bytes downloaded, no time remaining and a
    completion time; the interval has cleared itself and is no longer
    registered. *)
Theorem download_completes (st : State) (interval : nat) (c : IntervalClosure)
    (task : DownloadTask.t) (ticks : list (Q * Z)) :
  reachable st ->
  timers st !! interval = Some c ->
  activeDownloads st !! closure_taskId c = Some task ->
  DownloadTask.status task = downloading ->
  0 < DownloadProgress.totalBytes (DownloadTask.progress task) ->
  Forall (fun t => random_ok (fst t)) ticks ->
  DownloadProgress.totalBytes (DownloadTask.progress task)
  - DownloadProgress.downloadedBytes (DownloadTask.progress task)
  <= 40000 * inject_Z (Z.of_nat (length ticks)) ->
  exists task',
    activeDownloads (run_ops (ticks_of interval ticks) st) !! closure_taskId c
    = Some task' /\
    DownloadTask.status task' = completed /\
    DownloadProgress.percentage (DownloadTask.progress task') = 100 /\
    DownloadProgress.downloadedBytes (DownloadTask.progress task')
    = DownloadProgress.totalBytes (DownloadTask.progress task) /\
    DownloadProgress.estimatedTimeRemaining (DownloadTask.progress task') = 0 /\
    is_Some (DownloadTask.completedAt task') /\
    timers (run_ops (ticks_of interval ticks) st) !! interval = None /\
    downloadIntervals (run_ops (ticks_of interval ticks) st) !! closure_taskId c = None.
Proof.
  intros Hreach Hc Hl Hs Ht Hrnd Hlen.
  destruct (download_completes_aux interval c ticks st task Hreach Hc Hl Hs Ht Hrnd Hlen)
    as (task' & Hl' & Hs' & Htot & Hdead & Hunreg).
  assert (Hreach' : reachable (run_ops (ticks_of interval ticks) st))
    by (apply reachable_run_ops; [exact Hreach | now apply ticks_of_random_ok]).
  pose proof (reachable_lifecycle_ok _ _ _ Hreach' Hl') as (_ & _ & _ & Hlife).
  rewrite Hs' in Hlife. destruct Hlife as (_ & Hca & Hp & Hd & He).
  exists task'. repeat split; auto. now rewrite Hd.
Qed.

Lemma download_completes_witness :
  exists task',
    activeDownloads (run_ops (ticks_of 0 (repeat (0, 0%Z) 74)) Sample.st_running) !! "dl_2"
    = Some task' /\
    DownloadTask.status task' = completed /\
    DownloadProgress.percentage (DownloadTask.progress task') = 100 /\
    DownloadProgress.downloadedBytes (DownloadTask.progress task') = 3000000 /\
    timers (run_ops (ticks_of 0 (repeat (0, 0%Z) 74)) Sample.st_running) !! 0%nat = None.
Proof.
  assert (exists task,
            activeDownloads Sample.st_running !! "dl_2" = Some task /\
            DownloadTask.status task = downloading /\
            DownloadProgress.totalBytes (DownloadTask.progress task) = 3000000 /\
            DownloadProgress.totalBytes (DownloadTask.progress task)
            - DownloadProgress.downloadedBytes (DownloadTask.progress task)
            <= 40000 * inject_Z (Z.of_nat (length (repeat (0, 0%Z) 74))))
    as (task & Hl & Hs & Htot & Hlen)
    by (eexists; split; [vm_compute; reflexivity|];
        split; [reflexivity|]; split; [reflexivity|]; vm_compute; discriminate).
  assert (Hc : timers Sample.st_running !! 0%nat
               = Some (Build_IntervalClosure "dl_2" 500000))
    by (vm_compute; reflexivity).
  assert (Hrnd : Forall (fun t : Q * Z => random_ok (fst t)) (repeat (0, 0%Z) 74))
    by (apply Forall_forall; intros x Hx; apply list_elem_of_In, repeat_spec in Hx; subst;
        unfold random_ok; simpl; lra).
  destruct (download_completes Sample.st_running 0 (Build_IntervalClosure "dl_2" 500000)
              task (repeat (0, 0%Z) 74) sample_running_reachable Hc Hl Hs)
    as (task' & Hl' & Hs' & Hp & Hd & _ & _ & Hdead & _);
    [rewrite Htot; reflexivity | exact Hrnd | exact Hlen |].
  exists task'. rewrite Htot in Hd. auto.
Defined.

(** ** Pause, then resume *)

(** X9.  A pause followed by a resume loses nothing but the speed.  For a
    [downloading] task both calls return; afterwards the task is
    [downloading] again with no pause time, its progress is what it was
    with the speed set to 0, its id, video, quality option and start time
    are unchanged, and a new interval, with a base speed drawn afresh, is
    registered for it under the next handle. *)
Theorem pause_then_resume (st : State) (taskId : string) (task : DownloadTask.t)
    (now : Z) (rnd : Q) :
  activeDownloads st !! taskId = Some task ->
  DownloadTask.status task = downloading ->
  exists st1 st2 task2,
    pauseDownload taskId now st = (Ok tt, st1) /\
    resumeDownload taskId rnd st1 = (Ok tt, st2) /\
    activeDownloads st2 !! taskId = Some task2 /\
    DownloadTask.status task2 = downloading /\
    DownloadTask.pausedAt task2 = None /\
    DownloadTask.progress task2
    = DownloadProgress.set_speed 0 (DownloadTask.progress task) /\
    (DownloadTask.id task2, DownloadTask.videoInfo task2, DownloadTask.quality task2,
     DownloadTask.startedAt task2)
    = (DownloadTask.id task, DownloadTask.videoInfo task, DownloadTask.quality task,
       DownloadTask.startedAt task) /\
    downloadIntervals st2 !! taskId = Some (next_handle st) /\
    timers st2 !! next_handle st
    = Some (Build_IntervalClosure taskId (500000 + rnd * 1500000)).
Proof.
  intros Hl Hs.
  pose proof (pauseDownload_ok st taskId now task Hl Hs) as Hp.
  remember (set_activeDownloads (insert taskId (paused_task now task))
              (snd (stop_interval taskId st))) as st1 eqn:Est1.
  assert (Hl1 : activeDownloads st1 !! taskId = Some (paused_task now task))
    by (subst st1; simpl; apply lookup_insert_eq).
  assert (Hn1 : next_handle st1 = next_handle st)
    by (subst st1; rewrite stop_interval_eq; cbn [snd];
        destruct (downloadIntervals st !! taskId); reflexivity).
  pose proof (resumeDownload_ok st1 taskId rnd (paused_task now task) Hl1 eq_refl) as Hr.
  rewrite simulateDownloadProgress_eq in Hr. cbn [snd] in Hr. simpl in Hr.
  rewrite lookup_insert_eq in Hr. rewrite Hn1 in Hr.
  eexists _, _, _. split; [exact Hp|]. split; [exact Hr|]. simpl.
  split; [rewrite lookup_insert_eq; reflexivity|].
  repeat split; apply lookup_insert_eq.
Qed.

Lemma pause_then_resume_witness :
  exists task st1 st2 task2,
    activeDownloads Sample.st_running !! "dl_2" = Some task /\
    pauseDownload "dl_2" 200 Sample.st_running = (Ok tt, st1) /\
    resumeDownload "dl_2" (1 # 2) st1 = (Ok tt, st2) /\
    activeDownloads st2 !! "dl_2" = Some task2 /\
    DownloadTask.status task2 = downloading /\
    DownloadTask.progress task2
    = DownloadProgress.set_speed 0 (DownloadTask.progress task).
Proof.
  assert (exists task, activeDownloads Sample.st_running !! "dl_2" = Some task /\
                       DownloadTask.status task = downloading) as (task & Hl & Hs)
    by (eexists; split; [vm_compute; reflexivity | reflexivity]).
  destruct (pause_then_resume Sample.st_running "dl_2" task 200 (1 # 2) Hl Hs)
    as (st1 & st2 & task2 & Hp & Hr & Hl2 & Hs2 & _ & Hprog & _).
  exists task, st1, st2, task2. repeat split; assumption.
Defined.

(** ** Starting an MP3 download *)

(** X10.  [startMP3Download] works on the first mp3 option of the video.  When
    the video has none, or it is not available, the call throws and the
    state is untouched.  When it is available and its bitrate is absent, 0
    or at least 128, the call returns a [downloading] task of that option,
    with zeroed progress, the option's file size as total and the given
    metadata, and the registry holds this very task under its id.  The POST
    handler, for any available mp3 option the request names, starts that
    task of the video's own mp3 option and answers 200. *)
Theorem startMP3Download_spec (taskId : string) (now : Z) (rnd : Q)
    (videoInfo : VideoInfo.t) (metadata : option AudioMetadata.partial) (st : State) :
  (List.find is_mp3 (VideoInfo.qualities videoInfo) = None ->
   startMP3Download taskId now rnd videoInfo metadata st = (Throw MP3NotAvailable, st)) /\
  (forall q, List.find is_mp3 (VideoInfo.qualities videoInfo) = Some q ->
     (QualityOption.available q = false ->
      startMP3Download taskId now rnd videoInfo metadata st
      = (Throw MP3NotAvailable, st)) /\
     (QualityOption.available q = true ->
      match QualityOption.bitrate q with
      | Some b => b == 0 \/ MIN_AUDIO_BITRATE <= b
      | None => True
      end ->
      exists st',
        startMP3Download taskId now rnd videoInfo metadata st
        = (Ok (started_task taskId now videoInfo q metadata), st') /\
        activeDownloads st' !! taskId
        = Some (started_task taskId now videoInfo q metadata) /\
        (VideoInfo.id videoInfo <> "" ->
         forall requested,
           QualityOption.format requested = mp3 ->
           QualityOption.available requested = true ->
           DownloadRoute.POST taskId now rnd
             (DownloadRoute.Build_DownloadRequest (Some videoInfo) (Some requested)
                metadata) st
           = (DownloadRoute.DownloadResponse taskId downloading "เริ่มดาวน์โหลดแล้ว" 200,
              st')))).
Proof.
  split.
  - intros Hf. rewrite startMP3Download_eq. now rewrite Hf.
  - intros q Hf. split.
    + intros Ha. rewrite startMP3Download_eq. now rewrite Hf, Ha.
    + intros Ha Hb.
      assert (Hgate : match QualityOption.bitrate q with
                      | Some b => truthy b && ltb b MIN_AUDIO_BITRATE
                      | None => false
                      end = false).
      { destruct (QualityOption.bitrate q) as [b|]; [|reflexivity].
        destruct Hb as [Hz|Hge].
        - unfold truthy. apply Qeq_bool_iff in Hz. now rewrite Hz.
        - apply Bool.andb_false_iff. right. unfold ltb.
          apply leb_true in Hge. unfold leb in Hge. now rewrite Hge. }
      pose proof (startMP3Download_eq taskId now rnd videoInfo metadata st) as E.
      rewrite Hf, Ha, Hgate in E. cbv zeta in E. cbn [negb] in E.
      rewrite simulateDownloadProgress_eq in E. cbn [snd] in E. simpl in E.
      rewrite lookup_insert_eq in E.
      destruct metadata as [m|].
      * eexists. split; [exact E|]. split; [simpl; apply lookup_insert_eq|].
        intros Hid requested Hfmt Havail. unfold DownloadRoute.POST. simpl.
        destruct (String.eqb (VideoInfo.id videoInfo) "") eqn:Ee;
          [apply String.eqb_eq in Ee; contradiction|].
        rewrite Havail, Hfmt. simpl. rewrite E. reflexivity.
      * eexists. split; [exact E|]. split; [simpl; apply lookup_insert_eq|].
        intros Hid requested Hfmt Havail. unfold DownloadRoute.POST. simpl.
        destruct (String.eqb (VideoInfo.id videoInfo) "") eqn:Ee;
          [apply String.eqb_eq in Ee; contradiction|].
        rewrite Havail, Hfmt. simpl. rewrite E. reflexivity.
Qed.

Lemma startMP3Download_spec_witness :
  (exists st',
     startMP3Download "dl_5" 7 0 Sample.video None initial_state
     = (Ok (started_task "dl_5" 7 Sample.video Sample.qualityMp3 None), st') /\
     activeDownloads st' !! "dl_5"
     = Some (started_task "dl_5" 7 Sample.video Sample.qualityMp3 None)) /\
  startMP3Download "dl_5" 7 0
    (VideoInfo.mk "abc123" "Sample" "" "" 60 youtube [Sample.quality720]) None initial_state
  = (Throw MP3NotAvailable, initial_state).
Proof.
  split.
  - destruct (proj2 (startMP3Download_spec "dl_5" 7 0 Sample.video None initial_state)
                Sample.qualityMp3 eq_refl) as [_ Hok].
    destruct (Hok eq_refl) as (st' & Hs & Hl & _).
    + right. unfold MIN_AUDIO_BITRATE. lra.
    + exists st'. auto.
  - apply (proj1 (startMP3Download_spec "dl_5" 7 0
                    (VideoInfo.mk "abc123" "Sample" "" "" 60 youtube [Sample.quality720])
                    None initial_state)). reflexivity.
Defined.

(** ** The sweep of finished tasks *)

Lemma clearCompletedDownloads_lookup st taskId :
  activeDownloads (snd (clearCompletedDownloads st)) !! taskId
  = match activeDownloads st !! taskId with
    | Some task => if finished task then None else Some task
    | None => None
    end.
Proof.
  unfold clearCompletedDownloads. unfold_M. cbn [snd]. simpl.
  destruct (activeDownloads st !! taskId) as [task|] eqn:Hl.
  - destruct (finished task) eqn:Hf.
    + apply map_lookup_filter_None. right. intros t Ht. simpl.
      rewrite Hl in Ht. injection Ht as <-. unfold finished in Hf. now rewrite Hf.
    + apply map_lookup_filter_Some. split; [exact Hl|]. simpl.
      unfold finished in Hf. now rewrite Hf.
  - apply map_lookup_filter_None. now left.
Qed.

(** X11.  The sweep removes exactly the finished tasks.  [clearCompletedDownloads]
    never throws; afterwards the registry holds every task that was neither
    [completed] nor [failed], unchanged, and no other; the intervals are
    untouched; and a second sweep changes nothing. *)
Theorem clearCompletedDownloads_spec (st : State) :
  exists st',
    clearCompletedDownloads st = (Ok tt, st') /\
    (forall taskId,
       activeDownloads st' !! taskId
       = match activeDownloads st !! taskId with
         | Some task => if finished task then None else Some task
         | None => None
         end) /\
    downloadIntervals st' = downloadIntervals st /\
    timers st' = timers st /\
    clearCompletedDownloads st' = (Ok tt, st').
Proof.
  eexists. split; [reflexivity|]. split; [|split; [reflexivity|split; [reflexivity|]]].
  - intros taskId. exact (clearCompletedDownloads_lookup st taskId).
  - unfold clearCompletedDownloads at 1. unfold_M. f_equal.
    unfold set_activeDownloads. cbn [activeDownloads downloadIntervals timers next_handle].
    f_equal. apply map_eq. intros taskId.
    pose proof (clearCompletedDownloads_lookup
                  (snd (clearCompletedDownloads st)) taskId) as E2.
    pose proof (clearCompletedDownloads_lookup st taskId) as E1.
    unfold clearCompletedDownloads in E1, E2. unfold_M. cbn [snd] in E1, E2.
    simpl in E1, E2. rewrite E2, E1.
    destruct (activeDownloads st !! taskId) as [task|]; [|reflexivity].
    destruct (finished task) eqn:Hf; [reflexivity | now rewrite Hf].
Qed.

(** ** Asking for a task over HTTP *)

Lemma POST_started taskId now rnd body st status message st' :
  DownloadRoute.POST taskId now rnd body st
  = (DownloadRoute.DownloadResponse taskId status message 200, st') ->
  exists task, activeDownloads st' !! taskId = Some task /\
               DownloadTask.id task = taskId /\
               DownloadTask.status task = status /\ status = downloading.
Proof.
  unfold DownloadRoute.POST.
  destruct (DownloadRoute.videoInfo body) as [vi|]; [|discriminate].
  destruct (String.eqb (VideoInfo.id vi) ""); [discriminate|].
  destruct (DownloadRoute.quality body) as [q|]; [|discriminate].
  destruct (negb (QualityOption.available q)) eqn:Ea; [discriminate|].
  apply Bool.negb_false_iff in Ea.
  destruct (QualityOption.format q).
  - rewrite startDownload_eq, Ea. cbv zeta.
    rewrite simulateDownloadProgress_eq. cbn [snd]. simpl.
    rewrite lookup_insert_eq. intros H. inversion H; subst. simpl.
    eexists. split; [apply lookup_insert_eq|]. auto.
  - rewrite startMP3Download_eq.
    destruct (find is_mp3 (VideoInfo.qualities vi)) as [q'|]; [|discriminate].
    destruct (negb (QualityOption.available q')); [discriminate|].
    destruct (match QualityOption.bitrate q' with
              | Some b => truthy b && ltb b MIN_AUDIO_BITRATE
              | None => false
              end); [discriminate|].
    cbv zeta. rewrite simulateDownloadProgress_eq. cbn [snd]. simpl.
    rewrite lookup_insert_eq.
    destruct (DownloadRoute.audioMetadata body); simpl; intros H; inversion H; subst;
      simpl; (eexists; split; [apply lookup_insert_eq|]; auto).
Qed.

(** X12.  The status endpoint answers for what the POST handler started.  GET
    without a task id answers 400 and GET of an id the registry does not
    hold answers 404, both with the code [INVALID_REQUEST]; after a POST
    that answered 200 with a task id, GET of that id answers 200 with the
    task, which carries that id and is [downloading]. *)
Theorem status_endpoint_spec (taskId : string) (st : State) :
  taskId <> "" ->
  (exists message,
     DownloadStatusRoute.GET None st
     = DownloadStatusRoute.ErrorResponse message DownloadRoute.INVALID_REQUEST 400) /\
  (activeDownloads st !! taskId = None ->
   exists message,
     DownloadStatusRoute.GET (Some taskId) st
     = DownloadStatusRoute.ErrorResponse message DownloadRoute.INVALID_REQUEST 404) /\
  (forall now rnd body status message st',
     DownloadRoute.POST taskId now rnd body st
     = (DownloadRoute.DownloadResponse taskId status message 200, st') ->
     exists task,
       DownloadStatusRoute.GET (Some taskId) st'
       = DownloadStatusRoute.TaskResponse task 200 /\
       DownloadTask.id task = taskId /\
       DownloadTask.status task = downloading).
Proof.
  intros Hne.
  assert (Ee : String.eqb taskId "" = false)
    by (destruct (String.eqb taskId "") eqn:E; [apply String.eqb_eq in E; contradiction
                                               |reflexivity]).
  split; [eexists; reflexivity|]. split.
  - intros Hl. unfold DownloadStatusRoute.GET, getDownloadTask. rewrite Ee, Hl.
    eexists; reflexivity.
  - intros now rnd body status message st' Hpost.
    destruct (POST_started _ _ _ _ _ _ _ _ Hpost) as (task & Hl & Hid & Hs & ->).
    exists task. unfold DownloadStatusRoute.GET, getDownloadTask. rewrite Ee, Hl. auto.
Qed.

Lemma status_endpoint_spec_witness :
  (exists message,
     DownloadStatusRoute.GET (Some "dl_9") initial_state
     = DownloadStatusRoute.ErrorResponse message DownloadRoute.INVALID_REQUEST 404) /\
  exists st' task,
    DownloadRoute.POST "dl_9" 0 0
      (DownloadRoute.Build_DownloadRequest (Some Sample.video) (Some Sample.quality1080)
         None) initial_state
    = (DownloadRoute.DownloadResponse "dl_9" downloading "เริ่มดาวน์โหลดแล้ว" 200, st') /\
    DownloadStatusRoute.GET (Some "dl_9") st' = DownloadStatusRoute.TaskResponse task 200 /\
    DownloadTask.status task = downloading.
Proof.
  assert (Hne : "dl_9" <> "") by discriminate.
  destruct (status_endpoint_spec "dl_9" initial_state Hne) as (_ & H404 & Hget).
  split; [apply H404; reflexivity|].
  assert (exists st',
            DownloadRoute.POST "dl_9" 0 0
              (DownloadRoute.Build_DownloadRequest (Some Sample.video)
                 (Some Sample.quality1080) None) initial_state
            = (DownloadRoute.DownloadResponse "dl_9" downloading "เริ่มดาวน์โหลดแล้ว" 200,
               st')) as (st' & Hpost) by (eexists; vm_compute; reflexivity).
  destruct (Hget _ _ _ _ _ _ Hpost) as (task & Hg & _ & Hs).
  exists st', task. auto.
Defined.

(** ** The video extractor *)

Lemma quality_eqb_eq a b : VideoExtractor.quality_eqb a b = true <-> a = b.
Proof. destruct a, b; simpl; split; (reflexivity || discriminate). Qed.

Lemma includes_In l q : VideoExtractor.includes l q = true <-> In q l.
Proof.
  unfold VideoExtractor.includes. rewrite existsb_exists. split.
  - intros (x & Hx & E). apply quality_eqb_eq in E. now subst.
  - intros H. exists q. split; [exact H|]. now apply quality_eqb_eq.
Qed.

Lemma includes_not_In l q : VideoExtractor.includes l q = false <-> ~ In q l.
Proof.
  rewrite <- includes_In. destruct (VideoExtractor.includes l q); split; congruence.
Qed.

(** A list of qualities that is not empty includes one of the five. *)
Lemma includes_some l :
  l <> [] ->
  VideoExtractor.includes l q360p = true \/ VideoExtractor.includes l q480p = true \/
  VideoExtractor.includes l q720p = true \/ VideoExtractor.includes l q1080p = true \/
  VideoExtractor.includes l q4k = true.
Proof.
  destruct l as [|a l]; [congruence|]. intros _.
  assert (H : VideoExtractor.includes (a :: l) a = true)
    by (apply includes_In; now left).
  destruct a; auto.
Qed.

Lemma includes_nil q : VideoExtractor.includes [] q = false.
Proof. reflexivity. Qed.

Ltac split_includes l :=
  destruct (VideoExtractor.includes l q360p) eqn:?I360,
           (VideoExtractor.includes l q480p) eqn:?I480,
           (VideoExtractor.includes l q720p) eqn:?I720,
           (VideoExtractor.includes l q1080p) eqn:?I1080,
           (VideoExtractor.includes l q4k) eqn:?I4k.

Lemma getRecommendedQuality_included l original :
  l <> [] ->
  VideoExtractor.includes l (VideoExtractor.getRecommendedQuality l original) = true.
Proof.
  intros Hne. pose proof (includes_some l Hne) as Hsome.
  unfold VideoExtractor.getRecommendedQuality. cbv zeta.
  destruct original as [o|].
  - destruct (VideoExtractor.includes l o) eqn:Eo; [exact Eo|].
    cbn [find]. split_includes l; try reflexivity; try assumption.
    destruct Hsome as [H|[H|[H|[H|H]]]]; discriminate.
  - cbn [find]. split_includes l; try reflexivity; try assumption.
    destruct Hsome as [H|[H|[H|[H|H]]]]; discriminate.
Qed.

Lemma getRecommendedQuality_highest l q :
  VideoExtractor.includes l q = true ->
  (VideoExtractor.rank q
   <= VideoExtractor.rank
        (match List.find (VideoExtractor.includes l) [q4k; q1080p; q720p; q480p; q360p] with
         | Some quality => quality
         | None => q720p
         end))%nat.
Proof.
  intros Hq. cbn [find].
  split_includes l; destruct q; simpl; try lia; congruence.
Qed.

(** X13.  [getRecommendedQuality] recommends a quality that is offered.  For a
    list of available qualities that is not empty the result is in the
    list; it is the original quality whenever that one is in the list, and
    otherwise the highest quality of the list.  For the empty list the
    result is 720p. *)
Theorem getRecommendedQuality_spec (availableQualities : list VideoQuality)
    (originalQuality : option VideoQuality) :
  (availableQualities <> [] ->
   In (VideoExtractor.getRecommendedQuality availableQualities originalQuality)
      availableQualities) /\
  (forall original,
     originalQuality = Some original -> In original availableQualities ->
     VideoExtractor.getRecommendedQuality availableQualities originalQuality = original) /\
  ((forall original, originalQuality = Some original -> ~ In original availableQualities) ->
   forall quality, In quality availableQualities ->
     (VideoExtractor.rank quality
      <= VideoExtractor.rank
           (VideoExtractor.getRecommendedQuality availableQualities originalQuality))%nat) /\
  (availableQualities = [] ->
   VideoExtractor.getRecommendedQuality availableQualities originalQuality = q720p).
Proof.
  split; [|split; [|split]].
  - intros Hne. apply includes_In. now apply getRecommendedQuality_included.
  - intros o -> Hin. unfold VideoExtractor.getRecommendedQuality. cbv zeta.
    apply includes_In in Hin. now rewrite Hin.
  - intros Hno q Hq. apply includes_In in Hq.
    unfold VideoExtractor.getRecommendedQuality. cbv zeta.
    destruct originalQuality as [o|].
    + specialize (Hno o eq_refl). apply includes_not_In in Hno. rewrite Hno.
      now apply getRecommendedQuality_highest.
    + now apply getRecommendedQuality_highest.
  - intros ->. unfold VideoExtractor.getRecommendedQuality. cbv zeta.
    destruct originalQuality; reflexivity.
Qed.

Lemma getRecommendedQuality_spec_witness :
  In (VideoExtractor.getRecommendedQuality [q360p; q720p; q480p] (Some q4k))
     [q360p; q720p; q480p] /\
  VideoExtractor.getRecommendedQuality [q360p; q720p; q480p] (Some q480p) = q480p /\
  (VideoExtractor.rank q480p
   <= VideoExtractor.rank
        (VideoExtractor.getRecommendedQuality [q360p; q720p; q480p] (Some q4k)))%nat /\
  VideoExtractor.getRecommendedQuality [] (Some q4k) = q720p.
Proof.
  split; [|split; [|split]].
  - apply (proj1 (getRecommendedQuality_spec [q360p; q720p; q480p] (Some q4k))).
    discriminate.
  - apply (proj1 (proj2 (getRecommendedQuality_spec [q360p; q720p; q480p] (Some q480p)))
             q480p eq_refl). simpl; auto.
  - apply (proj1 (proj2 (proj2 (getRecommendedQuality_spec [q360p; q720p; q480p]
                                  (Some q4k))))).
    + intros o [= <-] Hin. simpl in Hin. intuition discriminate.
    + simpl; auto.
  - apply (proj2 (proj2 (proj2 (getRecommendedQuality_spec [] (Some q4k))))). reflexivity.
Defined.

Lemma getAvailableQualities_eq d l original :
  VideoExtractor.getAvailableQualities d l original
  = map (mp4_option d l (VideoExtractor.getRecommendedQuality l original))
        [q360p; q480p; q720p; q1080p; q4k]
    ++ match l with [] => [] | _ :: _ => [mp3_option d] end.
Proof.
  unfold VideoExtractor.getAvailableQualities. cbv zeta.
  destruct l; reflexivity.
Qed.

Lemma In_getAvailableQualities d l original o :
  In o (VideoExtractor.getAvailableQualities d l original) ->
  (exists q, o = mp4_option d l (VideoExtractor.getRecommendedQuality l original) q) \/
  (l <> [] /\ o = mp3_option d).
Proof.
  rewrite getAvailableQualities_eq, in_app_iff, in_map_iff.
  intros [(q & <- & _)|H]; [left; eauto|].
  right. destruct l; [contradiction|]. destruct H as [<-|[]]. split; [discriminate|auto].
Qed.

(** X14.  Exactly one option is recommended.  For a list of available qualities
    that is not empty, [getAvailableQualities] marks exactly one option as
    recommended: the MP4 option of the quality [getRecommendedQuality]
    names, which is available.  For the empty list no option is recommended
    and none is available. *)
Theorem getAvailableQualities_recommended (duration : Q)
    (availableQualities : list VideoQuality) (originalQuality : option VideoQuality) :
  (availableQualities <> [] ->
   length (List.filter QualityOption.recommended
             (VideoExtractor.getAvailableQualities duration availableQualities
                originalQuality)) = 1%nat /\
   forall o,
     In o (VideoExtractor.getAvailableQualities duration availableQualities
             originalQuality) ->
     QualityOption.recommended o = true ->
     QualityOption.format o = mp4 /\ QualityOption.available o = true /\
     QualityOption.quality o
     = VideoExtractor.getRecommendedQuality availableQualities originalQuality) /\
  (availableQualities = [] ->
   forall o,
     In o (VideoExtractor.getAvailableQualities duration availableQualities
             originalQuality) ->
     QualityOption.recommended o = false /\ QualityOption.available o = false).
Proof.
  split.
  - intros Hne.
    pose proof (getRecommendedQuality_included availableQualities originalQuality Hne)
      as Hr.
    split.
    + rewrite getAvailableQualities_eq.
      set (r := VideoExtractor.getRecommendedQuality availableQualities originalQuality)
        in *. clearbody r.
      destruct availableQualities as [|a l]; [congruence|].
      set (av := a :: l) in *. clearbody av.
      rewrite List.filter_app, length_app. unfold mp4_option. cbn [map].
      cbv zeta. cbn [List.filter QualityOption.recommended mp3_option length].
      destruct r; simpl VideoExtractor.quality_eqb; rewrite Hr;
        rewrite ?Bool.andb_false_r; reflexivity.
    + intros o Hin Hrec.
      destruct (In_getAvailableQualities _ _ _ _ Hin) as [(q & ->)|(_ & ->)];
        [|discriminate].
      unfold mp4_option in *. simpl in *.
      apply Bool.andb_true_iff in Hrec as [Ha Hq]. apply quality_eqb_eq in Hq.
      auto.
  - intros -> o Hin.
    destruct (In_getAvailableQualities _ _ _ _ Hin) as [(q & ->)|(Hne & _)];
      [|congruence].
    unfold mp4_option. simpl. auto.
Qed.

Lemma getAvailableQualities_recommended_witness :
  length (List.filter QualityOption.recommended
            (VideoExtractor.getAvailableQualities 60 [q360p; q480p] (Some q480p))) = 1%nat /\
  forall o,
    In o (VideoExtractor.getAvailableQualities 60 [] None) ->
    QualityOption.recommended o = false /\ QualityOption.available o = false.
Proof.
  split.
  - apply (proj1 (getAvailableQualities_recommended 60 [q360p; q480p] (Some q480p))).
    discriminate.
  - apply (proj2 (getAvailableQualities_recommended 60 [] None)). reflexivity.
Defined.

(** X15.  The options mirror the list of available qualities.  The result of
    [getAvailableQualities] lists the five qualities once each as MP4
    options, in rising order, each with the bitrate of the table; an MP4
    option is available exactly when its quality is in the list; an option
    that is not available has file size 0 and is not recommended; an
    available option has the size [estimateFileSize] gives for its bitrate;
    and the first MP3 option is the 128 kbps one, available, present
    exactly when the list is not empty. *)
Theorem getAvailableQualities_spec (duration : Q)
    (availableQualities : list VideoQuality) (originalQuality : option VideoQuality) :
  map QualityOption.quality
      (List.filter (fun o => negb (is_mp3 o))
         (VideoExtractor.getAvailableQualities duration availableQualities
            originalQuality))
  = [q360p; q480p; q720p; q1080p; q4k] /\
  (forall o,
     In o (VideoExtractor.getAvailableQualities duration availableQualities
             originalQuality) ->
     (is_mp3 o = false ->
      (QualityOption.available o = true <-> In (QualityOption.quality o) availableQualities) /\
      QualityOption.bitrate o = Some (VideoExtractor.VIDEO_BITRATES (QualityOption.quality o))) /\
     (QualityOption.available o = false ->
      QualityOption.fileSize o = 0 /\ QualityOption.recommended o = false) /\
     (QualityOption.available o = true ->
      exists bitrate,
        QualityOption.bitrate o = Some bitrate /\
        QualityOption.fileSize o = VideoExtractor.estimateFileSize bitrate duration)) /\
  List.find is_mp3
    (VideoExtractor.getAvailableQualities duration availableQualities originalQuality)
  = match availableQualities with
    | [] => None
    | _ :: _ => Some (mp3_option duration)
    end.
Proof.
  split; [|split].
  - rewrite getAvailableQualities_eq. destruct availableQualities; reflexivity.
  - intros o Hin.
    destruct (In_getAvailableQualities _ _ _ _ Hin) as [(q & ->)|(Hne & ->)].
    + unfold mp4_option. simpl. split; [|split].
      * intros _. split; [apply includes_In | reflexivity].
      * intros ->. auto.
      * intros ->. eauto.
    + unfold mp3_option. simpl. split; [discriminate|]. split; [discriminate|]. eauto.
  - rewrite getAvailableQualities_eq. destruct availableQualities; reflexivity.
Qed.

(** *** The simulated metadata and the extracted video *)

Lemma Math_round_inject_Z z : Math_round (inject_Z z) = inject_Z z.
Proof.
  unfold Math_round. f_equal.
  assert (Hlo : (z <= Qfloor (inject_Z z + (1 # 2)))%Z).
  { rewrite <- (Qfloor_Z z) at 1. apply Qfloor_resp_le. lra. }
  assert (Hhi : (Qfloor (inject_Z z + (1 # 2)) < z + 1)%Z).
  { rewrite Zlt_Qlt, inject_Z_plus.
    eapply Qle_lt_trans; [apply Qfloor_le|]. change (inject_Z 1) with 1. lra. }
  lia.
Qed.

Lemma estimateFileSize_integers (b d : Z) :
  VideoExtractor.estimateFileSize (inject_Z b) (inject_Z d) == inject_Z b * inject_Z d * 125.
Proof.
  unfold VideoExtractor.estimateFileSize.
  assert (E : inject_Z b * inject_Z d * 125 == inject_Z (b * d * 125))
    by (rewrite !inject_Z_mult; reflexivity).
  assert (R : Math_round (inject_Z b * inject_Z d * 125)
              = Math_round (inject_Z (b * d * 125)))
    by reflexivity.
  rewrite R, Math_round_inject_Z. symmetry. exact E.
Qed.

Lemma VIDEO_BITRATES_integer q :
  exists b, (0 < b)%Z /\ VideoExtractor.VIDEO_BITRATES q = inject_Z b.
Proof. destruct q; eexists; (split; [|reflexivity]); lia. Qed.

Lemma includes_ladder k q :
  (k < 5)%nat ->
  VideoExtractor.includes (firstn (S k) [q360p; q480p; q720p; q1080p; q4k]) q
  = (VideoExtractor.rank q <=? k)%nat.
Proof.
  intros Hk. do 5 (destruct k as [|k]; [destruct q; reflexivity|]). lia.
Qed.

Lemma getRecommendedQuality_ladder k :
  (k < 5)%nat ->
  VideoExtractor.rank
    (VideoExtractor.getRecommendedQuality
       (firstn (S k) [q360p; q480p; q720p; q1080p; q4k])
       (last (firstn (S k) [q360p; q480p; q720p; q1080p; q4k])))
  = k.
Proof.
  intros Hk. do 5 (destruct k as [|k]; [reflexivity|]). lia.
Qed.

Lemma quality_eqb_rank a b :
  VideoExtractor.quality_eqb a b = (VideoExtractor.rank a =? VideoExtractor.rank b)%nat.
Proof. destruct a, b; reflexivity. Qed.

Lemma simulateYouTubeMetadata_shape videoId :
  exists k,
    (k < 5)%nat /\
    VideoExtractor.availableQualities (VideoExtractor.simulateYouTubeMetadata videoId)
    = firstn (S k) [q360p; q480p; q720p; q1080p; q4k] /\
    VideoExtractor.originalQuality (VideoExtractor.simulateYouTubeMetadata videoId)
    = last (firstn (S k) [q360p; q480p; q720p; q1080p; q4k]) /\
    (60 <= VideoExtractor.duration (VideoExtractor.simulateYouTubeMetadata videoId) <= 599)%Z.
Proof.
  unfold VideoExtractor.simulateYouTubeMetadata. cbv zeta.
  cbn [VideoExtractor.availableQualities VideoExtractor.originalQuality
       VideoExtractor.duration].
  set (hash := VideoExtractor.char_code_sum videoId).
  pose proof (Z.mod_pos_bound hash 5 ltac:(lia)) as H5.
  pose proof (Z.mod_pos_bound hash 540 ltac:(lia)) as H540.
  exists (Z.to_nat (hash mod 5)).
  replace (Z.to_nat (hash mod 5 + 1)) with (S (Z.to_nat (hash mod 5))) by lia.
  assert (E : VideoExtractor.ensure_360p
                (firstn (S (Z.to_nat (hash mod 5))) [q360p; q480p; q720p; q1080p; q4k])
              = firstn (S (Z.to_nat (hash mod 5))) [q360p; q480p; q720p; q1080p; q4k])
    by reflexivity.
  rewrite E. repeat split; lia.
Qed.

Lemma simulateTikTokMetadata_shape videoId :
  exists k,
    (k < 4)%nat /\
    VideoExtractor.availableQualities (VideoExtractor.simulateTikTokMetadata videoId)
    = firstn (S k) [q360p; q480p; q720p; q1080p; q4k] /\
    VideoExtractor.originalQuality (VideoExtractor.simulateTikTokMetadata videoId)
    = last (firstn (S k) [q360p; q480p; q720p; q1080p; q4k]) /\
    (15 <= VideoExtractor.duration (VideoExtractor.simulateTikTokMetadata videoId) <= 59)%Z.
Proof.
  unfold VideoExtractor.simulateTikTokMetadata. cbv zeta.
  cbn [VideoExtractor.availableQualities VideoExtractor.originalQuality
       VideoExtractor.duration].
  set (hash := VideoExtractor.char_code_sum videoId).
  pose proof (Z.mod_pos_bound hash 4 ltac:(lia)) as H4.
  pose proof (Z.mod_pos_bound hash 45 ltac:(lia)) as H45.
  exists (Z.to_nat (hash mod 4)).
  replace (Z.min (hash mod 4) 3) with (hash mod 4)%Z by lia.
  replace (Z.to_nat (hash mod 4 + 1)) with (S (Z.to_nat (hash mod 4))) by lia.
  assert (Hk : (Z.to_nat (hash mod 4) < 4)%nat) by lia.
  set (k := Z.to_nat (hash mod 4)) in *. clearbody k.
  assert (E : VideoExtractor.ensure_360p (firstn (S k) [q360p; q480p; q720p; q1080p])
              = firstn (S k) [q360p; q480p; q720p; q1080p; q4k]).
  { do 4 (destruct k as [|k]; [reflexivity|]). lia. }
  rewrite E. repeat split; lia.
Qed.

(** What both extractors return, for the platform they are made for. *)
Lemma extractVideoInfo_shape parsedUrl :
  exists k d info,
    VideoExtractor.extractVideoInfo parsedUrl = Ok info /\
    VideoInfo.id info = UrlParser.videoId parsedUrl /\
    VideoInfo.platform info = UrlParser.platform parsedUrl /\
    VideoInfo.duration info = inject_Z d /\
    match UrlParser.platform parsedUrl with
    | youtube => (k < 5)%nat /\ (60 <= d <= 599)%Z
    | tiktok => (k < 4)%nat /\ (15 <= d <= 59)%Z
    end /\
    VideoInfo.qualities info
    = VideoExtractor.getAvailableQualities (inject_Z d)
        (firstn (S k) [q360p; q480p; q720p; q1080p; q4k])
        (last (firstn (S k) [q360p; q480p; q720p; q1080p; q4k])).
Proof.
  unfold VideoExtractor.extractVideoInfo, VideoExtractor.extractYouTubeVideoInfo,
    VideoExtractor.extractTikTokVideoInfo.
  destruct (UrlParser.platform parsedUrl) eqn:Ep.
  - destruct (simulateYouTubeMetadata_shape (UrlParser.videoId parsedUrl))
      as (k & Hk & Ha & Ho & Hd).
    exists k, (VideoExtractor.duration
                 (VideoExtractor.simulateYouTubeMetadata (UrlParser.videoId parsedUrl))).
    eexists. split; [reflexivity|]. unfold VideoExtractor.video_info_of.
    cbn [VideoInfo.id VideoInfo.platform VideoInfo.duration VideoInfo.qualities].
    rewrite Ha, Ho. repeat split; try reflexivity; lia.
  - destruct (simulateTikTokMetadata_shape (UrlParser.videoId parsedUrl))
      as (k & Hk & Ha & Ho & Hd).
    exists k, (VideoExtractor.duration
                 (VideoExtractor.simulateTikTokMetadata (UrlParser.videoId parsedUrl))).
    eexists. split; [reflexivity|]. unfold VideoExtractor.video_info_of.
    cbn [VideoInfo.id VideoInfo.platform VideoInfo.duration VideoInfo.qualities].
    rewrite Ha, Ho. repeat split; try reflexivity; lia.
Qed.

Lemma ladder_option_facts k d o :
  (k < 5)%nat -> (0 < d)%Z ->
  In o (VideoExtractor.getAvailableQualities (inject_Z d)
          (firstn (S k) [q360p; q480p; q720p; q1080p; q4k])
          (last (firstn (S k) [q360p; q480p; q720p; q1080p; q4k]))) ->
  (is_mp3 o = false ->
   QualityOption.available o = (VideoExtractor.rank (QualityOption.quality o) <=? k)%nat /\
   QualityOption.recommended o = (VideoExtractor.rank (QualityOption.quality o) =? k)%nat) /\
  (QualityOption.available o = true ->
   exists b,
     QualityOption.bitrate o = Some b /\
     QualityOption.fileSize o == b * inject_Z d * 125 /\
     0 < QualityOption.fileSize o).
Proof.
  intros Hk Hd Hin.
  assert (Hpos : forall b, (0 < b)%Z -> 0 < inject_Z b * inject_Z d * 125).
  { intros b Hb. rewrite <- inject_Z_mult.
    assert (0 < inject_Z (b * d)); [|lra].
    change 0 with (inject_Z 0). rewrite <- Zlt_Qlt. nia. }
  destruct (In_getAvailableQualities _ _ _ _ Hin) as [(q & ->)|(_ & ->)].
  - unfold mp4_option. cbv zeta.
    cbn [QualityOption.available QualityOption.recommended QualityOption.quality
         QualityOption.bitrate QualityOption.fileSize].
    rewrite includes_ladder by exact Hk. rewrite quality_eqb_rank.
    rewrite getRecommendedQuality_ladder by exact Hk.
    split.
    + intros _. split; [reflexivity|].
      destruct (Nat.leb_spec (VideoExtractor.rank q) k) as [Hle|Hgt].
      * reflexivity.
      * simpl. symmetry. apply Nat.eqb_neq. lia.
    + intros ->. destruct (VIDEO_BITRATES_integer q) as (b & Hb & ->).
      exists (inject_Z b). split; [reflexivity|].
      rewrite estimateFileSize_integers. split; [reflexivity | now apply Hpos].
  - split; [discriminate|]. intros _. exists VideoExtractor.AUDIO_BITRATE.
    unfold mp3_option. cbn [QualityOption.bitrate QualityOption.fileSize].
    split; [reflexivity|].
    change VideoExtractor.AUDIO_BITRATE with (inject_Z 128).
    rewrite estimateFileSize_integers. split; [reflexivity | apply Hpos; lia].
Qed.

(** X16.  What the extractors return.  [extractVideoInfo] never fails: it
    returns a video with the id and the platform of the parsed URL and a
    whole duration, 60 to 599 seconds for YouTube and 15 to 59 for TikTok.
    Its MP4 options form a ladder: there is a level [k] (below 4k for
    TikTok) such that an MP4 option is available exactly when its quality
    is at most [k], and recommended exactly when it is [k], the highest
    available.  Every available option carries a bitrate and has the
    positive size bitrate * duration * 125; the first MP3 option is the
    128 kbps one.  Each of the two platform extractors rejects a URL of
    the other platform and otherwise agrees with [extractVideoInfo]. *)
Theorem extractVideoInfo_spec (parsedUrl : UrlParser.ParsedURL) :
  exists info,
    VideoExtractor.extractVideoInfo parsedUrl = Ok info /\
    VideoInfo.id info = UrlParser.videoId parsedUrl /\
    VideoInfo.platform info = UrlParser.platform parsedUrl /\
    (exists d,
       VideoInfo.duration info = inject_Z d /\
       match UrlParser.platform parsedUrl with
       | youtube => (60 <= d <= 599)%Z
       | tiktok => (15 <= d <= 59)%Z
       end) /\
    (exists k,
       (k < match UrlParser.platform parsedUrl with
            | youtube => 5
            | tiktok => 4
            end)%nat /\
       forall o,
         In o (VideoInfo.qualities info) -> is_mp3 o = false ->
         QualityOption.available o
         = (VideoExtractor.rank (QualityOption.quality o) <=? k)%nat /\
         QualityOption.recommended o
         = (VideoExtractor.rank (QualityOption.quality o) =? k)%nat) /\
    (forall o,
       In o (VideoInfo.qualities info) -> QualityOption.available o = true ->
       exists b,
         QualityOption.bitrate o = Some b /\
         QualityOption.fileSize o == b * VideoInfo.duration info * 125 /\
         0 < QualityOption.fileSize o) /\
    List.find is_mp3 (VideoInfo.qualities info)
    = Some (mp3_option (VideoInfo.duration info)) /\
    match UrlParser.platform parsedUrl with
    | youtube =>
        VideoExtractor.extractYouTubeVideoInfo parsedUrl = Ok info /\
        VideoExtractor.extractTikTokVideoInfo parsedUrl
        = Throw (mkError "Invalid platform: expected TikTok URL")
    | tiktok =>
        VideoExtractor.extractTikTokVideoInfo parsedUrl = Ok info /\
        VideoExtractor.extractYouTubeVideoInfo parsedUrl
        = Throw (mkError "Invalid platform: expected YouTube URL")
    end.
Proof.
  destruct (extractVideoInfo_shape parsedUrl)
    as (k & d & info & He & Hid & Hp & Hd & Hr & Hq).
  assert (Hk : (k < 5)%nat /\ (0 < d)%Z)
    by (destruct (UrlParser.platform parsedUrl); lia).
  destruct Hk as [Hk Hd0].
  exists info. split; [exact He|]. split; [exact Hid|]. split; [exact Hp|].
  split; [|split; [|split; [|split]]].
  - exists d. split; [exact Hd|]. destruct (UrlParser.platform parsedUrl); tauto.
  - exists k. split; [destruct (UrlParser.platform parsedUrl); tauto|].
    intros o Hin. rewrite Hq in Hin.
    apply (proj1 (ladder_option_facts k d o Hk Hd0 Hin)).
  - intros o Hin. rewrite Hq in Hin. rewrite Hd.
    apply (proj2 (ladder_option_facts k d o Hk Hd0 Hin)).
  - rewrite Hq, Hd, getAvailableQualities_eq. reflexivity.
  - revert He. unfold VideoExtractor.extractVideoInfo,
      VideoExtractor.extractYouTubeVideoInfo, VideoExtractor.extractTikTokVideoInfo.
    destruct (UrlParser.platform parsedUrl); intros He; split; auto.
Qed.

(** *** The extractor and the manager together *)

Lemma extracted_option_positive parsedUrl info o :
  VideoExtractor.extractVideoInfo parsedUrl = Ok info ->
  In o (VideoInfo.qualities info) ->
  QualityOption.available o = true ->
  0 < QualityOption.fileSize o.
Proof.
  intros He Hin Ha.
  destruct (extractVideoInfo_shape parsedUrl)
    as (k & d & info' & He' & _ & _ & _ & Hr & Hq).
  rewrite He in He'. injection He' as <-.
  assert (Hk : (k < 5)%nat /\ (0 < d)%Z)
    by (destruct (UrlParser.platform parsedUrl); lia).
  rewrite Hq in Hin.
  destruct (proj2 (ladder_option_facts k d o (proj1 Hk) (proj2 Hk) Hin) Ha)
    as (b & _ & _ & Hpos).
  exact Hpos.
Qed.

Lemma extracted_mp3_option parsedUrl info :
  VideoExtractor.extractVideoInfo parsedUrl = Ok info ->
  List.find is_mp3 (VideoInfo.qualities info)
  = Some (mp3_option (VideoInfo.duration info)).
Proof.
  intros He.
  destruct (extractVideoInfo_shape parsedUrl)
    as (k & d & info' & He' & _ & _ & Hd & _ & Hq).
  rewrite He in He'. injection He' as <-.
  rewrite Hq, Hd, getAvailableQualities_eq. reflexivity.
Qed.

(** X17.  A download of an extracted video completes.  Take a video
    [extractVideoInfo] returns and any available option of it.  In a
    reachable state [startDownload] returns a [downloading] task of that
    option and registers an interval for it; after enough firings of that
    interval (one for every 40000 bytes of the file), whatever the random
    numbers, the task is [completed] at 100 percent with the whole file
    downloaded, and the interval is gone. *)
Theorem extracted_download_completes (parsedUrl : UrlParser.ParsedURL)
    (info : VideoInfo.t) (o : QualityOption.t) (taskId : string) (now : Z) (rnd : Q)
    (st : State) (ticks : list (Q * Z)) :
  reachable st ->
  random_ok rnd ->
  VideoExtractor.extractVideoInfo parsedUrl = Ok info ->
  In o (VideoInfo.qualities info) ->
  QualityOption.available o = true ->
  Forall (fun t => random_ok (fst t)) ticks ->
  QualityOption.fileSize o <= 40000 * inject_Z (Z.of_nat (length ticks)) ->
  exists st1 task',
    startDownload taskId now rnd info o st
    = (Ok (started_task taskId now info o None), st1) /\
    downloadIntervals st1 !! taskId = Some (next_handle st) /\
    activeDownloads (run_ops (ticks_of (next_handle st) ticks) st1) !! taskId
    = Some task' /\
    DownloadTask.status task' = completed /\
    DownloadProgress.percentage (DownloadTask.progress task') = 100 /\
    DownloadProgress.downloadedBytes (DownloadTask.progress task')
    = QualityOption.fileSize o /\
    timers (run_ops (ticks_of (next_handle st) ticks) st1) !! next_handle st = None /\
    downloadIntervals (run_ops (ticks_of (next_handle st) ticks) st1) !! taskId = None.
Proof.
  intros Hreach Hrnd He Hin Ha Hticks Hlen.
  pose proof (extracted_option_positive parsedUrl info o He Hin Ha) as Hpos.
  assert (Hreach1 : reachable (run_op (Start taskId now rnd info o) st))
    by (apply reachable_step; [exact Hreach | exact Hrnd]).
  pose proof (startDownload_eq taskId now rnd info o st) as E.
  rewrite Ha in E. cbv zeta in E.
  rewrite simulateDownloadProgress_eq in E. cbn [snd] in E. simpl in E.
  rewrite lookup_insert_eq in E.
  cbn [run_op] in Hreach1. rewrite E in Hreach1. cbn [snd] in Hreach1.
  match type of E with _ = (_, ?s) => remember s as st1 eqn:Est1 end.
  set (c := Build_IntervalClosure taskId (500000 + rnd * 1500000)).
  assert (Hc : timers st1 !! next_handle st = Some c)
    by (rewrite Est1; simpl; apply lookup_insert_eq).
  assert (Hl : activeDownloads st1 !! closure_taskId c
               = Some (started_task taskId now info o None))
    by (rewrite Est1; simpl; apply lookup_insert_eq).
  destruct (download_completes_aux (next_handle st) c ticks st1
              (started_task taskId now info o None) Hreach1 Hc Hl eq_refl)
    as (task' & Hl' & Hs' & Htot & Hdead & Hunreg).
  - exact Hpos.
  - exact Hticks.
  - simpl. lra.
  - assert (Hreach' : reachable (run_ops (ticks_of (next_handle st) ticks) st1))
      by (apply reachable_run_ops; [exact Hreach1 | now apply ticks_of_random_ok]).
    pose proof (reachable_lifecycle_ok _ _ _ Hreach' Hl') as (_ & _ & _ & Hlife).
    rewrite Hs' in Hlife. destruct Hlife as (_ & _ & Hp & Hd & _).
    exists st1, task'. split; [exact E|].
    split; [rewrite Est1; simpl; apply lookup_insert_eq|].
    split; [exact Hl'|]. split; [exact Hs'|]. split; [exact Hp|].
    split; [rewrite Hd, Htot; reflexivity|]. split; [exact Hdead | exact Hunreg].
Qed.

Lemma extracted_download_completes_witness :
  exists info st1 task',
    VideoExtractor.extractVideoInfo
      (UrlParser.Build_ParsedURL youtube "dQw4w9WgXcQ"
         "https://www.youtube.com/watch?v=dQw4w9WgXcQ") = Ok info /\
    startDownload "dl_1" 0 0 info (mp3_option (VideoInfo.duration info)) initial_state
    = (Ok (started_task "dl_1" 0 info (mp3_option (VideoInfo.duration info)) None), st1) /\
    activeDownloads (run_ops (ticks_of 0 (repeat (0, 0%Z) 203)) st1) !! "dl_1"
    = Some task' /\
    DownloadTask.status task' = completed /\
    DownloadProgress.downloadedBytes (DownloadTask.progress task') = 8096000.
Proof.
  set (parsedUrl := UrlParser.Build_ParsedURL youtube "dQw4w9WgXcQ"
                      "https://www.youtube.com/watch?v=dQw4w9WgXcQ").
  set (info := VideoExtractor.video_info_of parsedUrl
                 (VideoExtractor.simulateYouTubeMetadata "dQw4w9WgXcQ") youtube).
  exists info.
  destruct (extracted_download_completes parsedUrl info
              (mp3_option (VideoInfo.duration info)) "dl_1" 0 0 initial_state (repeat (0, 0%Z) 203))
    as (st1 & task' & Hs & _ & Hl & Hc & _ & Hd & _).
  - apply reachable_initial.
  - unfold random_ok. lra.
  - reflexivity.
  - vm_compute. tauto.
  - reflexivity.
  - apply Forall_forall. intros x Hx. apply list_elem_of_In, repeat_spec in Hx.
    subst x. unfold random_ok. simpl. lra.
  - vm_compute. discriminate.
  - exists st1, task'. split; [reflexivity|]. split; [exact Hs|].
    split; [exact Hl|]. split; [exact Hc|]. rewrite Hd. reflexivity.
Defined.

(** X18.  The MP3 path of an extracted video works.  For a video
    [extractVideoInfo] returns, [startMP3Download] never throws: it starts
    a [downloading] task of the 128 kbps MP3 option, of a positive size,
    with the given metadata, and registers it.  For a video id that is not
    empty, [extractAudio] succeeds at 128 kbps with the duration of the
    video, for any target bitrate up to 128, and the POST handler answers
    200 to a request for any available MP3 option. *)
Theorem extracted_video_mp3 (parsedUrl : UrlParser.ParsedURL) (info : VideoInfo.t)
    (taskId : string) (now : Z) (rnd : Q) (metadata : option AudioMetadata.partial)
    (st : State) :
  VideoExtractor.extractVideoInfo parsedUrl = Ok info ->
  let task := started_task taskId now info (mp3_option (VideoInfo.duration info)) metadata in
  exists st',
    startMP3Download taskId now rnd info metadata st = (Ok task, st') /\
    activeDownloads st' !! taskId = Some task /\
    0 < DownloadProgress.totalBytes (DownloadTask.progress task) /\
    (UrlParser.videoId parsedUrl <> "" ->
     (forall target,
        target <= 128 ->
        AudioExtractionResult.success (extractAudio info (Some target) metadata) = true /\
        AudioExtractionResult.bitrate (extractAudio info (Some target) metadata) == 128 /\
        AudioExtractionResult.duration (extractAudio info (Some target) metadata)
        = VideoInfo.duration info) /\
     forall requested,
       QualityOption.format requested = mp3 ->
       QualityOption.available requested = true ->
       DownloadRoute.POST taskId now rnd
         (DownloadRoute.Build_DownloadRequest (Some info) (Some requested) metadata) st
       = (DownloadRoute.DownloadResponse taskId downloading "เริ่มดาวน์โหลดแล้ว" 200, st')).
Proof.
  intros He task.
  pose proof (extracted_mp3_option parsedUrl info He) as Hf.
  assert (Hin : In (mp3_option (VideoInfo.duration info)) (VideoInfo.qualities info)).
  { apply List.find_some in Hf. tauto. }
  pose proof (extracted_option_positive parsedUrl info _ He Hin eq_refl) as Hpos.
  assert (Hid : VideoInfo.id info = UrlParser.videoId parsedUrl).
  { destruct (extractVideoInfo_shape parsedUrl) as (k & d & info' & He' & Hid & _).
    rewrite He in He'. injection He' as <-. exact Hid. }
  pose proof (startMP3Download_eq taskId now rnd info metadata st) as E.
  rewrite Hf in E. cbv zeta in E.
  change (negb (QualityOption.available (mp3_option (VideoInfo.duration info))))
    with false in E.
  change (match QualityOption.bitrate (mp3_option (VideoInfo.duration info)) with
          | Some b => truthy b && ltb b MIN_AUDIO_BITRATE
          | None => false
          end) with false in E.
  rewrite simulateDownloadProgress_eq in E. cbn [snd] in E. simpl in E.
  rewrite lookup_insert_eq in E.
  assert (Haudio : VideoInfo.id info <> "" ->
    forall target,
      target <= 128 ->
      AudioExtractionResult.success (extractAudio info (Some target) metadata) = true /\
      AudioExtractionResult.bitrate (extractAudio info (Some target) metadata) == 128 /\
      AudioExtractionResult.duration (extractAudio info (Some target) metadata)
      = VideoInfo.duration info).
  { intros Hne target Ht.
    pose proof (extractAudio_succeeds info (Some target) metadata _ Hne Hf eq_refl) as Hs.
    split; [exact Hs|]. split.
    - rewrite (extractAudio_bitrate _ _ _ Hs). simpl. unfold MIN_AUDIO_BITRATE.
      minmax; lra.
    - unfold extractAudio.
      destruct (String.eqb (VideoInfo.id info) "") eqn:Ee;
        [apply String.eqb_eq in Ee; contradiction|].
      rewrite Hf. reflexivity. }
  rewrite <- Hid.
  destruct metadata as [m|].
  - eexists. split; [exact E|]. split; [simpl; apply lookup_insert_eq|].
    split; [exact Hpos|]. intros Hne. split; [now apply Haudio|].
    intros requested Hfmt Havail. unfold DownloadRoute.POST. simpl.
    destruct (String.eqb (VideoInfo.id info) "") eqn:Ee;
      [apply String.eqb_eq in Ee; contradiction|].
    rewrite Havail, Hfmt. simpl. rewrite E. reflexivity.
  - eexists. split; [exact E|]. split; [simpl; apply lookup_insert_eq|].
    split; [exact Hpos|]. intros Hne. split; [now apply Haudio|].
    intros requested Hfmt Havail. unfold DownloadRoute.POST. simpl.
    destruct (String.eqb (VideoInfo.id info) "") eqn:Ee;
      [apply String.eqb_eq in Ee; contradiction|].
    rewrite Havail, Hfmt. simpl. rewrite E. reflexivity.
Qed.

Lemma extracted_video_mp3_witness :
  exists info st',
    VideoExtractor.extractVideoInfo
      (UrlParser.Build_ParsedURL tiktok "7234567890123456789"
         "https://www.tiktok.com/@user/video/7234567890123456789") = Ok info /\
    startMP3Download "dl_1" 0 0 info None initial_state
    = (Ok (started_task "dl_1" 0 info (mp3_option (VideoInfo.duration info)) None), st') /\
    activeDownloads st' !! "dl_1"
    = Some (started_task "dl_1" 0 info (mp3_option (VideoInfo.duration info)) None).
Proof.
  set (parsedUrl := UrlParser.Build_ParsedURL tiktok "7234567890123456789"
                      "https://www.tiktok.com/@user/video/7234567890123456789").
  set (info := VideoExtractor.video_info_of parsedUrl
                 (VideoExtractor.simulateTikTokMetadata "7234567890123456789") tiktok).
  exists info.
  destruct (extracted_video_mp3 parsedUrl info "dl_1" 0 0 None initial_state eq_refl)
    as (st' & Hs & Hl & _).
  exists st'. split; [reflexivity|]. split; [exact Hs | exact Hl].
Defined.

(** ** The matcher and the meaning of a pattern *)

Lemma lit_Some l s s' : RegExp.lit l s = Some s' -> s = l ++ s'.
Proof.
  revert s. induction l as [|a l IH]; intros s H; simpl in H.
  - now injection H as ->.
  - destruct s as [|c s]; [discriminate|].
    destruct (Ascii.eqb a c) eqn:E; [|discriminate].
    apply Ascii.eqb_eq in E. subst c. simpl. f_equal. now apply IH.
Qed.

Lemma lit_app l s : RegExp.lit l (l ++ s) = Some s.
Proof.
  induction l as [|a l IH]; simpl; [reflexivity|].
  now rewrite Ascii.eqb_refl.
Qed.

Lemma star_sound class s k m :
  RegExp.star class s k = Some m ->
  exists w s', s = w ++ s' /\ forallb class w = true /\ k s' = Some m.
Proof.
  revert m. induction s as [|c s IH]; intros m H; simpl in H.
  - exists [], []. auto.
  - destruct (class c) eqn:Ec.
    + destruct (RegExp.star class s k) as [m'|] eqn:Es.
      * injection H as <-. destruct (IH m' eq_refl) as (w & s' & -> & Hw & Hk).
        exists (c :: w), s'. simpl. rewrite Ec, Hw. auto.
      * exists [], (c :: s). auto.
    + exists [], (c :: s). auto.
Qed.

Lemma star_least class s k :
  is_Some (k s) -> is_Some (RegExp.star class s k).
Proof.
  intros H. destruct s as [|c s]; simpl; [exact H|].
  destruct (class c); [|exact H].
  destruct (RegExp.star class s k); [eauto | exact H].
Qed.

Lemma star_complete class w s' k :
  forallb class w = true -> is_Some (k s') ->
  is_Some (RegExp.star class (w ++ s') k).
Proof.
  intros Hw Hk. induction w as [|c w IH]; simpl.
  - now apply star_least.
  - simpl in Hw. apply andb_prop in Hw as [Hc Hw]. rewrite Hc.
    destruct (IH Hw) as [m ->]. eauto.
Qed.

Lemma repeat_class_sound n class s k m :
  RegExp.repeat_class n class s k = Some m ->
  exists w s',
    s = w ++ s' /\ length w = n /\ forallb class w = true /\ k s' = Some m.
Proof.
  revert s. induction n as [|n IH]; intros s H; simpl in H.
  - exists [], s. auto.
  - destruct s as [|c s]; [discriminate|].
    destruct (class c) eqn:Ec; [|discriminate].
    destruct (IH s H) as (w & s' & -> & Hl & Hw & Hk).
    exists (c :: w), s'. simpl. rewrite Ec, Hw, Hl. auto.
Qed.

Lemma repeat_class_complete class w s' k :
  forallb class w = true ->
  RegExp.repeat_class (length w) class (w ++ s') k = k s'.
Proof.
  intros Hw. induction w as [|c w IH]; simpl; [reflexivity|].
  simpl in Hw. apply andb_prop in Hw as [Hc Hw]. rewrite Hc. now apply IH.
Qed.

Lemma consumed_app w s' : RegExp.consumed (w ++ s') s' = w.
Proof.
  unfold RegExp.consumed. rewrite length_app.
  replace (length w + length s' - length s')%nat with (length w) by lia.
  rewrite firstn_app, Nat.sub_diag, firstn_all. simpl. apply app_nil_r.
Qed.

(** A match of the matcher is a word of the pattern, followed by what the
    continuation accepts. *)
Lemma run_sound r :
  forall s cap k m,
    RegExp.run r s cap k = Some m ->
    exists w s' cap',
      s = w ++ s' /\ RegExp.denotes r w cap cap' /\ k s' cap' = Some m.
Proof.
  induction r as [l|r1 IH1 r2 IH2|r IH|class|class|n class|r IH];
    intros s cap k m H; simpl in H.
  - destruct (RegExp.lit _ s) as [s'|] eqn:E; [|discriminate].
    apply lit_Some in E. exists (String.list_ascii_of_string l), s', cap.
    simpl. auto.
  - destruct (IH1 _ _ _ _ H) as (w1 & s1 & cap1 & -> & Hd1 & H2).
    destruct (IH2 _ _ _ _ H2) as (w2 & s2 & cap2 & -> & Hd2 & Hk).
    exists (w1 ++ w2), s2, cap2. rewrite <- app_assoc. split; [reflexivity|].
    split; [|exact Hk]. simpl. exists w1, w2, cap1. auto.
  - destruct (RegExp.run r s cap k) as [m'|] eqn:E.
    + injection H as <-. destruct (IH _ _ _ _ E) as (w & s' & cap' & -> & Hd & Hk).
      exists w, s', cap'. simpl. auto.
    + exists [], s, cap. simpl. auto.
  - destruct (star_sound _ _ _ _ H) as (w & s' & -> & Hw & Hk).
    exists w, s', cap. simpl. auto.
  - destruct s as [|c s]; [discriminate|].
    destruct (class c) eqn:Ec; [|discriminate].
    destruct (star_sound _ _ _ _ H) as (w & s' & -> & Hw & Hk).
    exists (c :: w), s', cap. simpl. rewrite Ec, Hw. repeat split; auto.
  - destruct (repeat_class_sound _ _ _ _ _ H) as (w & s' & -> & Hl & Hw & Hk).
    exists w, s', cap. simpl. auto.
  - destruct (IH _ _ _ _ H) as (w & s' & cap' & -> & Hd & Hk).
    rewrite consumed_app in Hk. exists w, s', (Some w). simpl. eauto.
Qed.

(** Every word of the pattern is matched, if the continuation accepts what
    follows it (the matcher may find another match first). *)
Lemma run_complete r :
  forall w s' cap cap' k,
    RegExp.denotes r w cap cap' -> is_Some (k s' cap') ->
    is_Some (RegExp.run r (w ++ s') cap k).
Proof.
  induction r as [l|r1 IH1 r2 IH2|r IH|class|class|n class|r IH];
    intros w s' cap cap' k Hd Hk; simpl in Hd; simpl.
  - destruct Hd as [-> ->]. now rewrite lit_app.
  - destruct Hd as (w1 & w2 & cap1 & -> & Hd1 & Hd2). rewrite <- app_assoc.
    apply (IH1 w1 (w2 ++ s') cap cap1); [exact Hd1|].
    now apply (IH2 w2 s' cap1 cap').
  - destruct Hd as [[-> ->]|Hd].
    + simpl. destruct (RegExp.run r s' cap k); [eauto | exact Hk].
    + destruct (IH _ _ _ _ _ Hd Hk) as [m ->]. eauto.
  - destruct Hd as [Hw ->]. now apply star_complete.
  - destruct Hd as (Hne & Hw & ->). destruct w as [|c w]; [congruence|].
    simpl in Hw. apply andb_prop in Hw as [Hc Hw]. simpl. rewrite Hc.
    now apply star_complete.
  - destruct Hd as (<- & Hw & ->). now rewrite repeat_class_complete.
  - destruct Hd as [[cap1 Hd] ->].
    apply (IH w s' cap cap1); [exact Hd|]. now rewrite consumed_app.
Qed.

Lemma exec_sound r s cap :
  RegExp.exec r s = Some cap ->
  RegExp.denotes r (String.list_ascii_of_string s) None cap.
Proof.
  unfold RegExp.exec. intros H.
  destruct (run_sound _ _ _ _ _ H) as (w & s' & cap' & E & Hd & Hk).
  destruct s' as [|c s']; [|discriminate]. injection Hk as ->.
  rewrite app_nil_r in E. now rewrite E.
Qed.

Lemma test_true r s :
  RegExp.test r s = true <->
  exists cap, RegExp.denotes r (String.list_ascii_of_string s) None cap.
Proof.
  unfold RegExp.test. split.
  - destruct (RegExp.exec r s) as [cap|] eqn:E; [|discriminate].
    intros _. exists cap. now apply exec_sound.
  - intros [cap Hd]. unfold RegExp.exec.
    rewrite <- (app_nil_r (String.list_ascii_of_string s)).
    destruct (run_complete r _ [] None cap
                (fun s' cap => match s' with [] => Some cap | _ :: _ => None end) Hd)
      as [m ->]; eauto.
Qed.

(** ** The URL parser *)

Ltac break_match_word :=
  repeat match goal with
  | H : _ /\ _ |- _ => destruct H
  | H : exists _, _ |- _ => destruct H
  | H : _ \/ _ |- _ => destruct H
  | H : False |- _ => destruct H
  end; subst.

(** The heads a matched URL can have: an optional scheme and an optional
    subdomain, before the name of the site. *)
Ltac pick_head :=
  let go a b :=
    (exists (String.list_ascii_of_string a), (String.list_ascii_of_string b);
     eexists; split; [simpl; reflexivity | split; simpl; tauto]) in
  first [ go "" "" | go "" "www." | go "" "vm." | go "" "m."
        | go "http://" "" | go "http://" "www." | go "http://" "vm." | go "http://" "m."
        | go "https://" "" | go "https://" "www." | go "https://" "vm."
        | go "https://" "m." ].

Lemma youtube_match pattern s cap :
  In pattern UrlParser.YOUTUBE_PATTERNS ->
  RegExp.denotes pattern s None cap ->
  (exists id,
     cap = Some id /\ length id = 11%nat /\ forallb UrlParser.idchar id = true) /\
  (exists a b rest,
     s = a ++ b ++ String.list_ascii_of_string "youtu" ++ rest /\
     (a = [] \/ a = String.list_ascii_of_string "http://"
      \/ a = String.list_ascii_of_string "https://") /\
     (b = [] \/ b = String.list_ascii_of_string "www.")).
Proof.
  intros Hin Hd. unfold UrlParser.YOUTUBE_PATTERNS in Hin. simpl in Hin.
  destruct Hin as [<-|[<-|[<-|[<-|[]]]]]; simpl in Hd; break_match_word;
    (split; [eauto | pick_head]).
Qed.

Lemma alnum_digit c : UrlParser.digit c = true -> UrlParser.alnum c = true.
Proof.
  unfold UrlParser.digit, UrlParser.alnum. intros ->. apply Bool.orb_true_r.
Qed.

Lemma forallb_impl {A} (p q : A -> bool) l :
  (forall x, p x = true -> q x = true) -> forallb p l = true -> forallb q l = true.
Proof.
  intros Hpq. induction l as [|x l IH]; simpl; [reflexivity|].
  intros H. apply andb_prop in H as [Hx Hl]. now rewrite (Hpq _ Hx), IH.
Qed.

Lemma tiktok_match pattern s cap :
  In pattern UrlParser.TIKTOK_PATTERNS ->
  RegExp.denotes pattern s None cap ->
  (exists id,
     cap = Some id /\ id <> [] /\ forallb UrlParser.alnum id = true) /\
  (exists a b rest,
     s = a ++ b ++ String.list_ascii_of_string "tiktok.com/" ++ rest /\
     (a = [] \/ a = String.list_ascii_of_string "http://"
      \/ a = String.list_ascii_of_string "https://") /\
     (b = [] \/ b = String.list_ascii_of_string "www."
      \/ b = String.list_ascii_of_string "vm."
      \/ b = String.list_ascii_of_string "m.")).
Proof.
  intros Hin Hd. unfold UrlParser.TIKTOK_PATTERNS in Hin. simpl in Hin.
  destruct Hin as [<-|[<-|[<-|[]]]]; simpl in Hd; break_match_word;
    (split; [eexists; split; [reflexivity|]; split;
               [assumption | eauto using forallb_impl, alnum_digit]
            | pick_head]).
Qed.

(** No string is a word of a YouTube pattern and of a TikTok pattern. *)
Lemma patterns_exclusive y t s cap cap' :
  In y UrlParser.YOUTUBE_PATTERNS -> In t UrlParser.TIKTOK_PATTERNS ->
  RegExp.denotes y s None cap -> RegExp.denotes t s None cap' -> False.
Proof.
  intros Hy Ht Hdy Hdt.
  destruct (youtube_match _ _ _ Hy Hdy) as [_ (a & b & rest & E & Ha & Hb)].
  destruct (tiktok_match _ _ _ Ht Hdt) as [_ (a' & b' & rest' & E' & Ha' & Hb')].
  rewrite E in E'. clear E Hdy Hdt.
  destruct Ha as [-> | [-> | ->]], Hb as [-> | ->], Ha' as [-> | [-> | ->]],
    Hb' as [-> | [-> | [-> | ->]]]; simpl in E'; discriminate.
Qed.

(** *** Trimming *)

Lemma chars_trim s :
  String.list_ascii_of_string (UrlParser.trim s)
  = rev (UrlParser.trimStart (rev (UrlParser.trimStart (String.list_ascii_of_string s)))).
Proof. unfold UrlParser.trim. apply String.list_ascii_of_string_of_list_ascii. Qed.

Lemma trimStart_head x :
  UrlParser.trimStart x = [] \/
  exists c x', UrlParser.trimStart x = c :: x' /\ UrlParser.whitespace c = false.
Proof.
  induction x as [|c x IH]; simpl; [now left|].
  destruct (UrlParser.whitespace c) eqn:E; [exact IH|]. right. eauto.
Qed.

Lemma trimStart_clean c x :
  UrlParser.whitespace c = false -> UrlParser.trimStart (c :: x) = c :: x.
Proof. intros H. simpl. now rewrite H. Qed.

Lemma trimStart_idem x :
  UrlParser.trimStart (UrlParser.trimStart x) = UrlParser.trimStart x.
Proof.
  destruct (trimStart_head x) as [->|(c & x' & -> & Hc)]; [reflexivity|].
  now apply trimStart_clean.
Qed.

Lemma trimStart_snoc x c :
  UrlParser.whitespace c = false ->
  UrlParser.trimStart (x ++ [c]) = UrlParser.trimStart x ++ [c].
Proof.
  intros Hc. induction x as [|d x IH]; simpl; [now rewrite Hc|].
  destruct (UrlParser.whitespace d); [exact IH | reflexivity].
Qed.

(** Trimming the end keeps a first character that is not white space. *)
Lemma trimEnd_head c x :
  UrlParser.whitespace c = false ->
  rev (UrlParser.trimStart (rev (c :: x)))
  = c :: rev (UrlParser.trimStart (rev x)).
Proof.
  intros Hc. simpl. rewrite trimStart_snoc by exact Hc.
  now rewrite rev_app_distr.
Qed.

Lemma trim_trim s : UrlParser.trim (UrlParser.trim s) = UrlParser.trim s.
Proof.
  unfold UrlParser.trim at 1. rewrite chars_trim. unfold UrlParser.trim. f_equal.
  set (t := UrlParser.trimStart (String.list_ascii_of_string s)).
  assert (Hu : UrlParser.trimStart (rev (UrlParser.trimStart (rev t)))
               = rev (UrlParser.trimStart (rev t))).
  { destruct (trimStart_head (String.list_ascii_of_string s))
      as [E|(c & x' & E & Hc)]; fold t in E; rewrite E.
    - reflexivity.
    - rewrite trimEnd_head by exact Hc. now apply trimStart_clean. }
  rewrite Hu, rev_involutive, trimStart_idem. reflexivity.
Qed.

Lemma falsy_true s : UrlParser.falsy s = true <-> s = "".
Proof. unfold UrlParser.falsy. apply String.eqb_eq. Qed.

Lemma falsy_false s : UrlParser.falsy s = false <-> s <> "".
Proof. unfold UrlParser.falsy. apply String.eqb_neq. Qed.

(** *** The validators and [extractVideoId] *)

Lemma validateYouTubeURL_trim url :
  UrlParser.validateYouTubeURL (UrlParser.trim url) = UrlParser.validateYouTubeURL url.
Proof.
  unfold UrlParser.validateYouTubeURL.
  destruct (UrlParser.falsy url) eqn:E.
  - apply falsy_true in E. subst url. reflexivity.
  - cbv zeta. rewrite trim_trim.
    destruct (UrlParser.falsy (UrlParser.trim url)) eqn:Et; [|reflexivity].
    apply falsy_true in Et. rewrite Et. reflexivity.
Qed.

Lemma validateTikTokURL_trim url :
  UrlParser.validateTikTokURL (UrlParser.trim url) = UrlParser.validateTikTokURL url.
Proof.
  unfold UrlParser.validateTikTokURL.
  destruct (UrlParser.falsy url) eqn:E.
  - apply falsy_true in E. subst url. reflexivity.
  - cbv zeta. rewrite trim_trim.
    destruct (UrlParser.falsy (UrlParser.trim url)) eqn:Et; [|reflexivity].
    apply falsy_true in Et. rewrite Et. reflexivity.
Qed.

Lemma extractVideoId_trim url :
  UrlParser.extractVideoId (UrlParser.trim url) = UrlParser.extractVideoId url.
Proof.
  unfold UrlParser.extractVideoId.
  destruct (UrlParser.falsy url) eqn:E.
  - apply falsy_true in E. subst url. reflexivity.
  - cbv zeta. rewrite trim_trim.
    destruct (UrlParser.falsy (UrlParser.trim url)) eqn:Et; [|reflexivity].
    apply falsy_true in Et. rewrite Et. reflexivity.
Qed.

Lemma existsb_test_true patterns s :
  existsb (fun pattern => RegExp.test pattern s) patterns = true <->
  exists pattern cap,
    In pattern patterns /\
    RegExp.denotes pattern (String.list_ascii_of_string s) None cap.
Proof.
  rewrite existsb_exists. split.
  - intros (pattern & Hin & Ht). apply test_true in Ht as [cap Hd]. eauto.
  - intros (pattern & cap & Hin & Hd). exists pattern. split; [exact Hin|].
    apply test_true. eauto.
Qed.

Lemma first_capture_Some patterns s id :
  UrlParser.first_capture patterns s = Some id ->
  exists pattern c w,
    In pattern patterns /\ RegExp.exec pattern s = Some (Some (c :: w)) /\
    id = String.string_of_list_ascii (c :: w).
Proof.
  induction patterns as [|pattern rest IH]; simpl; [discriminate|].
  destruct (RegExp.exec pattern s) as [[[|c w]|]|] eqn:E; intros H;
    try (destruct (IH H) as (p & c' & w' & Hin & He & Hid);
         exists p, c', w'; now auto).
  injection H as <-. exists pattern, c, w. auto.
Qed.

Lemma first_capture_None patterns s pattern cap :
  UrlParser.first_capture patterns s = None ->
  In pattern patterns -> RegExp.exec pattern s = Some cap ->
  cap = None \/ cap = Some [].
Proof.
  induction patterns as [|p rest IH]; simpl; [tauto|].
  intros H [->|Hin] He.
  - rewrite He in H. destruct cap as [[|c w]|]; auto. discriminate.
  - destruct (RegExp.exec p s) as [[[|c w]|]|]; try discriminate; now apply IH.
Qed.

Lemma first_capture_youtube s :
  existsb (fun pattern => RegExp.test pattern s) UrlParser.YOUTUBE_PATTERNS = true ->
  exists id,
    UrlParser.first_capture UrlParser.YOUTUBE_PATTERNS s
    = Some (String.string_of_list_ascii id) /\
    length id = 11%nat /\ forallb UrlParser.idchar id = true.
Proof.
  intros H. apply existsb_exists in H as (pattern & Hin & Ht).
  unfold RegExp.test in Ht.
  destruct (RegExp.exec pattern s) as [cap|] eqn:He; [|discriminate].
  destruct (youtube_match _ _ _ Hin (exec_sound _ _ _ He))
    as [(id & -> & Hlen & Hid) _].
  destruct (UrlParser.first_capture UrlParser.YOUTUBE_PATTERNS s) as [id'|] eqn:Ef.
  - destruct (first_capture_Some _ _ _ Ef) as (p & c & w & Hin' & He' & ->).
    destruct (youtube_match _ _ _ Hin' (exec_sound _ _ _ He'))
      as [(id2 & E2 & Hlen2 & Hid2) _].
    injection E2 as <-. eauto.
  - destruct (first_capture_None _ _ _ _ Ef Hin He) as [E|E]; [discriminate|].
    injection E as ->. discriminate.
Qed.

Lemma first_capture_tiktok s :
  existsb (fun pattern => RegExp.test pattern s) UrlParser.TIKTOK_PATTERNS = true ->
  exists c id,
    UrlParser.first_capture UrlParser.TIKTOK_PATTERNS s
    = Some (String.string_of_list_ascii (c :: id)) /\
    forallb UrlParser.alnum (c :: id) = true.
Proof.
  intros H. apply existsb_exists in H as (pattern & Hin & Ht).
  unfold RegExp.test in Ht.
  destruct (RegExp.exec pattern s) as [cap|] eqn:He; [|discriminate].
  destruct (tiktok_match _ _ _ Hin (exec_sound _ _ _ He))
    as [(id & -> & Hne & Hid) _].
  destruct (UrlParser.first_capture UrlParser.TIKTOK_PATTERNS s) as [id'|] eqn:Ef.
  - destruct (first_capture_Some _ _ _ Ef) as (p & c & w & Hin' & He' & ->).
    destruct (tiktok_match _ _ _ Hin' (exec_sound _ _ _ He'))
      as [(id2 & E2 & Hne2 & Hid2) _].
    injection E2 as <-. eauto.
  - destruct (first_capture_None _ _ _ _ Ef Hin He) as [E|E]; [discriminate|].
    injection E as ->. congruence.
Qed.

Lemma first_capture_no_match patterns s :
  existsb (fun pattern => RegExp.test pattern s) patterns = false ->
  UrlParser.first_capture patterns s = None.
Proof.
  induction patterns as [|p rest IH]; simpl; [reflexivity|].
  intros H. apply Bool.orb_false_iff in H as [Hp Hrest].
  unfold RegExp.test in Hp. destruct (RegExp.exec p s); [discriminate|].
  now apply IH.
Qed.

Lemma validators_exclusive url :
  UrlParser.validateYouTubeURL url = true ->
  UrlParser.validateTikTokURL url = false.
Proof.
  unfold UrlParser.validateYouTubeURL, UrlParser.validateTikTokURL.
  destruct (UrlParser.falsy url); [discriminate|]. cbv zeta. intros Hy.
  destruct (existsb _ UrlParser.TIKTOK_PATTERNS) eqn:Ht; [|reflexivity].
  apply existsb_test_true in Hy as (y & cap & Hiny & Hdy).
  apply existsb_test_true in Ht as (t & cap' & Hint & Hdt).
  destruct (patterns_exclusive y t _ cap cap' Hiny Hint Hdy Hdt).
Qed.

Lemma String_length_of_list l :
  String.length (String.string_of_list_ascii l) = length l.
Proof. induction l as [|c l IH]; simpl; [reflexivity | now rewrite IH]. Qed.

(** What [extractVideoId] returns, by what the validators say. *)
Lemma extractVideoId_cases url :
  match UrlParser.extractVideoId url with
  | Some id =>
      id <> "" /\
      if UrlParser.validateYouTubeURL url
      then String.length id = 11%nat /\ UrlParser.all_of UrlParser.idchar id = true
      else UrlParser.validateTikTokURL url = true /\
           UrlParser.all_of UrlParser.alnum id = true
  | None =>
      UrlParser.validateYouTubeURL url = false /\
      UrlParser.validateTikTokURL url = false
  end.
Proof.
  unfold UrlParser.extractVideoId, UrlParser.validateYouTubeURL,
    UrlParser.validateTikTokURL.
  destruct (UrlParser.falsy url); [auto|]. cbv zeta.
  destruct (existsb _ UrlParser.YOUTUBE_PATTERNS) eqn:Ey.
  - destruct (first_capture_youtube _ Ey) as (id & -> & Hlen & Hid).
    unfold UrlParser.all_of.
    rewrite String_length_of_list, String.list_ascii_of_string_of_list_ascii.
    repeat split; auto. destruct id; [discriminate Hlen | discriminate].
  - rewrite (first_capture_no_match _ _ Ey).
    destruct (existsb _ UrlParser.TIKTOK_PATTERNS) eqn:Et.
    + destruct (first_capture_tiktok _ Et) as (c & id & -> & Hid).
      unfold UrlParser.all_of. rewrite String.list_ascii_of_string_of_list_ascii.
      repeat split; auto.
    + rewrite (first_capture_no_match _ _ Et). auto.
Qed.

(** *** [parseURL] *)

Lemma parseURL_cases url :
  match UrlParser.parseURL url with
  | Some parsed =>
      UrlParser.originalUrl parsed = UrlParser.trim url /\
      UrlParser.extractVideoId url = Some (UrlParser.videoId parsed) /\
      match UrlParser.platform parsed with
      | youtube =>
          UrlParser.validateYouTubeURL url = true /\
          UrlParser.validateTikTokURL url = false /\
          String.length (UrlParser.videoId parsed) = 11%nat /\
          UrlParser.all_of UrlParser.idchar (UrlParser.videoId parsed) = true
      | tiktok =>
          UrlParser.validateYouTubeURL url = false /\
          UrlParser.validateTikTokURL url = true /\
          UrlParser.videoId parsed <> "" /\
          UrlParser.all_of UrlParser.alnum (UrlParser.videoId parsed) = true
      end
  | None =>
      UrlParser.validateYouTubeURL url = false /\
      UrlParser.validateTikTokURL url = false
  end.
Proof.
  unfold UrlParser.parseURL.
  destruct (UrlParser.falsy url) eqn:Ef.
  { apply falsy_true in Ef. subst url. split; reflexivity. }
  cbv zeta.
  rewrite validateYouTubeURL_trim, validateTikTokURL_trim, extractVideoId_trim.
  pose proof (extractVideoId_cases url) as Hc.
  pose proof (validators_exclusive url) as Hx.
  destruct (UrlParser.extractVideoId url) as [id|].
  - destruct Hc as [Hne Hc]. simpl.
    apply falsy_false in Hne. rewrite Hne.
    apply falsy_false in Hne.
    destruct (UrlParser.validateYouTubeURL url).
    + simpl. destruct Hc. specialize (Hx eq_refl). repeat split; assumption.
    + destruct Hc as [-> Ha]. simpl. repeat split; assumption.
  - destruct Hc as [-> ->]. auto.
Qed.

(** X19.  What [parseURL] returns.  A result carries the trimmed URL and the id
    [extractVideoId] finds.  Its platform is [youtube] exactly for a URL
    that [validateYouTubeURL] accepts, and the id then has 11 characters of
    [a-zA-Z0-9_-]; it is [tiktok] exactly for a URL that
    [validateTikTokURL] accepts, and the id is then a non-empty string of
    letters and digits.  No URL is accepted by both validators, and
    [parseURL] returns [null] exactly for a URL that neither accepts. *)
Theorem parseURL_spec (url : string) :
  match UrlParser.parseURL url with
  | Some parsed =>
      UrlParser.originalUrl parsed = UrlParser.trim url /\
      UrlParser.extractVideoId url = Some (UrlParser.videoId parsed) /\
      match UrlParser.platform parsed with
      | youtube =>
          UrlParser.validateYouTubeURL url = true /\
          UrlParser.validateTikTokURL url = false /\
          String.length (UrlParser.videoId parsed) = 11%nat /\
          UrlParser.all_of UrlParser.idchar (UrlParser.videoId parsed) = true
      | tiktok =>
          UrlParser.validateYouTubeURL url = false /\
          UrlParser.validateTikTokURL url = true /\
          UrlParser.videoId parsed <> "" /\
          UrlParser.all_of UrlParser.alnum (UrlParser.videoId parsed) = true
      end
  | None =>
      UrlParser.validateYouTubeURL url = false /\
      UrlParser.validateTikTokURL url = false
  end.
Proof. exact (parseURL_cases url). Qed.

(** *** The URL form *)

Lemma trim_empty_invalid url :
  UrlParser.trim url = "" ->
  UrlParser.validateYouTubeURL url = false /\ UrlParser.validateTikTokURL url = false.
Proof.
  intros E. unfold UrlParser.validateYouTubeURL, UrlParser.validateTikTokURL.
  destruct (UrlParser.falsy url); [auto|]. cbv zeta. rewrite E. split; reflexivity.
Qed.

(** X20.  The form loads a video exactly for a URL its platform's validator
    accepts.  When [validateYouTubeURL] (on the YouTube form) or
    [validateTikTokURL] (on the TikTok form) accepts the URL, [handleSubmit]
    hands a video to [onVideoInfoLoaded]: the video [extractVideoInfo]
    returns for the parsed URL, of the platform of the form and with the id
    [extractVideoId] finds.  Otherwise it is refused with the validation
    message of the case.  The [catch] block is never reached: a validated
    URL always parses, and the extractor does not fail on it. *)
Theorem handleSubmit_spec (platform : Platform) (url : string) :
  let accepted :=
    match platform with
    | youtube => UrlParser.validateYouTubeURL url
    | tiktok => UrlParser.validateTikTokURL url
    end in
  match URLInput.handleSubmit platform url with
  | URLInput.Loaded videoInfo =>
      accepted = true /\
      VideoInfo.platform videoInfo = platform /\
      UrlParser.extractVideoId url = Some (VideoInfo.id videoInfo) /\
      exists parsedUrl,
        UrlParser.parseURL url = Some parsedUrl /\
        VideoExtractor.extractVideoInfo parsedUrl = Ok videoInfo
  | URLInput.Refused validationError =>
      accepted = false /\
      validationError
      = if UrlParser.falsy (UrlParser.trim url) then "กรุณาใส่ URL"
        else match platform with
             | youtube => "กรุณาใส่ URL YouTube ที่ถูกต้อง"
             | tiktok => "กรุณาใส่ URL TikTok ที่ถูกต้อง"
             end
  | URLInput.Failed _ => False
  end.
Proof.
  cbv zeta. unfold URLInput.handleSubmit, URLInput.validateURL.
  destruct (UrlParser.falsy (UrlParser.trim url)) eqn:Et.
  { apply falsy_true in Et. destruct (trim_empty_invalid url Et).
    destruct platform; auto. }
  pose proof (parseURL_cases url) as Hp.
  destruct platform.
  - destruct (UrlParser.validateYouTubeURL url) eqn:Ey; simpl; [|auto].
    destruct (UrlParser.parseURL url) as [parsed|]; [|destruct Hp; congruence].
    destruct Hp as (Ho & Hid & Hpl).
    destruct (extractVideoInfo_shape parsed) as (k & d & info & He & Hi & Hplat & _).
    rewrite He. destruct (UrlParser.platform parsed) eqn:Epl.
    + rewrite Hi. repeat split; eauto.
    + destruct Hpl. congruence.
  - destruct (UrlParser.validateTikTokURL url) eqn:Ey; simpl; [|auto].
    destruct (UrlParser.parseURL url) as [parsed|]; [|destruct Hp; congruence].
    destruct Hp as (Ho & Hid & Hpl).
    destruct (extractVideoInfo_shape parsed) as (k & d & info & He & Hi & Hplat & _).
    rewrite He. destruct (UrlParser.platform parsed) eqn:Epl.
    + destruct Hpl as (_ & ? & _). congruence.
    + rewrite Hi. repeat split; eauto.
Qed.

(** *** Canonical addresses parse back to their ids *)

Lemma repeat_class_exact n class w k :
  length w = n -> forallb class w = true -> RegExp.repeat_class n class w k = k [].
Proof.
  intros <- Hw. rewrite <- (app_nil_r w) at 2. now apply repeat_class_complete.
Qed.

Lemma consumed_nil s : RegExp.consumed s [] = s.
Proof. rewrite <- (app_nil_r s) at 1. apply consumed_app. Qed.

Lemma chars_app a b :
  String.list_ascii_of_string (a +:+ b)
  = String.list_ascii_of_string a ++ String.list_ascii_of_string b.
Proof. induction a as [|c a IH]; simpl; [reflexivity | now rewrite IH]. Qed.

Lemma star_none class s K :
  (forall pre s', s = pre ++ s' -> K s' = None) -> RegExp.star class s K = None.
Proof.
  induction s as [|c s IH]; intros H; simpl.
  - apply (H [] []). reflexivity.
  - rewrite IH.
    + destruct (class c); apply (H [] (c :: s)); reflexivity.
    + intros pre s' ->. apply (H (c :: pre) s'). reflexivity.
Qed.

Lemma star_greedy class w s' K m :
  forallb class w = true ->
  match s' with [] => True | c :: _ => class c = false end ->
  K s' = Some m ->
  RegExp.star class (w ++ s') K = Some m.
Proof.
  intros Hw Hs Hk. induction w as [|c w IH]; simpl.
  - destruct s' as [|c s']; simpl; [exact Hk|]. now rewrite Hs.
  - simpl in Hw. apply andb_prop in Hw as [Hc Hw]. now rewrite Hc, IH.
Qed.


Section UrlRoundTrip.

Import Stdlib.Strings.Ascii.

Lemma nonempty_chars s : s <> "" -> String.list_ascii_of_string s <> [].
Proof. destruct s; [congruence | discriminate]. Qed.


Lemma skip_to_v s cap k :
  forallb (fun c => negb (Ascii.eqb "&"%char c)) s = true ->
  RegExp.run (RegExp.Opt (RegExp.seq [RegExp.Star UrlParser.dot; RegExp.Lit "&"])) s cap k
  = k s cap.
Proof.
  intros Hs. cbn [RegExp.run RegExp.seq fold_right].
  rewrite star_none; [reflexivity|].
  intros pre s' ->. rewrite forallb_app in Hs. apply andb_prop in Hs as [_ Hs].
  destruct s' as [|c s']; [reflexivity|].
  cbn [forallb] in Hs. apply andb_prop in Hs as [Hc _]. apply Bool.negb_true_iff in Hc.
  cbn [String.list_ascii_of_string RegExp.lit RegExp.run]. now rewrite Hc.
Qed.

Lemma idchar_not_amp c : UrlParser.idchar c = true -> negb (Ascii.eqb "&"%char c) = true.
Proof.
  intros H. apply Bool.negb_true_iff, Ascii.eqb_neq. intros <-. discriminate H.
Qed.


Lemma length_chars s : length (String.list_ascii_of_string s) = String.length s.
Proof. induction s as [|c s IH]; simpl; [reflexivity | now rewrite IH]. Qed.


Lemma run_seq_split r1 r2 r3 rest s cap k :
  RegExp.run (RegExp.seq (r1 :: r2 :: r3 :: rest)) s cap k
  = RegExp.run (RegExp.seq [r1; r2; r3]) s cap
      (fun s' cap' => RegExp.run (RegExp.seq rest) s' cap' k).
Proof. reflexivity. Qed.

Lemma youtube_head_run a b l l' s cap K :
  In a [""; "http://"; "https://"] -> In b [""; "www."] ->
  In l ["youtube.com/watch?"; "youtu.be/"; "youtube.com/embed/"; "youtube.com/shorts/"] ->
  In l' ["youtube.com/watch?"; "youtu.be/"; "youtube.com/embed/"; "youtube.com/shorts/"] ->
  RegExp.run (RegExp.seq [UrlParser.scheme; UrlParser.www; RegExp.Lit l])
    (String.list_ascii_of_string a ++ String.list_ascii_of_string b
     ++ String.list_ascii_of_string l' ++ s) cap K
  = if String.eqb l l' then K s cap else None.
Proof.
  intros Ha Hb Hl Hl'. simpl in Ha, Hb, Hl, Hl'.
  destruct Ha as [<-|[<-|[<-|[]]]], Hb as [<-|[<-|[]]],
    Hl as [<-|[<-|[<-|[<-|[]]]]], Hl' as [<-|[<-|[<-|[<-|[]]]]];
    cbn; try reflexivity; destruct (K s cap); reflexivity.
Qed.


Lemma run_seq_cons r rest s cap k :
  RegExp.run (RegExp.seq (r :: rest)) s cap k
  = RegExp.run r s cap (fun s' cap' => RegExp.run (RegExp.seq rest) s' cap' k).
Proof. reflexivity. Qed.

Lemma no_amp idl :
  forallb UrlParser.idchar idl = true ->
  forallb (fun c => negb (Ascii.eqb "&"%char c)) idl = true.
Proof. apply forallb_impl, idchar_not_amp. Qed.


Lemma class_not_whitespace c :
  UrlParser.idchar c = true -> UrlParser.whitespace c = false.
Proof.
  destruct c as [[] [] [] [] [] [] [] []]; intros H; try reflexivity; discriminate H.
Qed.

(** A string that neither begins nor ends with white space is its own
    trimming. *)
Lemma trim_clean url c x y d :
  String.list_ascii_of_string url = c :: x ->
  String.list_ascii_of_string url = y ++ [d] ->
  UrlParser.whitespace c = false -> UrlParser.whitespace d = false ->
  UrlParser.trim url = url.
Proof.
  intros E1 E2 Hc Hd. unfold UrlParser.trim.
  rewrite E1, trimStart_clean by exact Hc. rewrite <- E1, E2.
  rewrite rev_app_distr. cbn [rev app]. rewrite trimStart_clean by exact Hd.
  cbn [rev]. rewrite rev_involutive, <- E2.
  apply String.string_of_list_ascii_of_string.
Qed.


Lemma trim_affix p url w :
  String.list_ascii_of_string url = String.list_ascii_of_string p ++ w ->
  match String.list_ascii_of_string p with
  | c :: _ => UrlParser.whitespace c = false
  | [] => False
  end ->
  w <> [] -> forallb UrlParser.idchar w = true ->
  UrlParser.trim url = url /\ UrlParser.falsy url = false.
Proof.
  intros E Hc Hne Hw.
  destruct (String.list_ascii_of_string p) as [|c x]; [destruct Hc|].
  destruct (exists_last Hne) as (w0 & d & ->).
  rewrite forallb_app in Hw. apply andb_prop in Hw as [_ Hd]. simpl in Hd.
  rewrite Bool.andb_true_r in Hd. split.
  - apply (trim_clean url c (x ++ w0 ++ [d]) ((c :: x) ++ w0) d);
      [exact E | now rewrite E, app_assoc | exact Hc | now apply class_not_whitespace].
  - apply falsy_false. intros ->. discriminate E.
Qed.

Lemma digit_idchar c : UrlParser.digit c = true -> UrlParser.idchar c = true.
Proof.
  intros H. unfold UrlParser.idchar. now rewrite (alnum_digit c H).
Qed.

Lemma alnum_idchar c : UrlParser.alnum c = true -> UrlParser.idchar c = true.
Proof. intros H. unfold UrlParser.idchar. now rewrite H. Qed.

Lemma youtube_exec (a b l pre id : string) :
  In a [""; "http://"; "https://"] -> In b [""; "www."] ->
  In (l, pre) [("youtube.com/watch?", "v="); ("youtu.be/", ""); ("youtube.com/embed/", "");
               ("youtube.com/shorts/", "")] ->
  String.length id = 11%nat -> UrlParser.all_of UrlParser.idchar id = true ->
  UrlParser.first_capture UrlParser.YOUTUBE_PATTERNS (a +:+ b +:+ l +:+ pre +:+ id) = Some id /\
  existsb (fun pattern => RegExp.test pattern (a +:+ b +:+ l +:+ pre +:+ id))
    UrlParser.YOUTUBE_PATTERNS = true.
Proof.
  intros Ha Hb Hl Hlen Hall.
  unfold UrlParser.all_of in Hall. rewrite <- length_chars in Hlen.
  assert (Hid : String.string_of_list_ascii (String.list_ascii_of_string id) = id)
    by apply String.string_of_list_ascii_of_string.
  unfold UrlParser.first_capture, existsb, RegExp.test, RegExp.exec,
    UrlParser.YOUTUBE_PATTERNS.
  rewrite !chars_app.
  set (idl := String.list_ascii_of_string id) in *. clearbody idl.
  assert (Hne : exists c w, idl = c :: w)
    by (destruct idl; [discriminate Hlen | eauto]).
  simpl in Hl. destruct Hl as [E|[E|[E|[E|[]]]]]; injection E as <- <-;
    repeat (rewrite run_seq_split, youtube_head_run by (simpl; tauto);
            cbn [String.eqb Ascii.eqb Bool.eqb]);
    rewrite ?run_seq_cons, ?skip_to_v by (simpl; now apply no_amp);
    cbn -[RegExp.repeat_class RegExp.star RegExp.consumed];
    rewrite repeat_class_exact by assumption;
    rewrite consumed_nil; destruct Hne as (c & w & E); rewrite E in *;
    (split; [f_equal; exact Hid | reflexivity]).
Qed.


Lemma parses_to_youtube url id :
  UrlParser.trim url = url -> UrlParser.falsy url = false -> id <> "" ->
  UrlParser.first_capture UrlParser.YOUTUBE_PATTERNS url = Some id ->
  existsb (fun pattern => RegExp.test pattern url) UrlParser.YOUTUBE_PATTERNS = true ->
  parses_to youtube url id.
Proof.
  intros Htrim Hfalsy Hne Hfc Hex.
  assert (Hv : UrlParser.validateYouTubeURL url = true).
  { unfold UrlParser.validateYouTubeURL. rewrite Hfalsy. cbv zeta. now rewrite Htrim. }
  assert (He : UrlParser.extractVideoId url = Some id).
  { unfold UrlParser.extractVideoId. rewrite Hfalsy. cbv zeta. now rewrite Htrim, Hfc. }
  unfold parses_to. split; [|split; [exact He|split; [exact Hv|]]].
  - unfold UrlParser.parseURL. rewrite Hfalsy. cbv zeta. rewrite Htrim, Hv, He.
    simpl. apply falsy_false in Hne. now rewrite Hne.
  - now apply validators_exclusive.
Qed.

Lemma parses_to_tiktok url id :
  UrlParser.trim url = url -> UrlParser.falsy url = false -> id <> "" ->
  UrlParser.first_capture UrlParser.YOUTUBE_PATTERNS url = None /\
  existsb (fun pattern => RegExp.test pattern url) UrlParser.YOUTUBE_PATTERNS = false ->
  UrlParser.first_capture UrlParser.TIKTOK_PATTERNS url = Some id /\
  existsb (fun pattern => RegExp.test pattern url) UrlParser.TIKTOK_PATTERNS = true ->
  parses_to tiktok url id.
Proof.
  intros Htrim Hfalsy Hne [Hfy Hey] [Hft Het].
  assert (Hy : UrlParser.validateYouTubeURL url = false).
  { unfold UrlParser.validateYouTubeURL. rewrite Hfalsy. cbv zeta. now rewrite Htrim. }
  assert (Hv : UrlParser.validateTikTokURL url = true).
  { unfold UrlParser.validateTikTokURL. rewrite Hfalsy. cbv zeta. now rewrite Htrim. }
  assert (He : UrlParser.extractVideoId url = Some id).
  { unfold UrlParser.extractVideoId. rewrite Hfalsy. cbv zeta.
    now rewrite Htrim, Hfy, Hft. }
  unfold parses_to. split; [|split; [exact He|split; [exact Hy|exact Hv]]].
  unfold UrlParser.parseURL. rewrite Hfalsy. cbv zeta. rewrite Htrim, Hy, Hv, He.
  simpl. apply falsy_false in Hne. now rewrite Hne.
Qed.


(** X21.  Every canonical YouTube address parses back to its id.  For an id of
    11 characters of [a-zA-Z0-9_-], the watch, short, embed and shorts
    addresses, with or without the scheme and the [www.], are accepted by
    [validateYouTubeURL] and refused by [validateTikTokURL];
    [extractVideoId] returns the id, and [parseURL] returns the platform
    [youtube], the id and the address itself. *)
Theorem youtube_url_round_trip (scheme www path id : string) :
  In scheme [""; "http://"; "https://"] ->
  In www [""; "www."] ->
  In path ["youtube.com/watch?v="; "youtu.be/"; "youtube.com/embed/";
           "youtube.com/shorts/"] ->
  String.length id = 11%nat ->
  UrlParser.all_of UrlParser.idchar id = true ->
  parses_to youtube (scheme +:+ www +:+ path +:+ id) id.
Proof.
  intros Ha Hb Hp Hlen Hall.
  set (url := scheme +:+ www +:+ path +:+ id).
  assert (Hshape : exists l pre,
            In (l, pre) [("youtube.com/watch?", "v="); ("youtu.be/", "");
                         ("youtube.com/embed/", ""); ("youtube.com/shorts/", "")] /\
            url = scheme +:+ www +:+ l +:+ pre +:+ id).
  { simpl in Hp. destruct Hp as [<-|[<-|[<-|[<-|[]]]]];
      [exists "youtube.com/watch?", "v=" | exists "youtu.be/", ""
      | exists "youtube.com/embed/", "" | exists "youtube.com/shorts/", ""];
      (split; [simpl; tauto | reflexivity]). }
  destruct Hshape as (l & pre & Hin & Eurl).
  destruct (youtube_exec scheme www l pre id Ha Hb Hin Hlen Hall) as [Hfc Hex].
  rewrite <- Eurl in Hfc, Hex.
  assert (Hne : id <> "") by (intros ->; discriminate Hlen).
  destruct (trim_affix (scheme +:+ www +:+ path) url (String.list_ascii_of_string id))
    as [Htrim Hfalsy].
  - unfold url. rewrite !chars_app, !app_assoc. reflexivity.
  - simpl in Ha, Hb, Hp.
    destruct Ha as [<-|[<-|[<-|[]]]], Hb as [<-|[<-|[]]], Hp as [<-|[<-|[<-|[<-|[]]]]];
      reflexivity.
  - now apply nonempty_chars.
  - exact Hall.
  - now apply parses_to_youtube.
Qed.

Lemma youtube_url_round_trip_witness :
  parses_to youtube "https://www.youtube.com/watch?v=dQw4w9WgXcQ" "dQw4w9WgXcQ".
Proof.
  apply (youtube_url_round_trip "https://" "www." "youtube.com/watch?v=" "dQw4w9WgXcQ");
    simpl; tauto.
Defined.

Lemma run_seq_split2 r1 r2 rest s cap k :
  RegExp.run (RegExp.seq (r1 :: r2 :: rest)) s cap k
  = RegExp.run (RegExp.seq [r1; r2]) s cap
      (fun s' cap' => RegExp.run (RegExp.seq rest) s' cap' k).
Proof. reflexivity. Qed.

Lemma run_plus_greedy class w s' cap k m :
  w <> [] -> forallb class w = true ->
  match s' with [] => True | c :: _ => class c = false end ->
  k s' cap = Some m ->
  RegExp.run (RegExp.Plus class) (w ++ s') cap k = Some m.
Proof.
  intros Hne Hw Hs Hk. destruct w as [|c w]; [congruence|].
  simpl in Hw. apply andb_prop in Hw as [Hc Hw]. simpl. rewrite Hc.
  now apply star_greedy.
Qed.

(** The YouTube patterns on a TikTok address. *)
Lemma youtube_head_tiktok a p l s cap K :
  In a [""; "http://"; "https://"] ->
  In p ["tiktok.com/@"; "www.tiktok.com/@"; "vm.tiktok.com/"; "m.tiktok.com/v/"] ->
  In l ["youtube.com/watch?"; "youtu.be/"; "youtube.com/embed/"; "youtube.com/shorts/"] ->
  RegExp.run (RegExp.seq [UrlParser.scheme; UrlParser.www; RegExp.Lit l])
    (String.list_ascii_of_string a ++ String.list_ascii_of_string p ++ s) cap K
  = None.
Proof.
  intros Ha Hp Hl. simpl in Ha, Hp, Hl.
  destruct Ha as [<-|[<-|[<-|[]]]], Hp as [<-|[<-|[<-|[<-|[]]]]],
    Hl as [<-|[<-|[<-|[<-|[]]]]]; reflexivity.
Qed.

Lemma tiktok_no_youtube a p t :
  In a [""; "http://"; "https://"] ->
  In p ["tiktok.com/@"; "www.tiktok.com/@"; "vm.tiktok.com/"; "m.tiktok.com/v/"] ->
  UrlParser.first_capture UrlParser.YOUTUBE_PATTERNS (a +:+ p +:+ t) = None /\
  existsb (fun pattern => RegExp.test pattern (a +:+ p +:+ t))
    UrlParser.YOUTUBE_PATTERNS = false.
Proof.
  intros Ha Hp.
  unfold UrlParser.first_capture, existsb, RegExp.test, RegExp.exec,
    UrlParser.YOUTUBE_PATTERNS.
  rewrite !chars_app.
  repeat rewrite run_seq_split, youtube_head_tiktok by (simpl; tauto).
  split; reflexivity.
Qed.

Lemma tiktok1_head a b p s cap K :
  In a [""; "http://"; "https://"] -> In b [""; "www."] ->
  In p ["tiktok.com/@"; "vm.tiktok.com/"; "m.tiktok.com/v/"] ->
  RegExp.run (RegExp.seq [UrlParser.scheme; UrlParser.www; RegExp.Lit "tiktok.com/@"])
    (String.list_ascii_of_string a ++ String.list_ascii_of_string b
     ++ String.list_ascii_of_string p ++ s) cap K
  = if String.eqb p "tiktok.com/@" then K s cap else None.
Proof.
  intros Ha Hb Hp. simpl in Ha, Hb, Hp.
  destruct Ha as [<-|[<-|[<-|[]]]], Hb as [<-|[<-|[]]], Hp as [<-|[<-|[<-|[]]]];
    cbn; try reflexivity; destruct (K s cap); reflexivity.
Qed.

Lemma tiktok1_miss a p s cap K :
  In a [""; "http://"; "https://"] ->
  In p ["vm.tiktok.com/"; "m.tiktok.com/v/"] ->
  RegExp.run (RegExp.seq [UrlParser.scheme; UrlParser.www; RegExp.Lit "tiktok.com/@"])
    (String.list_ascii_of_string a ++ String.list_ascii_of_string p ++ s) cap K
  = None.
Proof.
  intros Ha Hp. simpl in Ha, Hp.
  destruct Ha as [<-|[<-|[<-|[]]]], Hp as [<-|[<-|[]]]; reflexivity.
Qed.

Lemma tiktok2_head a p s cap K :
  In a [""; "http://"; "https://"] ->
  In p ["vm.tiktok.com/"; "m.tiktok.com/v/"] ->
  RegExp.run (RegExp.seq [UrlParser.scheme; RegExp.Opt (RegExp.Lit "vm.");
                          RegExp.Lit "tiktok.com/"])
    (String.list_ascii_of_string a ++ String.list_ascii_of_string p ++ s) cap K
  = if String.eqb p "vm.tiktok.com/" then K s cap else None.
Proof.
  intros Ha Hp. simpl in Ha, Hp.
  destruct Ha as [<-|[<-|[<-|[]]]], Hp as [<-|[<-|[]]];
    cbn; try reflexivity; destruct (K s cap); reflexivity.
Qed.

Lemma tiktok3_head a s cap K :
  In a [""; "http://"; "https://"] ->
  RegExp.run (RegExp.seq [UrlParser.scheme; RegExp.Lit "m.tiktok.com/v/"])
    (String.list_ascii_of_string a ++ String.list_ascii_of_string "m.tiktok.com/v/" ++ s)
    cap K
  = K s cap.
Proof.
  intros Ha. simpl in Ha.
  destruct Ha as [<-|[<-|[<-|[]]]]; cbn; destruct (K s cap); reflexivity.
Qed.

Lemma run_group r s cap k :
  RegExp.run (RegExp.Group r) s cap k
  = RegExp.run r s cap (fun s' _ => k s' (Some (RegExp.consumed s s'))).
Proof. reflexivity. Qed.

Lemma run_lit l s cap k :
  RegExp.run (RegExp.Lit l) (String.list_ascii_of_string l ++ s) cap k = k s cap.
Proof. simpl. now rewrite lit_app. Qed.

(** The tail of the TikTok patterns: the id, to the end of the input. *)
Lemma run_id_tail class (tail : list RegExp.t) w :
  w <> [] -> forallb class w = true ->
  RegExp.run (RegExp.seq tail) [] (Some w)
    (fun s' cap => match s' with [] => Some cap | _ :: _ => None end)
  = Some (Some w) ->
  RegExp.run (RegExp.seq (RegExp.Group (RegExp.Plus class) :: tail)) w None
    (fun s' cap => match s' with [] => Some cap | _ :: _ => None end)
  = Some (Some w).
Proof.
  intros Hne Hw Htail. rewrite run_seq_cons, run_group.
  rewrite <- (app_nil_r w) at 1. apply run_plus_greedy; [exact Hne | exact Hw | exact I|].
  now rewrite consumed_nil.
Qed.

Lemma tiktok_exec_video a b user id :
  In a [""; "http://"; "https://"] -> In b [""; "www."] ->
  user <> "" -> UrlParser.all_of UrlParser.userchar user = true ->
  id <> "" -> UrlParser.all_of UrlParser.digit id = true ->
  RegExp.exec (nth 0 UrlParser.TIKTOK_PATTERNS (RegExp.Lit ""))
    (a +:+ b +:+ "tiktok.com/@" +:+ user +:+ "/video/" +:+ id)
  = Some (Some (String.list_ascii_of_string id)).
Proof.
  intros Ha Hb Hune Hu Hine Hi. unfold RegExp.exec. rewrite !chars_app.
  unfold UrlParser.all_of in Hu, Hi.
  assert (Hul : String.list_ascii_of_string user <> [])
    by (destruct user; [congruence | discriminate]).
  assert (Hil : String.list_ascii_of_string id <> [])
    by (destruct id; [congruence | discriminate]).
  set (ul := String.list_ascii_of_string user) in *. clearbody ul.
  set (idl := String.list_ascii_of_string id) in *. clearbody idl.
  cbn [nth UrlParser.TIKTOK_PATTERNS].
  rewrite run_seq_split, tiktok1_head by (simpl; tauto).
  cbn [String.eqb Ascii.eqb Bool.eqb].
  rewrite run_seq_cons.
  apply run_plus_greedy; [exact Hul | exact Hu | reflexivity|].
  rewrite run_seq_cons, run_lit.
  apply (run_id_tail UrlParser.digit [UrlParser.query] idl Hil Hi). reflexivity.
Qed.

Lemma tiktok_exec_short a code :
  In a [""; "http://"; "https://"] ->
  code <> "" -> UrlParser.all_of UrlParser.alnum code = true ->
  RegExp.exec (nth 0 UrlParser.TIKTOK_PATTERNS (RegExp.Lit ""))
    (a +:+ "vm.tiktok.com/" +:+ code) = None /\
  RegExp.exec (nth 1 UrlParser.TIKTOK_PATTERNS (RegExp.Lit ""))
    (a +:+ "vm.tiktok.com/" +:+ code)
  = Some (Some (String.list_ascii_of_string code)).
Proof.
  intros Ha Hne Hc. unfold RegExp.exec. rewrite !chars_app.
  unfold UrlParser.all_of in Hc.
  assert (Hcl : String.list_ascii_of_string code <> [])
    by (destruct code; [congruence | discriminate]).
  set (cl := String.list_ascii_of_string code) in *. clearbody cl.
  cbn [nth UrlParser.TIKTOK_PATTERNS]. split.
  - rewrite run_seq_split, tiktok1_miss by (simpl; tauto). reflexivity.
  - rewrite run_seq_split, tiktok2_head by (simpl; tauto).
    cbn [String.eqb Ascii.eqb Bool.eqb].
    apply (run_id_tail UrlParser.alnum [RegExp.Opt (RegExp.Lit "/"); UrlParser.query]
             cl Hcl Hc).
    reflexivity.
Qed.

Lemma tiktok_exec_mobile a id :
  In a [""; "http://"; "https://"] ->
  id <> "" -> UrlParser.all_of UrlParser.digit id = true ->
  RegExp.exec (nth 0 UrlParser.TIKTOK_PATTERNS (RegExp.Lit ""))
    (a +:+ "m.tiktok.com/v/" +:+ id) = None /\
  RegExp.exec (nth 1 UrlParser.TIKTOK_PATTERNS (RegExp.Lit ""))
    (a +:+ "m.tiktok.com/v/" +:+ id) = None /\
  RegExp.exec (nth 2 UrlParser.TIKTOK_PATTERNS (RegExp.Lit ""))
    (a +:+ "m.tiktok.com/v/" +:+ id)
  = Some (Some (String.list_ascii_of_string id)).
Proof.
  intros Ha Hne Hi. unfold RegExp.exec. rewrite !chars_app.
  unfold UrlParser.all_of in Hi.
  assert (Hil : String.list_ascii_of_string id <> [])
    by (destruct id; [congruence | discriminate]).
  set (idl := String.list_ascii_of_string id) in *. clearbody idl.
  cbn [nth UrlParser.TIKTOK_PATTERNS]. split; [|split].
  - rewrite run_seq_split, tiktok1_miss by (simpl; tauto). reflexivity.
  - rewrite run_seq_split, tiktok2_head by (simpl; tauto). reflexivity.
  - rewrite run_seq_split2, tiktok3_head by exact Ha.
    apply (run_id_tail UrlParser.digit [UrlParser.query] idl Hil Hi). reflexivity.
Qed.

Lemma first_capture_hit patterns url pattern rest id :
  patterns = pattern :: rest -> id <> "" ->
  RegExp.exec pattern url = Some (Some (String.list_ascii_of_string id)) ->
  UrlParser.first_capture patterns url = Some id /\
  existsb (fun pattern => RegExp.test pattern url) patterns = true.
Proof.
  intros -> Hne He. simpl. unfold RegExp.test. rewrite He.
  destruct id as [|c id]; [congruence|]. simpl.
  now rewrite String.string_of_list_ascii_of_string.
Qed.

Lemma first_capture_miss pattern rest url :
  RegExp.exec pattern url = None ->
  UrlParser.first_capture (pattern :: rest) url = UrlParser.first_capture rest url /\
  existsb (fun pattern => RegExp.test pattern url) (pattern :: rest)
  = existsb (fun pattern => RegExp.test pattern url) rest.
Proof. intros He. simpl. unfold RegExp.test. now rewrite He. Qed.


(** X22.  Every canonical TikTok address parses back to its id.  The video
    address of a user ([tiktok.com/@user/video/id], with or without
    [www.]), the short address ([vm.tiktok.com/code]) and the mobile address
    ([m.tiktok.com/v/id]), with or without the scheme, are accepted by
    [validateTikTokURL] and refused by [validateYouTubeURL], for every user
    name of [\w.-], every id of digits and every code of letters and
    digits, none of them empty; [extractVideoId] returns the id, and
    [parseURL] returns the platform [tiktok], the id and the address
    itself. *)
Theorem tiktok_url_round_trip (scheme : string) :
  In scheme [""; "http://"; "https://"] ->
  (forall www user id,
     In www [""; "www."] ->
     user <> "" -> UrlParser.all_of UrlParser.userchar user = true ->
     id <> "" -> UrlParser.all_of UrlParser.digit id = true ->
     parses_to tiktok (scheme +:+ www +:+ "tiktok.com/@" +:+ user +:+ "/video/" +:+ id) id) /\
  (forall code,
     code <> "" -> UrlParser.all_of UrlParser.alnum code = true ->
     parses_to tiktok (scheme +:+ "vm.tiktok.com/" +:+ code) code) /\
  (forall id,
     id <> "" -> UrlParser.all_of UrlParser.digit id = true ->
     parses_to tiktok (scheme +:+ "m.tiktok.com/v/" +:+ id) id).
Proof.
  intros Ha. split; [|split].
  - intros www user id Hb Hune Hu Hne Hi.
    set (url := scheme +:+ www +:+ "tiktok.com/@" +:+ user +:+ "/video/" +:+ id).
    destruct (trim_affix (scheme +:+ www +:+ "tiktok.com/@" +:+ user +:+ "/video/") url
                (String.list_ascii_of_string id)) as [Htrim Hfalsy].
    + unfold url. rewrite !chars_app, !app_assoc. reflexivity.
    + simpl in Ha, Hb. destruct Ha as [<-|[<-|[<-|[]]]], Hb as [<-|[<-|[]]]; reflexivity.
    + now apply nonempty_chars.
    + exact (forallb_impl _ _ _ digit_idchar Hi).
    + apply parses_to_tiktok; try assumption.
      * simpl in Hb. destruct Hb as [<-|[<-|[]]].
        -- apply (tiktok_no_youtube scheme "tiktok.com/@"); [exact Ha | simpl; tauto].
        -- apply (tiktok_no_youtube scheme "www.tiktok.com/@"); [exact Ha | simpl; tauto].
      * eapply first_capture_hit; [reflexivity | exact Hne|].
        now apply tiktok_exec_video.
  - intros code Hne Hc.
    set (url := scheme +:+ "vm.tiktok.com/" +:+ code).
    destruct (trim_affix (scheme +:+ "vm.tiktok.com/") url
                (String.list_ascii_of_string code)) as [Htrim Hfalsy].
    + unfold url. rewrite !chars_app, !app_assoc. reflexivity.
    + simpl in Ha. destruct Ha as [<-|[<-|[<-|[]]]]; reflexivity.
    + now apply nonempty_chars.
    + exact (forallb_impl _ _ _ alnum_idchar Hc).
    + destruct (tiktok_exec_short scheme code Ha Hne Hc) as [E1 E2].
      apply parses_to_tiktok; try assumption.
      * apply (tiktok_no_youtube scheme "vm.tiktok.com/"); [exact Ha | simpl; tauto].
      * unfold url.
        change UrlParser.TIKTOK_PATTERNS
          with [nth 0 UrlParser.TIKTOK_PATTERNS (RegExp.Lit "");
                nth 1 UrlParser.TIKTOK_PATTERNS (RegExp.Lit "");
                nth 2 UrlParser.TIKTOK_PATTERNS (RegExp.Lit "")].
        destruct (first_capture_miss _ [nth 1 UrlParser.TIKTOK_PATTERNS (RegExp.Lit "");
                                        nth 2 UrlParser.TIKTOK_PATTERNS (RegExp.Lit "")]
                    _ E1) as [-> ->].
        eapply first_capture_hit; [reflexivity | exact Hne | exact E2].
  - intros id Hne Hi.
    set (url := scheme +:+ "m.tiktok.com/v/" +:+ id).
    destruct (trim_affix (scheme +:+ "m.tiktok.com/v/") url
                (String.list_ascii_of_string id)) as [Htrim Hfalsy].
    + unfold url. rewrite !chars_app, !app_assoc. reflexivity.
    + simpl in Ha. destruct Ha as [<-|[<-|[<-|[]]]]; reflexivity.
    + now apply nonempty_chars.
    + exact (forallb_impl _ _ _ digit_idchar Hi).
    + destruct (tiktok_exec_mobile scheme id Ha Hne Hi) as (E1 & E2 & E3).
      apply parses_to_tiktok; try assumption.
      * apply (tiktok_no_youtube scheme "m.tiktok.com/v/"); [exact Ha | simpl; tauto].
      * unfold url.
        change UrlParser.TIKTOK_PATTERNS
          with [nth 0 UrlParser.TIKTOK_PATTERNS (RegExp.Lit "");
                nth 1 UrlParser.TIKTOK_PATTERNS (RegExp.Lit "");
                nth 2 UrlParser.TIKTOK_PATTERNS (RegExp.Lit "")].
        destruct (first_capture_miss _ [nth 1 UrlParser.TIKTOK_PATTERNS (RegExp.Lit "");
                                        nth 2 UrlParser.TIKTOK_PATTERNS (RegExp.Lit "")]
                    _ E1) as [-> ->].
        destruct (first_capture_miss _ [nth 2 UrlParser.TIKTOK_PATTERNS (RegExp.Lit "")]
                    _ E2) as [-> ->].
        eapply first_capture_hit; [reflexivity | exact Hne | exact E3].
Qed.

Lemma tiktok_url_round_trip_witness :
  parses_to tiktok "https://www.tiktok.com/@username/video/1234567890123456789"
    "1234567890123456789".
Proof.
  apply (proj1 (tiktok_url_round_trip "https://" ltac:(simpl; tauto))
           "www." "username" "1234567890123456789");
    try discriminate; try reflexivity; simpl; tauto.
Defined.

End UrlRoundTrip.

(** ** Resetting the manager *)

Lemma fold_delete_lookup {C} (registered : gmap string nat) (tm : gmap nat C) h :
  ((exists taskId, registered !! taskId = Some h) ->
   map_fold (fun _ interval tm => delete interval tm) tm registered !! h = None) /\
  ((forall taskId, registered !! taskId <> Some h) ->
   map_fold (fun _ interval tm => delete interval tm) tm registered !! h = tm !! h).
Proof.
  apply (map_fold_weak_ind
           (fun r m =>
              ((exists taskId, m !! taskId = Some h) -> r !! h = None) /\
              ((forall taskId, m !! taskId <> Some h) -> r !! h = tm !! h))).
  - split; [|reflexivity]. intros [taskId H]. now rewrite lookup_empty in H.
  - intros i x m r Hi [IH1 IH2]. split.
    + intros [taskId H]. destruct (decide (x = h)) as [->|Hx].
      * apply lookup_delete_eq.
      * rewrite lookup_delete_ne by exact Hx. apply IH1.
        destruct (decide (taskId = i)) as [->|Hne].
        -- rewrite lookup_insert_eq in H. congruence.
        -- rewrite lookup_insert_ne in H by congruence. eauto.
    + intros H.
      assert (Hx : x <> h)
        by (intros ->; apply (H i); apply lookup_insert_eq).
      rewrite lookup_delete_ne by exact Hx. apply IH2.
      intros taskId Ht. apply (H taskId).
      destruct (decide (taskId = i)) as [->|Hne]; [congruence|].
      now rewrite lookup_insert_ne by congruence.
Qed.

Lemma fold_delete_none {C} (registered : gmap string nat) (tm : gmap nat C) h :
  tm !! h = None ->
  map_fold (fun _ interval tm => delete interval tm) tm registered !! h = None.
Proof.
  intros Hn.
  apply (map_fold_weak_ind (fun r (m : gmap string nat) => r !! h = None)).
  - exact Hn.
  - intros i x m r _ IH. destruct (decide (x = h)) as [->|Hx].
    + apply lookup_delete_eq.
    + now rewrite lookup_delete_ne by exact Hx.
Qed.

(** X23.  [_clearAllDownloads] empties the manager.  It returns, and leaves both
    tables empty; every interval the table knew is cleared, and an interval
    the table did not know is left as it was.  After calls that each used a
    fresh task id no interval is left at all, and a late firing of any
    handle changes nothing. *)
Theorem clearAllDownloads_spec (st : State) :
  fst (_clearAllDownloads st) = Ok tt /\
  activeDownloads (snd (_clearAllDownloads st)) = ∅ /\
  downloadIntervals (snd (_clearAllDownloads st)) = ∅ /\
  (forall taskId interval,
     downloadIntervals st !! taskId = Some interval ->
     timers (snd (_clearAllDownloads st)) !! interval = None) /\
  (forall interval,
     (forall taskId, downloadIntervals st !! taskId <> Some interval) ->
     timers (snd (_clearAllDownloads st)) !! interval = timers st !! interval) /\
  (reachable_fresh st ->
   timers (snd (_clearAllDownloads st)) = ∅ /\
   forall interval rnd now,
     interval_callback interval rnd now (snd (_clearAllDownloads st))
     = snd (_clearAllDownloads st)).
Proof.
  assert (Hsnd : snd (_clearAllDownloads st)
                 = mkState ∅ ∅
                     (map_fold (fun _ interval tm => delete interval tm) (timers st)
                        (downloadIntervals st))
                     (next_handle st)) by reflexivity.
  rewrite Hsnd. cbn [activeDownloads downloadIntervals timers].
  split; [reflexivity|]. split; [reflexivity|]. split; [reflexivity|].
  split; [|split].
  - intros taskId interval H.
    apply (proj1 (fold_delete_lookup (downloadIntervals st) (timers st) interval)).
    eauto.
  - intros interval H.
    now apply (proj2 (fold_delete_lookup (downloadIntervals st) (timers st) interval)).
  - intros Hreach.
    destruct (reachable_fresh_drivers_ok st Hreach) as (Hd1 & _).
    assert (Hempty : map_fold (fun _ interval tm => delete interval tm) (timers st)
                       (downloadIntervals st) = ∅).
    { apply map_eq. intros h. rewrite lookup_empty.
      destruct (timers st !! h) as [c|] eqn:Eh.
      - destruct (Hd1 h c Eh) as [Hreg _].
        apply (proj1 (fold_delete_lookup (downloadIntervals st) (timers st) h)). eauto.
      - now apply fold_delete_none. }
    split; [exact Hempty|]. intros interval rnd now.
    apply interval_callback_idle. cbn [timers]. rewrite Hempty. apply lookup_empty.
Qed.

(** ** The download history *)

Section History.

Variable isValidISODate : string -> bool.

(** The records [getHistory] reads from a storage. *)
Lemma getHistory_eq st :
  HistoryManager.getHistory isValidISODate st
  = if HistoryManager.available st then
      (match HistoryManager.items st !! HistoryManager.HISTORY_STORAGE_KEY with
       | Some stored => HistoryManager.parseHistory isValidISODate stored
       | None => []
       end,
       HistoryManager.set_items (delete "__storage_test__") st)
    else ([], st).
Proof.
  unfold HistoryManager.getHistory, HistoryManager.isLocalStorageAvailable.
  destruct (HistoryManager.available st); [|reflexivity]. simpl.
  rewrite lookup_delete_ne by discriminate.
  destruct (HistoryManager.items st !! HistoryManager.HISTORY_STORAGE_KEY); reflexivity.
Qed.

Lemma parseHistory_valid stored :
  Forall (fun record => HistoryManager.validateDownloadRecord isValidISODate record = true)
    (HistoryManager.parseHistory isValidISODate stored).
Proof.
  destruct stored as [[| | | |parsed|]|]; simpl; try constructor.
  apply Forall_forall. intros record Hin.
  apply list_elem_of_In, List.filter_In in Hin. tauto.
Qed.

Lemma getHistory_valid st :
  Forall (fun record => HistoryManager.validateDownloadRecord isValidISODate record = true)
    (fst (HistoryManager.getHistory isValidISODate st)).
Proof.
  rewrite getHistory_eq. destruct (HistoryManager.available st); [|constructor].
  simpl. destruct (_ !! _); [apply parseHistory_valid | constructor].
Qed.

Lemma filter_valid (p : HistoryManager.JSON -> bool) records :
  Forall (fun record => HistoryManager.validateDownloadRecord isValidISODate record = true)
    records ->
  List.filter (HistoryManager.validateDownloadRecord isValidISODate) (List.filter p records)
  = List.filter p records.
Proof.
  induction 1 as [|record records Hv _ IH]; simpl; [reflexivity|].
  destruct (p record); simpl; [|exact IH]. now rewrite Hv, IH.
Qed.

Lemma filter_all_valid records :
  Forall (fun record => HistoryManager.validateDownloadRecord isValidISODate record = true)
    records ->
  List.filter (HistoryManager.validateDownloadRecord isValidISODate) records = records.
Proof.
  induction 1 as [|record records Hv _ IH]; simpl; [reflexivity|]. now rewrite Hv, IH.
Qed.

Lemma validate_new_record record id downloadedAt :
  HistoryManager.validateDownloadRecord isValidISODate
    (HistoryManager.new_record record id downloadedAt)
  = negb (String.eqb id "")
    && negb (String.eqb (HistoryManager.title record) "")
    && negb (String.eqb (HistoryManager.url record) "")
    && negb (String.eqb (HistoryManager.quality record) "")
    && isValidISODate downloadedAt
    && negb (ltb (HistoryManager.fileSize record) 0).
Proof.
  unfold HistoryManager.validateDownloadRecord, HistoryManager.new_record.
  cbn [HistoryManager.property List.find fst snd String.eqb Ascii.eqb Bool.eqb
       HistoryManager.nonempty_string HistoryManager.isValidPlatform
       HistoryManager.isValidFormat].
  destruct (HistoryManager.platform record), (HistoryManager.format record); simpl;
    rewrite ?Bool.andb_true_r; reflexivity.
Qed.


Lemma filter_length_all {A} (p : A -> bool) l :
  (length (List.filter p l) =? length l)%nat = forallb p l.
Proof.
  induction l as [|x l IH]; simpl; [reflexivity|].
  destruct (p x); simpl; [exact IH|].
  apply Nat.eqb_neq. pose proof (List.filter_length_le p l). lia.
Qed.

Lemma filter_forallb {A} (p : A -> bool) l :
  forallb p l = true -> List.filter p l = l.
Proof.
  induction l as [|x l IH]; simpl; [reflexivity|].
  intros H. apply andb_prop in H as [Hx Hl]. now rewrite Hx, IH.
Qed.

Lemma forallb_negb_existsb {A} (p : A -> bool) l :
  forallb (fun x => negb (p x)) l = negb (existsb p l).
Proof.
  induction l as [|x l IH]; simpl; [reflexivity|].
  rewrite IH. now destruct (p x).
Qed.

Lemma find_filter_negb {A} (p : A -> bool) l :
  List.find p (List.filter (fun x => negb (p x)) l) = None.
Proof.
  induction l as [|x l IH]; simpl; [reflexivity|].
  destruct (p x) eqn:E; simpl; [exact IH|]. now rewrite E.
Qed.

Lemma saveDownload_read record now salt downloadedAt st :
  HistoryManager.available st = true ->
  let saved := HistoryManager.saveDownload isValidISODate record now salt downloadedAt st in
  let id := HistoryManager.generateRecordId now salt in
  let valid :=
    negb (String.eqb (HistoryManager.title record) "")
    && negb (String.eqb (HistoryManager.url record) "")
    && negb (String.eqb (HistoryManager.quality record) "")
    && isValidISODate downloadedAt
    && leb 0 (HistoryManager.fileSize record) in
  fst saved = HistoryManager.new_record record id downloadedAt /\
  HistoryManager.validateDownloadRecord isValidISODate (fst saved) = valid /\
  fst (HistoryManager.getHistory isValidISODate (snd saved))
  = (if valid then [fst saved] else [])
    ++ fst (HistoryManager.getHistory isValidISODate st).
Proof.
  intros Ha saved id valid.
  assert (Hvalid : HistoryManager.validateDownloadRecord isValidISODate
                     (HistoryManager.new_record record id downloadedAt) = valid).
  { rewrite validate_new_record. change (String.eqb id "") with false.
    unfold valid, ltb, leb. now rewrite Bool.negb_involutive. }
  pose proof (getHistory_valid st) as Hold.
  assert (Hsaved : saved
    = (HistoryManager.new_record record id downloadedAt,
       HistoryManager.set_items
         (insert HistoryManager.HISTORY_STORAGE_KEY
            (HistoryManager.serializeHistory
               (HistoryManager.new_record record id downloadedAt
                :: fst (HistoryManager.getHistory isValidISODate st))))
         (HistoryManager.set_items (delete "__storage_test__")
            (HistoryManager.set_items (delete "__storage_test__") st)))).
  { unfold saved, HistoryManager.saveDownload, HistoryManager.isLocalStorageAvailable.
    rewrite Ha. cbn [negb]. rewrite !getHistory_eq. simpl. rewrite Ha.
    rewrite lookup_delete_ne by discriminate. reflexivity. }
  split; [now rewrite Hsaved|]. split; [now rewrite Hsaved|].
  rewrite Hsaved. cbn [fst snd]. rewrite getHistory_eq. simpl. rewrite Ha.
  rewrite lookup_insert_eq.
  cbn [fst HistoryManager.serializeHistory HistoryManager.parseHistory List.filter].
  rewrite Hvalid, (filter_all_valid _ Hold). now destruct valid.
Qed.


Lemma find_none_existsb {A} (p : A -> bool) l :
  existsb p l = false -> List.find p l = None.
Proof.
  induction l as [|x l IH]; simpl; [reflexivity|].
  destruct (p x); [discriminate | exact IH].
Qed.

(** X25.  What [deleteRecord] removes.  With a storage that works,
    [deleteRecord] returns [true] exactly when the history holds a record
    of the id; the history read afterwards is the one read before without
    the records of that id, in the same order, and [getRecordById] no
    longer finds the id.  When it returns [false] the stored item is
    untouched. *)
Theorem deleteRecord_spec (id : string) (st : HistoryManager.Storage) :
  HistoryManager.available st = true ->
  let history := fst (HistoryManager.getHistory isValidISODate st) in
  let deleted := HistoryManager.deleteRecord isValidISODate id st in
  fst deleted = existsb (HistoryManager.has_id id) history /\
  fst (HistoryManager.getHistory isValidISODate (snd deleted))
  = List.filter (fun record => negb (HistoryManager.has_id id record)) history /\
  fst (HistoryManager.getRecordById isValidISODate id (snd deleted)) = None /\
  (fst deleted = false ->
   HistoryManager.items (snd deleted) !! HistoryManager.HISTORY_STORAGE_KEY
   = HistoryManager.items st !! HistoryManager.HISTORY_STORAGE_KEY).
Proof.
  intros Ha history deleted.
  pose proof (getHistory_valid st) as Hold. fold history in Hold.
  set (kept := List.filter (fun record => negb (HistoryManager.has_id id record)) history).
  set (st2 := HistoryManager.set_items (delete "__storage_test__")
                (HistoryManager.set_items (delete "__storage_test__") st)).
  assert (Hh2 : fst (HistoryManager.getHistory isValidISODate st2) = history).
  { unfold history. rewrite !getHistory_eq. simpl. rewrite Ha. simpl.
    now rewrite !lookup_delete_ne by discriminate. }
  assert (Hdel : deleted
    = if existsb (HistoryManager.has_id id) history
      then (true,
            HistoryManager.set_items
              (insert HistoryManager.HISTORY_STORAGE_KEY
                 (HistoryManager.serializeHistory kept)) st2)
      else (false, st2)).
  { unfold deleted, HistoryManager.deleteRecord, HistoryManager.isLocalStorageAvailable.
    rewrite Ha. cbn [negb]. rewrite getHistory_eq. simpl HistoryManager.available.
    rewrite Ha. cbv zeta.
    assert (E : match HistoryManager.items
                        (HistoryManager.set_items (delete "__storage_test__") st)
                      !! HistoryManager.HISTORY_STORAGE_KEY with
                | Some stored => HistoryManager.parseHistory isValidISODate stored
                | None => []
                end = history).
    { unfold history. rewrite getHistory_eq, Ha. simpl.
      now rewrite lookup_delete_ne by discriminate. }
    rewrite E. fold kept. fold st2. unfold kept.
    rewrite filter_length_all, forallb_negb_existsb.
    now destruct (existsb (HistoryManager.has_id id) history). }
  destruct (existsb (HistoryManager.has_id id) history) eqn:Ex; rewrite Hdel; cbn [fst snd].
  - split; [reflexivity|]. split; [|split; [|discriminate]].
    + rewrite getHistory_eq. simpl. rewrite Ha, lookup_insert_eq.
      cbn [fst HistoryManager.serializeHistory HistoryManager.parseHistory].
      apply filter_valid, Hold.
    + unfold HistoryManager.getRecordById. rewrite getHistory_eq. simpl.
      rewrite Ha, lookup_insert_eq.
      cbn [fst HistoryManager.serializeHistory HistoryManager.parseHistory].
      unfold kept. rewrite (filter_valid _ _ Hold). apply find_filter_negb.
  - split; [reflexivity|]. split; [|split].
    + rewrite Hh2. symmetry. apply filter_forallb.
      rewrite forallb_negb_existsb, Ex. reflexivity.
    + unfold HistoryManager.getRecordById.
      destruct (HistoryManager.getHistory isValidISODate st2) as [h s2] eqn:E.
      simpl in Hh2. subst h. cbn [fst]. now apply find_none_existsb.
    + intros _. unfold st2. simpl. now rewrite !lookup_delete_ne by discriminate.
Qed.

(** X26.  What the history functions leave alone.  After [clearHistory] the
    history is empty.  With a storage that does not work nothing is read
    and nothing is written: [getHistory] returns no record, [saveDownload]
    returns its record, [deleteRecord] returns [false], and the storage is
    as it was.  In any case no function touches an item other than the
    history and the probe [__storage_test__]. *)
Theorem history_storage_frame (st : HistoryManager.Storage)
    (record : HistoryManager.PartialRecord) (now : Z) (salt downloadedAt id : string) :
  fst (HistoryManager.getHistory isValidISODate (HistoryManager.clearHistory st)) = [] /\
  (HistoryManager.available st = false ->
   HistoryManager.getHistory isValidISODate st = ([], st) /\
   HistoryManager.saveDownload isValidISODate record now salt downloadedAt st
   = (HistoryManager.new_record record (HistoryManager.generateRecordId now salt)
        downloadedAt, st) /\
   HistoryManager.deleteRecord isValidISODate id st = (false, st) /\
   HistoryManager.getRecordById isValidISODate id st = (None, st) /\
   HistoryManager.clearHistory st = st) /\
  (forall key,
     key <> HistoryManager.HISTORY_STORAGE_KEY -> key <> "__storage_test__" ->
     HistoryManager.items (snd (HistoryManager.getHistory isValidISODate st)) !! key
     = HistoryManager.items st !! key /\
     HistoryManager.items
       (snd (HistoryManager.saveDownload isValidISODate record now salt downloadedAt st))
     !! key
     = HistoryManager.items st !! key /\
     HistoryManager.items (snd (HistoryManager.deleteRecord isValidISODate id st)) !! key
     = HistoryManager.items st !! key /\
     HistoryManager.items (snd (HistoryManager.getRecordById isValidISODate id st)) !! key
     = HistoryManager.items st !! key /\
     HistoryManager.items (HistoryManager.clearHistory st) !! key
     = HistoryManager.items st !! key).
Proof.
  split; [|split].
  - unfold HistoryManager.clearHistory, HistoryManager.isLocalStorageAvailable.
    destruct (HistoryManager.available st) eqn:Ha; cbn [negb]; rewrite getHistory_eq.
    + simpl. rewrite Ha. simpl. now rewrite lookup_delete_eq.
    + now rewrite Ha.
  - intros Ha.
    unfold HistoryManager.saveDownload, HistoryManager.deleteRecord,
      HistoryManager.getRecordById, HistoryManager.clearHistory,
      HistoryManager.isLocalStorageAvailable.
    rewrite getHistory_eq, Ha. auto.
  - intros key Hk Ht.
    unfold HistoryManager.saveDownload, HistoryManager.deleteRecord,
      HistoryManager.getRecordById, HistoryManager.clearHistory,
      HistoryManager.isLocalStorageAvailable.
    rewrite !getHistory_eq.
    destruct (HistoryManager.available st) eqn:Ha; cbn [negb fst snd].
    + rewrite !getHistory_eq. simpl HistoryManager.available. rewrite Ha. cbv zeta.
      destruct (_ =? _)%nat; simpl;
        rewrite ?lookup_insert_ne, ?lookup_delete_ne by congruence; auto.
    + auto.
Qed.

Lemma extracted_title_nonempty parsedUrl info :
  VideoExtractor.extractVideoInfo parsedUrl = Ok info -> VideoInfo.title info <> "".
Proof.
  unfold VideoExtractor.extractVideoInfo, VideoExtractor.extractYouTubeVideoInfo,
    VideoExtractor.extractTikTokVideoInfo.
  destruct (UrlParser.platform parsedUrl); intros H; injection H as <-; discriminate.
Qed.

Lemma extracted_option_nonneg parsedUrl info o :
  VideoExtractor.extractVideoInfo parsedUrl = Ok info ->
  In o (VideoInfo.qualities info) ->
  0 <= QualityOption.fileSize o.
Proof.
  intros He Hin. destruct (QualityOption.available o) eqn:Ha.
  - apply Qlt_le_weak. exact (extracted_option_positive parsedUrl info o He Hin Ha).
  - destruct (extractVideoInfo_shape parsedUrl)
      as (k & d & info' & He' & _ & _ & _ & _ & Hq).
    rewrite He in He'. injection He' as <-. rewrite Hq in Hin.
    destruct (In_getAvailableQualities _ _ _ _ Hin) as [(q & ->)|(_ & ->)];
      [|discriminate Ha].
    unfold mp4_option in *. simpl in *. rewrite Ha. apply Qle_refl.
Qed.

Lemma completed_task_size st taskId task :
  reachable st ->
  activeDownloads st !! taskId = Some task ->
  DownloadTask.status task = completed ->
  0 < QualityOption.fileSize (DownloadTask.quality task).
Proof.
  intros Hreach Hl Hs.
  pose proof (reachable_lifecycle_ok _ _ _ Hreach Hl) as (_ & _ & _ & Hlife).
  rewrite Hs in Hlife. destruct Hlife as (_ & _ & Hp & _).
  destruct (reachable_progress_consistent _ _ _ Hreach Hl) as (Hc & Ht & _).
  rewrite <- Ht. apply Qnot_le_lt. intros Hle.
  rewrite (calculatePercentage_no_total _ _ Hle), Hp in Hc. discriminate Hc.
Qed.

(** X27.  A completed download is recorded once, under the id of the video.  Let
    a task of a reachable registry be [completed] and the storage work.
    The first poll of the progress view that has not saved yet sets its
    flag and saves the record of the task, whose address field is the id of
    the video (the view passes [videoInfo.id] as the address).  The record
    is read back, at the head of the history, exactly when the title and
    the id of the video are not empty and the runtime accepts the date; a
    poll with the flag set leaves the storage as it is; and a poll of a
    task that is not completed, or is gone, saves nothing. *)
Theorem completed_download_recorded (st : State) (taskId : string)
    (task : DownloadTask.t) (now : Z) (salt downloadedAt : string)
    (storage : HistoryManager.Storage) :
  reachable st ->
  activeDownloads st !! taskId = Some task ->
  DownloadTask.status task = completed ->
  HistoryManager.available storage = true ->
  let videoInfo := DownloadTask.videoInfo task in
  let record :=
    HistoryManager.new_record
      (HistoryManager.Build_PartialRecord (VideoInfo.title videoInfo)
         (VideoInfo.id videoInfo) (VideoInfo.platform videoInfo)
         (QualityOption.format (DownloadTask.quality task))
         (quality_string (QualityOption.quality (DownloadTask.quality task)))
         (QualityOption.fileSize (DownloadTask.quality task)))
      (HistoryManager.generateRecordId now salt) downloadedAt in
  let valid :=
    negb (String.eqb (VideoInfo.title videoInfo) "")
    && negb (String.eqb (VideoInfo.id videoInfo) "")
    && isValidISODate downloadedAt in
  let polled :=
    DownloadProgressView.poll isValidISODate taskId now salt downloadedAt false st
      storage in
  fst polled = true /\
  fst (HistoryManager.getHistory isValidISODate (snd polled))
  = (if valid then [record] else [])
    ++ fst (HistoryManager.getHistory isValidISODate storage) /\
  (forall now' salt' downloadedAt' storage',
     DownloadProgressView.poll isValidISODate taskId now' salt' downloadedAt' true st
       storage'
     = (true, storage')) /\
  (forall st' saved,
     match activeDownloads st' !! taskId with
     | Some task' => DownloadTask.status task' <> completed
     | None => True
     end ->
     DownloadProgressView.poll isValidISODate taskId now salt downloadedAt saved st'
       storage
     = (saved, storage)).
Proof.
  intros Hreach Hl Hs Ha videoInfo record valid polled.
  pose proof (completed_task_size st taskId task Hreach Hl Hs) as Hsize.
  split; [|split; [|split]].
  - unfold polled, DownloadProgressView.poll, getDownloadTask. now rewrite Hl, Hs.
  - unfold polled, DownloadProgressView.poll, getDownloadTask. rewrite Hl, Hs.
    cbn [status_eqb andb negb snd].
    destruct (saveDownload_read
                (HistoryManager.createRecordFromDownload videoInfo
                   (DownloadTask.quality task) (VideoInfo.id videoInfo))
                now salt downloadedAt storage Ha) as (Hsaved & _ & Hread).
    fold videoInfo. rewrite Hread, Hsaved. f_equal.
    unfold HistoryManager.createRecordFromDownload. simpl.
    assert (Hq : String.eqb (quality_string (QualityOption.quality (DownloadTask.quality task)))
                   "" = false)
      by (destruct (QualityOption.quality (DownloadTask.quality task)); reflexivity).
    assert (Hle : leb 0 (QualityOption.fileSize (DownloadTask.quality task)) = true)
      by (apply leb_true; lra).
    rewrite Hq, Hle. unfold valid. cbn [negb].
    rewrite !Bool.andb_true_r. reflexivity.
  - intros now' salt' downloadedAt' storage'.
    unfold DownloadProgressView.poll, getDownloadTask. rewrite Hl, Hs. reflexivity.
  - intros st' saved Hst'. unfold DownloadProgressView.poll, getDownloadTask.
    destruct (activeDownloads st' !! taskId) as [task'|]; [|reflexivity].
    destruct (DownloadTask.status task'); try reflexivity. congruence.
Qed.


End History.




Lemma deleteRecord_spec_witness :
  fst (HistoryManager.deleteRecord (fun s => String.eqb s "2023-11-14T22:13:20.000Z")
         "rec_1700000000000_k3j9x2a"
         (snd (HistoryManager.saveDownload
                 (fun s => String.eqb s "2023-11-14T22:13:20.000Z")
                 (HistoryManager.Build_PartialRecord "Song"
                    "https://youtu.be/dQw4w9WgXcQ" youtube mp3 "360p" 8096000)
                 1700000000000 "k3j9x2a" "2023-11-14T22:13:20.000Z"
                 (HistoryManager.mkStorage true ∅))))
  = true.
Proof.
  set (st := snd (HistoryManager.saveDownload _ _ _ _ _ _)).
  rewrite (proj1 (deleteRecord_spec (fun s => String.eqb s "2023-11-14T22:13:20.000Z")
                    "rec_1700000000000_k3j9x2a" st eq_refl)).
  reflexivity.
Defined.

Lemma completed_download_recorded_witness :
  fst (HistoryManager.getHistory (fun s => String.eqb s "2023-11-14T22:13:20.000Z")
         (snd (DownloadProgressView.poll
                 (fun s => String.eqb s "2023-11-14T22:13:20.000Z")
                 "dl_1" 1700000000000 "k3j9x2a" "2023-11-14T22:13:20.000Z" false
                 Sample.st_completed (HistoryManager.mkStorage true ∅))))
  = [HistoryManager.new_record
       (HistoryManager.Build_PartialRecord (VideoInfo.title Sample.video)
          (VideoInfo.id Sample.video) (VideoInfo.platform Sample.video) mp4 "720p"
          (QualityOption.fileSize Sample.quality720))
       "rec_1700000000000_k3j9x2a" "2023-11-14T22:13:20.000Z"].
Proof.
  assert (H : exists task,
            activeDownloads Sample.st_completed !! "dl_1" = Some task /\
            DownloadTask.status task = completed /\
            DownloadTask.videoInfo task = Sample.video /\
            DownloadTask.quality task = Sample.quality720)
    by (eexists; repeat split; reflexivity).
  destruct H as (task & Hl & Hs & Hv & Hq).
  destruct (completed_download_recorded
              (fun s => String.eqb s "2023-11-14T22:13:20.000Z")
              Sample.st_completed "dl_1" task 1700000000000 "k3j9x2a"
              "2023-11-14T22:13:20.000Z" (HistoryManager.mkStorage true ∅)
              sample_completed_reachable Hl Hs eq_refl) as (_ & Hread & _).
  rewrite Hread, Hv, Hq. reflexivity.
Defined.

(** ** The quality selector *)

(** X28.  Each item of the select picks the option it shows.  For the options
    [getAvailableQualities] builds, every item of the select is made from
    an option of the list such that [handleQualityChange] of the value of
    the item selects that very option, and the item is disabled exactly
    when the option is not available.  [handleDownload] of that option
    then hands a [downloading] task of it to [onDownloadStart] and
    registers it when the item is enabled, and hands over nothing and
    leaves the manager as it is when the item is disabled. *)
Theorem select_item_picks_its_option (duration : Q)
    (availableQualities : list VideoQuality) (originalQuality : option VideoQuality)
    (value : string) (disabled : bool) (taskId : string) (now : Z) (rnd : Q)
    (videoInfo : VideoInfo.t) (st : State) :
  let qualities :=
    VideoExtractor.getAvailableQualities duration availableQualities originalQuality in
  In (value, disabled) (QualitySelector.select_items qualities) ->
  exists option,
    In option qualities /\
    QualitySelector.handleQualityChange qualities value = Some option /\
    value = format_string (QualityOption.format option) +:+ "-"
            +:+ quality_string (QualityOption.quality option) /\
    disabled = negb (QualityOption.available option) /\
    if disabled then
      QualitySelector.handleDownload taskId now rnd videoInfo (Some option) st = (None, st)
    else
      exists st',
        QualitySelector.handleDownload taskId now rnd videoInfo (Some option) st
        = (Some (started_task taskId now videoInfo option None), st') /\
        activeDownloads st' !! taskId = Some (started_task taskId now videoInfo option None).
Proof.
  intros qualities Hin.
  assert (Hdl : forall option,
    if negb (QualityOption.available option) then
      QualitySelector.handleDownload taskId now rnd videoInfo (Some option) st = (None, st)
    else
      exists st',
        QualitySelector.handleDownload taskId now rnd videoInfo (Some option) st
        = (Some (started_task taskId now videoInfo option None), st') /\
        activeDownloads st' !! taskId = Some (started_task taskId now videoInfo option None)).
  { intros option. unfold QualitySelector.handleDownload.
    destruct (QualityOption.available option) eqn:Ea; cbn [negb].
    - destruct (startDownload_available taskId now rnd videoInfo option st Ea)
        as (st' & -> & Hreg).
      exists st'. split; [reflexivity|]. rewrite Hreg. apply lookup_insert_eq.
    - now rewrite (startDownload_unavailable _ _ _ _ _ _ Ea). }
  unfold qualities in *. rewrite getAvailableQualities_eq in *.
  set (r := VideoExtractor.getRecommendedQuality availableQualities originalQuality) in *.
  clearbody r.
  destruct availableQualities as [|a l].
  - cbn in Hin.
    repeat (destruct Hin as [Hin|Hin];
            [injection Hin as <- <-; eexists; split; [|split; [reflexivity|]];
             [simpl; tauto
             | split; [reflexivity|]; split; [reflexivity|];
               match goal with |- context [Some ?o] => exact (Hdl o) end]|]).
    destruct Hin.
  - set (av := a :: l) in *. clearbody av. cbn in Hin.
    repeat (destruct Hin as [Hin|Hin];
            [injection Hin as <- <-; eexists; split; [|split; [reflexivity|]];
             [simpl; tauto
             | split; [reflexivity|]; split; [reflexivity|];
               match goal with |- context [Some ?o] => exact (Hdl o) end]|]).
    destruct Hin.
Qed.

Lemma select_item_picks_its_option_witness :
  exists option,
    QualitySelector.handleQualityChange
      (VideoExtractor.getAvailableQualities 60 [q360p; q480p] (Some q480p)) "mp3-360p"
    = Some option /\
    QualityOption.format option = mp3.
Proof.
  destruct (select_item_picks_its_option 60 [q360p; q480p] (Some q480p) "mp3-360p" false
              "dl_1" 0 0 Sample.video initial_state)
    as (option & _ & Hpick & Hv & _).
  - right. right. right. right. right. left. reflexivity.
  - exists option. split; [exact Hpick|].
    destruct (QualityOption.format option); [discriminate Hv | reflexivity].
Defined.
